(** * tgterm: the request layer of [bot.c]

    A shallow embedding of the Telegram terminal bot's request handler:
    the TOTP check, the owner filter, the session gate, the command
    router and the keystroke encoder, followed by the properties the
    specification states about them.

    Conventions.
    - A C string ([char *], NUL terminated) is a [string]; reading the
      byte past its end yields the terminator 0.
    - C integers are [Z]; casts and wrap-around are written out
      ([to_uint64], [to_uint32], [to_int]).
    - The globals of [bot.c], the sqlite key-value store and the counters
      of the external calls form the record [State]; the external
      collaborators (clock, window backend, HMAC, [sscanf]) are the
      oracles of the record [Env].
    - [handle_request] runs under [RequestLock] from its first to its last
      statement; the embedding is the sequential body of that critical
      section. *)

From Stdlib Require Import ZArith List String Ascii Lia Bool.
From stdpp Require Import base gmap strings list pretty.
Import ListNotations.
Local Open Scope Z_scope.

(** ** C integers *)

Definition LLONG_MAX : Z := 2 ^ 63 - 1.
Definition LLONG_MIN : Z := - 2 ^ 63.
Definition INT_MAX : Z := 2 ^ 31 - 1.

(** [(uint64_t) z], [(uint32_t) z] and [(int) z]. *)
Definition to_uint64 (z : Z) : Z := z mod 2 ^ 64.
Definition to_uint32 (z : Z) : Z := z mod 2 ^ 32.
Definition to_int (z : Z) : Z := (z + 2 ^ 31) mod 2 ^ 32 - 2 ^ 31.

(** [(unsigned char) z] *)
Definition to_uchar (z : Z) : Z := z mod 256.

(** ** C strings *)

Definition uchar (a : ascii) : Z := Z.of_N (N_of_ascii a).

(** [(const unsigned char * ) text]: the bytes before the terminator. *)
Definition bytes (s : string) : list Z := map uchar (list_ascii_of_string s).

(** [p[i]] on a byte buffer; the byte after the last one is the NUL. *)
Definition byte_at (p : list Z) (i : Z) : Z := nth (Z.to_nat i) p 0.

Definition char_at (s : string) (i : Z) : Z := byte_at (bytes s) i.

Definition strlen (s : string) : Z := Z.of_nat (String.length s).

(** [s + n] for a pointer [s] into a C string with [n <= strlen s]. *)
Definition str_from (n : nat) (s : string) : string :=
  String.substring n (String.length s - n) s.

(** ** <ctype.h> and <stdlib.h>, C locale *)

Definition isdigit (c : Z) : bool := (48 <=? c) && (c <=? 57).

Definition isspace (c : Z) : bool := (c =? 32) || ((9 <=? c) && (c <=? 13)).

Definition tolower (c : Z) : Z :=
  if (65 <=? c) && (c <=? 90) then c + 32 else c.

Fixpoint skip_space (s : list Z) : list Z :=
  match s with
  | c :: r => if isspace c then skip_space r else s
  | [] => []
  end.

(** The value of the longest prefix of decimal digits, from [acc]. *)
Fixpoint digits_value (acc : Z) (s : list Z) : Z :=
  match s with
  | c :: r => if isdigit c then digits_value (acc * 10 + (c - 48)) r else acc
  | [] => acc
  end.

(** The subject sequence of [strtol]: white space, an optional sign,
    decimal digits; 0 when there is no digit. *)
Definition decimal_subject (s : list Z) : Z :=
  let r := skip_space s in
  if byte_at r 0 =? 45 then - digits_value 0 (drop 1 r)
  else if byte_at r 0 =? 43 then digits_value 0 (drop 1 r)
  else digits_value 0 r.

(** [strtoll(s, NULL, 10)] (and [strtol] on an LP64 target): the value
    saturates at the ends of the 64-bit range. *)
Definition strtoll (s : string) : Z :=
  Z.max LLONG_MIN (Z.min LLONG_MAX (decimal_subject (bytes s))).

(** [atoi(s)] is [(int) strtol(s, NULL, 10)], as glibc and the macOS libc
    define it. *)
Definition atoi (s : string) : Z := to_int (strtoll s).

(** [strcasecmp(a, b)]: the difference of the first pair of bytes that
    differ after [tolower], the terminator included. *)
Fixpoint strcasecmp_bytes (a b : list Z) : Z :=
  match a, b with
  | [], [] => 0
  | [], y :: _ => 0 - tolower y
  | x :: _, [] => tolower x - 0
  | x :: a', y :: b' =>
      if tolower x =? tolower y then strcasecmp_bytes a' b'
      else tolower x - tolower y
  end.

Definition strcasecmp (a b : string) : Z :=
  strcasecmp_bytes (bytes a) (bytes b).

(** [strncasecmp(a, b, n)]: the same over at most [n] bytes. *)
Fixpoint strncasecmp_bytes (n : nat) (a b : list Z) : Z :=
  match n with
  | O => 0
  | S n' =>
      match a, b with
      | [], [] => 0
      | [], y :: _ => 0 - tolower y
      | x :: _, [] => tolower x - 0
      | x :: a', y :: b' =>
          if tolower x =? tolower y then strncasecmp_bytes n' a' b'
          else tolower x - tolower y
      end
  end.

Definition strncasecmp (a b : string) (n : nat) : Z :=
  strncasecmp_bytes n (bytes a) (bytes b).

(** [strcmp(a, b)]: the difference of the first pair of bytes that differ. *)
Fixpoint strcmp_bytes (a b : list Z) : Z :=
  match a, b with
  | [], [] => 0
  | [], y :: _ => 0 - y
  | x :: _, [] => x - 0
  | x :: a', y :: b' => if x =? y then strcmp_bytes a' b' else x - y
  end.

Definition strcmp (a b : string) : Z := strcmp_bytes (bytes a) (bytes b).

(** The conversions [%d], [%lld] and [%lu] of [printf]. *)
Definition dec (z : Z) : string := pretty z.

(** The line feed of a C literal. *)
Definition LF : string := String (ascii_of_nat 10) EmptyString.

(** A C literal written with [\x] escapes. *)
Definition cstring (l : list Z) : string :=
  string_of_list_ascii (map (fun b => ascii_of_N (Z.to_N b)) l).

(** ** platform.h *)

Definition MOD_CTRL : Z := Z.shiftl 1 0.
Definition MOD_ALT : Z := Z.shiftl 1 1.
Definition MOD_CMD : Z := Z.shiftl 1 2.

Definition PLAT_KEY_CHAR : Z := 0.
Definition PLAT_KEY_RETURN : Z := 1.
Definition PLAT_KEY_TAB : Z := 2.
Definition PLAT_KEY_ESCAPE : Z := 3.

Record WinInfo := {
  window_id : Z;
  pid : Z;
  owner : string;
  title : string
}.

Definition no_window : WinInfo :=
  {| window_id := 0; pid := 0; owner := ""; title := "" |}.

(** ** The request of botlib.h

    Modelled from the spec: the [BotRequest] of botlib.h, which is not
    among the sources; the fields are those [handle_request] reads, and
    the messaging gateway contract lists them: sender identifier, sender
    display name, target reply channel, raw text and, for callbacks, a
    callback identifier and an action string. *)

Record BotRequest := {
  from : Z;
  from_username : string;
  target : Z;
  request : string;
  is_callback : bool;
  callback_id : string;
  callback_data : string;
  msg_id : Z
}.

(** ** External collaborators

    Each oracle is indexed by the number of earlier calls of its kind, so
    that two calls in one request may see different answers. *)

Record Env := {
  (** [hmac_sha1(key, key_len, msg, msg_len, out)] of sha1.h: the 20
      bytes written to [out]. *)
  hmac_sha1 : list Z -> list Z -> list Z;
  (** [sscanf(hex, "%2x", &byte)]: the converted value when the call
      returns 1. *)
  sscanf_2x : list Z -> option Z;
  (** [time(NULL)] *)
  time_at : nat -> Z;
  (** [plat_list_windows(&list, danger_mode)]: the windows stored in
      [list]; the call returns their number. *)
  plat_list_windows_at : nat -> bool -> list WinInfo;
  (** [plat_window_exists(&wid, pid)]: [Some wid'] when it returns 1,
      with [wid'] the possibly retargeted window id; [None] when it
      returns 0 and leaves [wid] alone. *)
  plat_window_exists_at : nat -> Z -> Z -> option Z;
  (** [plat_capture_window(wid, path)]: its return value. *)
  plat_capture_window_at : nat -> Z -> string -> Z
}.

(** ** What a request does to the outside

    Every call of the messaging gateway (botlib), of the window backend
    and of the C library that acts on the outside is recorded as an
    event, in program order. *)

Inductive Event :=
| Printf (line : string)
| BotSendMessage (target : Z) (text : string) (reply_to : Z)
| BotAnswerCallbackQuery (callback_id : string)
| BotSendImageWithKeyboard (chat_id : Z) (path btn data : string)
| BotEditMessageMedia (chat_id msg_id : Z) (path btn data : string)
| PlatRaiseWindow (pid wid : Z)
| PlatSendKey (pid special ch mods : Z)
| Usleep (usec : Z)
| Sleep (sec : Z).

(** The events that reach the sender of a request. *)
Definition is_reply (e : Event) : bool :=
  match e with
  | BotSendMessage _ _ _ | BotAnswerCallbackQuery _
  | BotSendImageWithKeyboard _ _ _ _ | BotEditMessageMedia _ _ _ _ _ => true
  | _ => false
  end.

(** ** Global state of bot.c, with the store and the call counters *)

Record State := {
  DangerMode : bool;
  WindowList : list WinInfo;
  WindowCount : Z;
  WeakSecurity : bool;
  Authenticated : bool;
  LastActivity : Z;
  OtpTimeout : Z;
  Connected : bool;
  ConnectedWid : Z;
  ConnectedPid : Z;
  ConnectedOwner : string;
  ConnectedTitle : string;
  (** the [KeyValue] table behind [kvGet] and [kvSet] *)
  kv : gmap string string;
  (** calls of [time] and of the window backend made so far *)
  clock_reads : nat;
  plat_calls : nat
}.

Definition set_windows (l : list WinInfo) (n : Z) (s : State) : State :=
  {| DangerMode := DangerMode s; WindowList := l; WindowCount := n;
     WeakSecurity := WeakSecurity s; Authenticated := Authenticated s;
     LastActivity := LastActivity s; OtpTimeout := OtpTimeout s;
     Connected := Connected s; ConnectedWid := ConnectedWid s;
     ConnectedPid := ConnectedPid s; ConnectedOwner := ConnectedOwner s;
     ConnectedTitle := ConnectedTitle s; kv := kv s;
     clock_reads := clock_reads s; plat_calls := plat_calls s |}.

Definition set_Authenticated (b : bool) (s : State) : State :=
  {| DangerMode := DangerMode s; WindowList := WindowList s;
     WindowCount := WindowCount s;
     WeakSecurity := WeakSecurity s; Authenticated := b;
     LastActivity := LastActivity s; OtpTimeout := OtpTimeout s;
     Connected := Connected s; ConnectedWid := ConnectedWid s;
     ConnectedPid := ConnectedPid s; ConnectedOwner := ConnectedOwner s;
     ConnectedTitle := ConnectedTitle s; kv := kv s;
     clock_reads := clock_reads s; plat_calls := plat_calls s |}.

Definition set_LastActivity (t : Z) (s : State) : State :=
  {| DangerMode := DangerMode s; WindowList := WindowList s;
     WindowCount := WindowCount s;
     WeakSecurity := WeakSecurity s; Authenticated := Authenticated s;
     LastActivity := t; OtpTimeout := OtpTimeout s;
     Connected := Connected s; ConnectedWid := ConnectedWid s;
     ConnectedPid := ConnectedPid s; ConnectedOwner := ConnectedOwner s;
     ConnectedTitle := ConnectedTitle s; kv := kv s;
     clock_reads := clock_reads s; plat_calls := plat_calls s |}.

Definition set_OtpTimeout (t : Z) (s : State) : State :=
  {| DangerMode := DangerMode s; WindowList := WindowList s;
     WindowCount := WindowCount s;
     WeakSecurity := WeakSecurity s; Authenticated := Authenticated s;
     LastActivity := LastActivity s; OtpTimeout := t;
     Connected := Connected s; ConnectedWid := ConnectedWid s;
     ConnectedPid := ConnectedPid s; ConnectedOwner := ConnectedOwner s;
     ConnectedTitle := ConnectedTitle s; kv := kv s;
     clock_reads := clock_reads s; plat_calls := plat_calls s |}.

(** The five globals of the connected window, written together. *)
Definition set_connection (c : bool) (wid p : Z) (o t : string) (s : State)
  : State :=
  {| DangerMode := DangerMode s; WindowList := WindowList s;
     WindowCount := WindowCount s;
     WeakSecurity := WeakSecurity s; Authenticated := Authenticated s;
     LastActivity := LastActivity s; OtpTimeout := OtpTimeout s;
     Connected := c; ConnectedWid := wid;
     ConnectedPid := p; ConnectedOwner := o;
     ConnectedTitle := t; kv := kv s;
     clock_reads := clock_reads s; plat_calls := plat_calls s |}.

Definition set_ConnectedWid (wid : Z) (s : State) : State :=
  set_connection (Connected s) wid (ConnectedPid s) (ConnectedOwner s)
    (ConnectedTitle s) s.

Definition set_kv (m : gmap string string) (s : State) : State :=
  {| DangerMode := DangerMode s; WindowList := WindowList s;
     WindowCount := WindowCount s;
     WeakSecurity := WeakSecurity s; Authenticated := Authenticated s;
     LastActivity := LastActivity s; OtpTimeout := OtpTimeout s;
     Connected := Connected s; ConnectedWid := ConnectedWid s;
     ConnectedPid := ConnectedPid s; ConnectedOwner := ConnectedOwner s;
     ConnectedTitle := ConnectedTitle s; kv := m;
     clock_reads := clock_reads s; plat_calls := plat_calls s |}.

Definition tick_clock (s : State) : State :=
  {| DangerMode := DangerMode s; WindowList := WindowList s;
     WindowCount := WindowCount s;
     WeakSecurity := WeakSecurity s; Authenticated := Authenticated s;
     LastActivity := LastActivity s; OtpTimeout := OtpTimeout s;
     Connected := Connected s; ConnectedWid := ConnectedWid s;
     ConnectedPid := ConnectedPid s; ConnectedOwner := ConnectedOwner s;
     ConnectedTitle := ConnectedTitle s; kv := kv s;
     clock_reads := S (clock_reads s); plat_calls := plat_calls s |}.

Definition tick_plat (s : State) : State :=
  {| DangerMode := DangerMode s; WindowList := WindowList s;
     WindowCount := WindowCount s;
     WeakSecurity := WeakSecurity s; Authenticated := Authenticated s;
     LastActivity := LastActivity s; OtpTimeout := OtpTimeout s;
     Connected := Connected s; ConnectedWid := ConnectedWid s;
     ConnectedPid := ConnectedPid s; ConnectedOwner := ConnectedOwner s;
     ConnectedTitle := ConnectedTitle s; kv := kv s;
     clock_reads := clock_reads s; plat_calls := S (plat_calls s) |}.

(** The connection as the specification names it. *)
Definition connection (s : State) : bool * Z * Z * string * string :=
  (Connected s, ConnectedWid s, ConnectedPid s, ConnectedOwner s,
   ConnectedTitle s).

(** ** The monad of the request handler: oracles read, state threaded,
    events appended in program order *)

Definition M (A : Type) : Type := Env -> State -> A * State * list Event.

Definition ret {A} (a : A) : M A := fun _ s => (a, s, []).

Definition bind {A B} (m : M A) (k : A -> M B) : M B :=
  fun env s =>
    let '(a, s1, o1) := m env s in
    let '(b, s2, o2) := k a env s1 in
    (b, s2, o1 ++ o2).

Declare Scope prog_scope.
Delimit Scope prog_scope with prog.
Notation "x <- m ;; k" := (bind m (fun x => k))
  (at level 100, m at next level, right associativity) : prog_scope.
Notation "m ;; k" := (bind m (fun _ => k))
  (at level 100, right associativity) : prog_scope.
Local Open Scope prog_scope.

Definition emit (e : Event) : M unit := fun _ s => (tt, s, [e]).
Definition get {A} (f : State -> A) : M A := fun _ s => (f s, s, []).
Definition modify (f : State -> State) : M unit := fun _ s => (tt, f s, []).
Definition ask {A} (f : Env -> A) : M A := fun env s => (f env, s, []).

Definition final_state {A} (r : A * State * list Event) : State := snd (fst r).
Definition events {A} (r : A * State * list Event) : list Event := snd r.
Definition result {A} (r : A * State * list Event) : A := fst (fst r).
Definition replies {A} (r : A * State * list Event) : list Event :=
  List.filter is_reply (events r).

(** Modelled from the spec: [kvGet(db, key)] of botlib.c, which is not
    among the sources; the persistent store contract gives it as
    [Get(key) -> optional string]. *)
Definition kvGet (key : string) : M (option string) :=
  get (fun s => kv s !! key).

(** Modelled from the spec: [kvSet(db, key, value, 0)] of botlib.c; the
    contract gives it as [Set(key, value)], and the expire argument 0
    keeps the value for good. *)
Definition kvSet (key value : string) : M unit :=
  modify (fun s => set_kv (<[key := value]> (kv s)) s).

(** [time(NULL)]: the next reading of the clock. *)
Definition time : M Z :=
  fun env s => (time_at env (clock_reads s), tick_clock s, []).

(** ** TOTP authentication *)

(** The loop of [totp_code] that fills [msg[7]] down to [msg[0]] with the
    bytes of [time_step], low byte first. *)
Fixpoint totp_msg (n : nat) (time_step : Z) (msg : list Z) : list Z :=
  match n with
  | O => msg
  | S n' => totp_msg n' (Z.shiftr time_step 8) (Z.land time_step 0xff :: msg)
  end.

(** [totp_code(secret, secret_len, time_step)] *)
Definition totp_code (env : Env) (secret : list Z) (time_step : Z) : Z :=
  let msg := totp_msg 8 time_step [] in
  let hash := map to_uchar (hmac_sha1 env secret msg) in
  let offset := Z.land (byte_at hash 19) 0x0f in
  let code :=
    Z.lor (Z.shiftl (Z.land (byte_at hash offset) 0x7f) 24)
      (Z.lor (Z.shiftl (byte_at hash (offset + 1)) 16)
         (Z.lor (Z.shiftl (byte_at hash (offset + 2)) 8)
            (byte_at hash (offset + 3)))) in
  code mod 1000000.

(** [hex_to_bytes(hex, out, max)]: the bytes written to [out]; the
    function returns their number. *)
Fixpoint hex_to_bytes (env : Env) (hex : list Z) (max : nat) : list Z :=
  match max with
  | O => []
  | S max' =>
      match hex with
      | _ :: _ :: rest =>
          match sscanf_2x env hex with
          | Some byte => to_uchar byte :: hex_to_bytes env rest max'
          | None => []
          end
      | _ => []
      end
  end.

(** [totp_verify(db, code_str)] *)
Definition totp_verify (code_str : string) : M bool :=
  hex <- kvGet "totp_secret" ;;
  match hex with
  | None => ret false
  | Some hex =>
      env <- ask id ;;
      let secret := hex_to_bytes env (bytes hex) 20 in
      if negb (Z.of_nat (length secret) =? 20) then ret false
      else
        t <- time ;;
        let now := to_uint64 t / 30 in
        let input_code := to_uint32 (atoi code_str) in
        ret (existsb
               (fun i =>
                  totp_code env secret (to_uint64 (now + i)) =? input_code)
               [-1; 0; 1])
  end.

(** ** UTF-8 emoji parsing *)

(** Each matcher receives the pointer [p] as the bytes from [p] on and
    the count [remaining]; it returns the number of bytes matched. *)
Definition match_red_heart (p : list Z) (remaining : Z) : Z :=
  if (remaining >=? 3) && (byte_at p 0 =? 0xE2) && (byte_at p 1 =? 0x9D)
     && (byte_at p 2 =? 0xA4)
  then
    if (remaining >=? 6) && (byte_at p 3 =? 0xEF) && (byte_at p 4 =? 0xB8)
       && (byte_at p 5 =? 0x8F)
    then 6 else 3
  else 0.

(** The second component is what the matcher stores in [*heart]. *)
Definition match_colored_heart (p : list Z) (remaining : Z) (heart : ascii)
  : Z * ascii :=
  if (remaining >=? 4) && (byte_at p 0 =? 0xF0) && (byte_at p 1 =? 0x9F)
     && (byte_at p 2 =? 0x92)
  then
    if byte_at p 3 =? 0x99 then (4, "B"%char)
    else if byte_at p 3 =? 0x9A then (4, "G"%char)
    else if byte_at p 3 =? 0x9B then (4, "Y"%char)
    else (0, heart)
  else (0, heart).

Definition match_orange_heart (p : list Z) (remaining : Z) : Z :=
  if (remaining >=? 4) && (byte_at p 0 =? 0xF0) && (byte_at p 1 =? 0x9F)
     && (byte_at p 2 =? 0xA7) && (byte_at p 3 =? 0xA1)
  then 4 else 0.

Definition match_purple_heart (p : list Z) (remaining : Z) : Z :=
  if (remaining >=? 4) && (byte_at p 0 =? 0xF0) && (byte_at p 1 =? 0x9F)
     && (byte_at p 2 =? 0x92) && (byte_at p 3 =? 0x9C)
  then 4 else 0.

(** [ends_with_purple_heart(text)]; [p] is [text + len - 4]. *)
Definition ends_with_purple_heart (text : string) : bool :=
  let len := strlen text in
  if len >=? 4 then
    let p := drop (Z.to_nat (len - 4)) (bytes text) in
    negb (match_purple_heart p 4 =? 0)
  else false.

(** ** Keystroke sending *)

(** The locals of [send_keys] that live across iterations of its loop. *)
Record KeyVars := {
  mods : Z;
  keycount : Z;
  had_mods : bool;
  last_was_nl : bool
}.

Definition key_vars_init : KeyVars :=
  {| mods := 0; keycount := 0; had_mods := false; last_was_nl := false |}.

(** [mods |= m] *)
Definition or_mods (m : Z) (v : KeyVars) : KeyVars :=
  {| mods := Z.lor (mods v) m; keycount := keycount v;
     had_mods := had_mods v; last_was_nl := last_was_nl v |}.

(** [if (mods) had_mods = 1; keycount++; last_was_nl = nl; mods = 0;] *)
Definition after_key (nl : bool) (v : KeyVars) : KeyVars :=
  {| mods := 0; keycount := keycount v + 1;
     had_mods := if mods v =? 0 then had_mods v else true;
     last_was_nl := nl |}.

(** One iteration of the [while (len > 0)] loop.  The pair [(p, len)] of
    the source is the list of the [len] bytes at [p]; [p += n; len -= n]
    drops [n] of them.  The result is the keys sent, the bytes left and
    the locals. *)
Definition send_keys_step (ConnectedPid : Z) (p : list Z) (v : KeyVars)
  : list Event * list Z * KeyVars :=
  let len := Z.of_nat (length p) in
  let consumed := match_red_heart p len in
  if consumed >? 0 then
    ([], drop (Z.to_nat consumed) p, or_mods MOD_CTRL v)
  else
  let consumed := match_orange_heart p len in
  if consumed >? 0 then
    ([PlatSendKey ConnectedPid PLAT_KEY_RETURN 0 (mods v)],
     drop (Z.to_nat consumed) p, after_key true v)
  else
  let '(consumed, heart) := match_colored_heart p len "000"%char in
  if consumed >? 0 then
    if Ascii.eqb heart "Y" then
      ([PlatSendKey ConnectedPid PLAT_KEY_ESCAPE 0 0],
       drop (Z.to_nat consumed) p,
       {| mods := 0; keycount := keycount v + 1; had_mods := true;
          last_was_nl := false |})
    else if Ascii.eqb heart "B" then
      ([], drop (Z.to_nat consumed) p, or_mods MOD_ALT v)
    else if Ascii.eqb heart "G" then
      ([], drop (Z.to_nat consumed) p, or_mods MOD_CMD v)
    else ([], drop (Z.to_nat consumed) p, v)
  else
  (* last_was_nl = 0; every path below sends one key *)
  let literal :=
    ([PlatSendKey ConnectedPid PLAT_KEY_CHAR (byte_at p 0) (mods v)],
     drop 1 p, after_key false v) in
  if (byte_at p 0 =? 92) && (len >? 1) then
    if byte_at p 1 =? 110 then
      ([PlatSendKey ConnectedPid PLAT_KEY_RETURN 0 (mods v)],
       drop 2 p, after_key true v)
    else if byte_at p 1 =? 116 then
      ([PlatSendKey ConnectedPid PLAT_KEY_TAB 0 (mods v)],
       drop 2 p, after_key false v)
    else if byte_at p 1 =? 92 then
      ([PlatSendKey ConnectedPid PLAT_KEY_CHAR 92 (mods v)],
       drop 2 p, after_key false v)
    else literal
  else literal.

(** The loop itself; every iteration drops a byte at least, so [fuel]
    from the length of [p] on never runs out (see
    [send_keys_loop_fuel]). *)
Fixpoint send_keys_loop (fuel : nat) (ConnectedPid : Z) (p : list Z)
    (v : KeyVars) : list Event * KeyVars :=
  match fuel with
  | O => ([], v)
  | S fuel' =>
      if Z.of_nat (length p) >? 0 then
        let '(out, p', v') := send_keys_step ConnectedPid p v in
        let '(outs, v'') := send_keys_loop fuel' ConnectedPid p' v' in
        (out ++ outs, v'')
      else ([], v)
  end.

Fixpoint emit_all (l : list Event) : M unit :=
  match l with
  | [] => ret tt
  | e :: l' => emit e ;; emit_all l'
  end.

(** The bytes [send_keys] scans: all of [text], or all but the last four
    when they are the purple heart. *)
Definition scanned_bytes (text : string) : list Z :=
  let add_newline := negb (ends_with_purple_heart text) in
  let len := strlen text in
  let len := if negb add_newline && (len >=? 4) then len - 4 else len in
  take (Z.to_nat len) (bytes text).

(** [send_keys(text)].  The loop touches nothing but its locals and the
    keys it sends, so its keys are emitted, in their order, once it is
    done. *)
Definition send_keys (text : string) : M Z :=
  connected <- get Connected ;;
  if negb connected then ret (-1)
  else
    ConnectedPid <- get ConnectedPid ;;
    ConnectedWid <- get ConnectedWid ;;
    emit (PlatRaiseWindow ConnectedPid ConnectedWid) ;;
    let add_newline := negb (ends_with_purple_heart text) in
    let p := scanned_bytes text in
    let '(keys, v) :=
      send_keys_loop (length p) ConnectedPid p key_vars_init in
    emit_all keys ;;
    (if add_newline && negb ((keycount v =? 1) && had_mods v)
        && negb (last_was_nl v)
     then emit (Usleep 50000) ;;
          emit (PlatSendKey ConnectedPid PLAT_KEY_RETURN 0 0)
     else ret tt) ;;
    ret 0.

(** ** Window management *)

Definition plat_list_windows (danger_mode : bool) : M (list WinInfo) :=
  fun env s =>
    (plat_list_windows_at env (plat_calls s) danger_mode, tick_plat s, []).

Definition plat_window_exists (wid p : Z) : M (option Z) :=
  fun env s =>
    (plat_window_exists_at env (plat_calls s) wid p, tick_plat s, []).

Definition plat_capture_window (wid : Z) (path : string) : M Z :=
  fun env s =>
    (plat_capture_window_at env (plat_calls s) wid path, tick_plat s, []).

Definition free_window_list : M unit := modify (set_windows [] 0).

Definition refresh_window_list : M Z :=
  free_window_list ;;
  danger <- get DangerMode ;;
  l <- plat_list_windows danger ;;
  modify (set_windows l (Z.of_nat (length l))) ;;
  get WindowCount.

Definition connected_window_exists : M Z :=
  connected <- get Connected ;;
  if negb connected then ret 0
  else
    wid <- get ConnectedWid ;;
    p <- get ConnectedPid ;;
    found <- plat_window_exists wid p ;;
    match found with
    | Some wid' => modify (set_ConnectedWid wid') ;; ret 1
    | None => ret 0
    end.

Definition disconnect : M unit := modify (set_connection false 0 0 "" "").

Definition capture_connected_window (path : string) : M Z :=
  connected <- get Connected ;;
  if negb connected then ret (-1)
  else wid <- get ConnectedWid ;; plat_capture_window wid path.

(** ** Bot command handlers *)

(** [snprintf(buf, size, ...)] keeps [size - 1] bytes of the formatted text. *)
Definition snprintf (size : nat) (formatted : string) : string :=
  String.substring 0 (size - 1) formatted.

(** [strncpy(dst, src, n); dst[n] = 0] *)
Definition strncpy (n : nat) (src : string) : string :=
  String.substring 0 n src.

Definition list_line (i : nat) (w : WinInfo) : string :=
  if negb (char_at (title w) 0 =? 0) then
    snprintf 512 ("." +:+ dec (Z.of_nat i + 1) +:+ " [" +:+ dec (window_id w)
                  +:+ "] " +:+ owner w +:+ " - " +:+ title w +:+ LF)
  else
    snprintf 512 ("." +:+ dec (Z.of_nat i + 1) +:+ " [" +:+ dec (window_id w)
                  +:+ "] " +:+ owner w +:+ LF).

Definition build_list_message : M string :=
  refresh_window_list ;;
  count <- get WindowCount ;;
  if count =? 0 then ret "No terminal windows found."
  else
    wl <- get WindowList ;;
    ret (fold_left
           (fun msg i => msg +:+ list_line i (nth i wl no_window))
           (seq 0 (Z.to_nat count))
           ("Terminal windows:" +:+ LF)).

Definition build_help_message : string :=
  "Commands:" +:+ LF +:+
  ".list - Show terminal windows" +:+ LF +:+
  ".1 .2 ... - Connect to window" +:+ LF +:+
  ".help - This help" +:+ LF +:+ LF +:+
  "Once connected, text is sent as keystrokes." +:+ LF +:+
  "Newline is auto-added; end with `" +:+ cstring [0xf0; 0x9f; 0x92; 0x9c]
    +:+ "` to suppress it." +:+ LF +:+ LF +:+
  "Modifiers (tap to copy, then paste + key):" +:+ LF +:+
  "`" +:+ cstring [0xe2; 0x9d; 0xa4; 0xef; 0xb8; 0x8f] +:+ "` Ctrl  " +:+
  "`" +:+ cstring [0xf0; 0x9f; 0x92; 0x99] +:+ "` Alt  " +:+
  "`" +:+ cstring [0xf0; 0x9f; 0x92; 0x9a] +:+ "` Cmd/Super  " +:+
  "`" +:+ cstring [0xf0; 0x9f; 0x92; 0x9b] +:+ "` ESC  " +:+
  "`" +:+ cstring [0xf0; 0x9f; 0xa7; 0xa1] +:+ "` Enter" +:+ LF +:+ LF +:+
  "Escape sequences: \n=Enter \t=Tab" +:+ LF +:+ LF +:+
  "`.otptimeout <seconds>` - Set OTP timeout (30-28800)".

(** ** Telegram bot callbacks *)

Definition SCREENSHOT_PATH : string := "/tmp/tgterm_screenshot.png".
Definition OWNER_KEY : string := "owner_id".
Definition REFRESH_BTN : string :=
  cstring [0xf0; 0x9f; 0x94; 0x84] +:+ " Refresh".
Definition REFRESH_DATA : string := "refresh".

Definition send_screenshot (chat_id : Z) : M unit :=
  rc <- capture_connected_window SCREENSHOT_PATH ;;
  if negb (rc =? 0) then ret tt
  else emit (BotSendImageWithKeyboard chat_id SCREENSHOT_PATH REFRESH_BTN
               REFRESH_DATA).

Definition refresh_screenshot (chat_id msg : Z) : M unit :=
  rc <- capture_connected_window SCREENSHOT_PATH ;;
  if negb (rc =? 0) then ret tt
  else emit (BotEditMessageMedia chat_id msg SCREENSHOT_PATH REFRESH_BTN
               REFRESH_DATA).

(** [handle_request], first part: the owner is read from the store, or
    the sender is registered when there is none; the result is
    [owner_id]. *)
Definition handle_request_owner (br : BotRequest) : M Z :=
  owner_str <- kvGet OWNER_KEY ;;
  let owner_id :=
    match owner_str with
    | Some s => strtoll s
    | None => 0
    end in
  if owner_id =? 0 then
    kvSet OWNER_KEY (snprintf 32 (dec (from br))) ;;
    emit (Printf ("Registered owner: " +:+ dec (from br) +:+ " ("
                  +:+ from_username br +:+ ")" +:+ LF)) ;;
    ret (from br)
  else ret owner_id.

(** The test of a one-time password: six bytes, all digits. *)
Definition is_otp (req : string) : bool :=
  (strlen req =? 6)
  && forallb (fun i => isdigit (char_at req i)) [0; 1; 2; 3; 4; 5].

(** [handle_request], the block under [if (!WeakSecurity)]; [false]
    stands for [goto done]. *)
Definition handle_request_gate (br : BotRequest) : M bool :=
  weak <- get WeakSecurity ;;
  if negb weak then
    authenticated <- get Authenticated ;;
    closed <-
      (if negb authenticated then ret true
       else
         now <- time ;;
         last <- get LastActivity ;;
         timeout <- get OtpTimeout ;;
         ret (now - last >? timeout)) ;;
    if closed : bool then
      modify (set_Authenticated false) ;;
      if is_callback br then
        emit (BotAnswerCallbackQuery (callback_id br)) ;;
        ret false
      else
        let req := request br in
        verified <- (if is_otp req then totp_verify req else ret false) ;;
        if verified : bool then
          modify (set_Authenticated true) ;;
          now <- time ;;
          modify (set_LastActivity now) ;;
          emit (BotSendMessage (target br) "Authenticated." 0) ;;
          ret false
        else
          emit (BotSendMessage (target br) "Enter OTP code." 0) ;;
          ret false
    else
      now <- time ;;
      modify (set_LastActivity now) ;;
      ret true
  else ret true.

(** The loop that advances [arg] over the blanks after the command. *)
Fixpoint skip_blanks (arg : string) : string :=
  match arg with
  | String c rest => if uchar c =? 32 then skip_blanks rest else arg
  | EmptyString => arg
  end.

(** [.otptimeout]: the clamped number of seconds. *)
Definition otptimeout_secs (arg : string) : Z :=
  let secs := atoi arg in
  let secs := if secs <? 30 then 30 else secs in
  let secs := if secs >? 28800 then 28800 else secs in
  secs.

(** [handle_request], from the callback test to the label [done]. *)
Definition handle_request_dispatch (br : BotRequest) : M unit :=
  if is_callback br then
    emit (BotAnswerCallbackQuery (callback_id br)) ;;
    connected <- get Connected ;;
    if (strcmp (callback_data br) REFRESH_DATA =? 0) && connected
    then refresh_screenshot (target br) (msg_id br)
    else ret tt
  else
  let req := request br in
  if strcasecmp req ".list" =? 0 then
    disconnect ;;
    msg <- build_list_message ;;
    emit (BotSendMessage (target br) msg 0)
  else if strcasecmp req ".help" =? 0 then
    emit (BotSendMessage (target br) build_help_message 0)
  else if strncasecmp req ".otptimeout" 11 =? 0 then
    let arg := skip_blanks (str_from 11 req) in
    let secs := otptimeout_secs arg in
    modify (set_OtpTimeout secs) ;;
    kvSet "otp_timeout" (snprintf 64 (dec secs)) ;;
    emit (BotSendMessage (target br)
            ("OTP timeout set to " +:+ dec secs +:+ " seconds.") 0)
  else if (char_at req 0 =? 46) && isdigit (char_at req 1) then
    let n := atoi (str_from 1 req) in
    refresh_window_list ;;
    count <- get WindowCount ;;
    if (n <? 1) || (n >? count) then
      emit (BotSendMessage (target br) "Invalid window number." 0)
    else
      wl <- get WindowList ;;
      let w := nth (Z.to_nat (n - 1)) wl no_window in
      modify (set_connection true (window_id w) (pid w)
                (strncpy 127 (owner w)) (strncpy 255 (title w))) ;;
      connected_owner <- get ConnectedOwner ;;
      connected_title <- get ConnectedTitle ;;
      let msg := "Connected to " +:+ connected_owner in
      let msg :=
        if negb (char_at connected_title 0 =? 0)
        then msg +:+ " - " +:+ connected_title else msg in
      emit (BotSendMessage (target br) msg 0) ;;
      emit (PlatRaiseWindow (pid w) (window_id w)) ;;
      send_screenshot (target br)
  else
    connected <- get Connected ;;
    if negb connected then
      msg <- build_list_message ;;
      emit (BotSendMessage (target br) msg 0)
    else
      found <- connected_window_exists ;;
      if found =? 0 then
        disconnect ;;
        list <- build_list_message ;;
        emit (BotSendMessage (target br)
                ("Window closed." +:+ LF +:+ LF +:+ list) 0)
      else
        send_keys req ;;
        emit (Sleep 2) ;;
        connected_window_exists ;;
        send_screenshot (target br).

(** [handle_request(db, br)] *)
Definition handle_request (br : BotRequest) : M unit :=
  owner_id <- handle_request_owner br ;;
  if negb (from br =? owner_id) then
    emit (Printf ("Ignoring message from non-owner " +:+ dec (from br) +:+ LF))
  else
    proceed <- handle_request_gate br ;;
    if proceed : bool then handle_request_dispatch br else ret tt.

(** * Vocabulary of the statements *)

(** The owner identifier the store holds, 0 when it holds none. *)
Definition stored_owner (s : State) : Z :=
  match kv s !! OWNER_KEY with
  | Some o => strtoll o
  | None => 0
  end.

(** The request passes the owner filter: its sender is the pinned owner,
    or no owner is pinned yet and the sender becomes the owner. *)
Definition owner_request (s : State) (br : BotRequest) : Prop :=
  stored_owner s = 0 \/ stored_owner s = from br.

(** The state in which the owner filter leaves the request. *)
Definition after_owner (br : BotRequest) (env : Env) (s : State) : State :=
  final_state (handle_request_owner br env s).

(** The session has expired at the reading of the clock the gate makes. *)
Definition expired (env : Env) (s : State) : Prop :=
  time_at env (clock_reads s) - LastActivity s > OtpTimeout s.

(** The gate lets the request through to the command dispatch. *)
Definition gate_open (env : Env) (s : State) : Prop :=
  WeakSecurity s = true \/ (Authenticated s = true /\ ~ expired env s).

(** [m] leaves the state [R]-related to the one it started from. *)
Definition keeps (R : State -> State -> Prop) {A} (m : M A) : Prop :=
  forall env s, R s (final_state (m env s)).

(** Two states agree on what the access gate owns. *)
Definition same_gate (s s' : State) : Prop :=
  WeakSecurity s' = WeakSecurity s /\ Authenticated s' = Authenticated s /\
  LastActivity s' = LastActivity s /\ clock_reads s' = clock_reads s.

(** The state in which a closed gate examines the request: the clock
    was read if the session had to be timed, and [Authenticated] is 0. *)
Definition gate_closed_state (s : State) : State :=
  set_Authenticated false (if Authenticated s then tick_clock s else s).

(** The submitted code is exactly six ASCII digits. *)
Definition six_digits (c : string) : Prop :=
  String.length c = 6%nat /\ Forall (fun b => 48 <= b <= 57) (bytes c).

(** The number a string of digits denotes. *)
Definition code_value (c : string) : Z :=
  fold_left (fun acc b => acc * 10 + (b - 48)) (bytes c) 0.

(** The state in which an open gate hands the request to the dispatch:
    [LastActivity] is stamped unless the gate is switched off. *)
Definition gate_passed_state (env : Env) (s : State) : State :=
  if WeakSecurity s then s
  else set_LastActivity (time_at env (S (clock_reads s)))
         (tick_clock (tick_clock s)).

(** The windows the backend reports at the next refresh. *)
Definition listed_windows (env : Env) (s : State) : list WinInfo :=
  plat_list_windows_at env (plat_calls s) (DangerMode s).

Definition is_key (e : Event) : bool :=
  match e with
  | PlatSendKey _ _ _ _ => true
  | _ => false
  end.

(** ** Vocabulary of the keystroke encoder *)

(** The glyphs, as UTF-8. *)
Definition RED_HEART : list Z := [0xE2; 0x9D; 0xA4].
Definition RED_HEART_VS : list Z := [0xE2; 0x9D; 0xA4; 0xEF; 0xB8; 0x8F].
Definition ORANGE_HEART : list Z := [0xF0; 0x9F; 0xA7; 0xA1].
Definition BLUE_HEART : list Z := [0xF0; 0x9F; 0x92; 0x99].
Definition GREEN_HEART : list Z := [0xF0; 0x9F; 0x92; 0x9A].
Definition YELLOW_HEART : list Z := [0xF0; 0x9F; 0x92; 0x9B].
Definition PURPLE_HEART : list Z := [0xF0; 0x9F; 0x92; 0x9C].

(** [p] begins with the bytes of [glyph]. *)
Fixpoint starts_with (glyph p : list Z) : bool :=
  match glyph, p with
  | [], _ => true
  | _ :: _, [] => false
  | x :: glyph', y :: p' => (y =? x) && starts_with glyph' p'
  end.

(** The loop of [send_keys] run over the bytes [p]. *)
Definition scan_keys (ConnectedPid : Z) (p : list Z) (v : KeyVars)
  : list Event * KeyVars :=
  send_keys_loop (length p) ConnectedPid p v.

(** One iteration, by the token at the head of [p]. *)
Definition step_by_token (ConnectedPid : Z) (p : list Z) (v : KeyVars)
  : list Event * list Z * KeyVars :=
  if starts_with RED_HEART p then
    ([], drop (if starts_with RED_HEART_VS p then 6 else 3) p,
     or_mods MOD_CTRL v)
  else if starts_with ORANGE_HEART p then
    ([PlatSendKey ConnectedPid PLAT_KEY_RETURN 0 (mods v)], drop 4 p,
     after_key true v)
  else if starts_with BLUE_HEART p then ([], drop 4 p, or_mods MOD_ALT v)
  else if starts_with GREEN_HEART p then ([], drop 4 p, or_mods MOD_CMD v)
  else if starts_with YELLOW_HEART p then
    ([PlatSendKey ConnectedPid PLAT_KEY_ESCAPE 0 0], drop 4 p,
     {| mods := 0; keycount := keycount v + 1; had_mods := true;
        last_was_nl := false |})
  else if starts_with [92; 110] p then
    ([PlatSendKey ConnectedPid PLAT_KEY_RETURN 0 (mods v)], drop 2 p,
     after_key true v)
  else if starts_with [92; 116] p then
    ([PlatSendKey ConnectedPid PLAT_KEY_TAB 0 (mods v)], drop 2 p,
     after_key false v)
  else if starts_with [92; 92] p then
    ([PlatSendKey ConnectedPid PLAT_KEY_CHAR 92 (mods v)], drop 2 p,
     after_key false v)
  else
    ([PlatSendKey ConnectedPid PLAT_KEY_CHAR (byte_at p 0) (mods v)],
     drop 1 p, after_key false v).

(** The event is a key sent with a modifier held. *)
Definition carried_modifier (e : Event) : bool :=
  match e with
  | PlatSendKey _ _ _ m => negb (m =? 0)
  | _ => false
  end.

Definition is_escape_key (e : Event) : bool :=
  match e with
  | PlatSendKey _ special _ _ => special =? PLAT_KEY_ESCAPE
  | _ => false
  end.

Definition is_return_key (e : Event) : bool :=
  match e with
  | PlatSendKey _ special _ _ => special =? PLAT_KEY_RETURN
  | _ => false
  end.

(** The last key sent is a Return. *)
Definition last_is_return (keys : list Event) : bool :=
  match last keys with
  | Some e => is_return_key e
  | None => false
  end.

(** Exactly one key was sent and it carried a modifier: the wording of
    the specification. *)
Definition single_modified_key (keys : list Event) : bool :=
  match keys with
  | [e] => carried_modifier e
  | _ => false
  end.

(** Exactly one key was sent and it set [had_mods]: it carried a
    modifier or it is the Escape of the yellow heart. *)
Definition single_marked_key (keys : list Event) : bool :=
  match keys with
  | [e] => carried_modifier e || is_escape_key e
  | _ => false
  end.

(** The automatic Return that closes [send_keys], when [auto] holds. *)
Definition trailing_return (ConnectedPid : Z) (auto : bool) : list Event :=
  if auto then [Usleep 50000; PlatSendKey ConnectedPid PLAT_KEY_RETURN 0 0]
  else [].

(** The test that closes [send_keys], on the locals the loop left. *)
Definition auto_newline (text : string) (v : KeyVars) : bool :=
  negb (ends_with_purple_heart text)
  && negb ((keycount v =? 1) && had_mods v)
  && negb (last_was_nl v).

(** The key sets [had_mods]. *)
Definition marks_had_mods (e : Event) : bool :=
  carried_modifier e || is_escape_key e.

(** The counters of the loop describe the keys sent so far. *)
Definition vars_track (keys : list Event) (v : KeyVars) : Prop :=
  keycount v = Z.of_nat (length keys) /\
  had_mods v = existsb marks_had_mods keys /\
  last_was_nl v = last_is_return keys.

(** The locals after the Escape of the yellow heart. *)
Definition after_escape (v : KeyVars) : KeyVars :=
  {| mods := 0; keycount := keycount v + 1; had_mods := true;
     last_was_nl := false |}.

(** ** Sample data for the instances *)

Definition hex_digit (c : Z) : option Z :=
  if (48 <=? c) && (c <=? 57) then Some (c - 48)
  else if (97 <=? c) && (c <=? 102) then Some (c - 87)
  else None.

Definition sample_env : Env := {|
  hmac_sha1 := fun key msg =>
    map (fun i => (fold_left Z.add key 0 + fold_left Z.add msg 0 * Z.of_nat i)
                  mod 256) (seq 1 20);
  sscanf_2x := fun hex =>
    match hex with
    | a :: b :: _ =>
        match hex_digit a, hex_digit b with
        | Some x, Some y => Some (16 * x + y)
        | _, _ => None
        end
    | _ => None
    end;
  time_at := fun n => 1700000000 + Z.of_nat n;
  plat_list_windows_at := fun _ _ =>
    [ {| window_id := 11; pid := 5; owner := "xterm"; title := "bash" |};
      {| window_id := 12; pid := 6; owner := "kitty"; title := "" |} ];
  plat_window_exists_at := fun _ wid _ => Some wid;
  plat_capture_window_at := fun _ _ _ => 0
|}.

(** A freshly started bot whose store holds owner 1 and a secret. *)
Definition sample_state : State := {|
  DangerMode := false; WindowList := []; WindowCount := 0;
  WeakSecurity := false; Authenticated := false; LastActivity := 0;
  OtpTimeout := 300;
  Connected := false; ConnectedWid := 0; ConnectedPid := 0;
  ConnectedOwner := ""; ConnectedTitle := "";
  kv := <["owner_id" := "1"]>
          (<["totp_secret" := "000102030405060708090a0b0c0d0e0f10111213"]> ∅);
  clock_reads := 0; plat_calls := 0
|}.

(** The owner authenticated ten seconds before the next clock reading. *)
Definition sample_authenticated : State :=
  set_Authenticated true (set_LastActivity 1699999990 sample_state).


(** Authenticated and connected to window 11 of process 5. *)
Definition sample_connected : State :=
  set_connection true 11 5 "xterm" "bash" sample_authenticated.

Definition sample_weak : State := {|
  DangerMode := false; WindowList := []; WindowCount := 0;
  WeakSecurity := true; Authenticated := false; LastActivity := 0;
  OtpTimeout := 300;
  Connected := false; ConnectedWid := 0; ConnectedPid := 0;
  ConnectedOwner := ""; ConnectedTitle := "";
  kv := <["owner_id" := "1"]> ∅;
  clock_reads := 0; plat_calls := 0
|}.

Definition text_request (sender : Z) (text : string) : BotRequest := {|
  from := sender; from_username := "operator"; target := 77;
  request := text; is_callback := false; callback_id := "";
  callback_data := ""; msg_id := 0
|}.

(** * Vocabulary of the further properties *)

(** The event acts on a window of the desktop or sends a picture of it. *)
Definition reaches_window (e : Event) : bool :=
  match e with
  | PlatRaiseWindow _ _ | PlatSendKey _ _ _ _
  | BotSendImageWithKeyboard _ _ _ _ | BotEditMessageMedia _ _ _ _ _ => true
  | _ => false
  end.

(** The event is a line on the console. *)
Definition is_console (e : Event) : bool :=
  match e with
  | Printf _ => true
  | _ => false
  end.

(** Two states hold the same owner entry in the store. *)
Definition same_owner_entry (s s' : State) : Prop :=
  kv s' !! OWNER_KEY = kv s !! OWNER_KEY.

(** The session timeout is one the [.otptimeout] command could have set. *)
Definition timeout_in_range (s : State) : Prop :=
  30 <= OtpTimeout s <= 28800.

(** From [s] to [s'] the timeout is left alone or set within the range. *)
Definition timeout_step (s s' : State) : Prop :=
  OtpTimeout s' = OtpTimeout s \/ timeout_in_range s'.

(** The text is one of the dot commands of [handle_request]. *)
Definition is_command (req : string) : bool :=
  (strcasecmp req ".list" =? 0) || (strcasecmp req ".help" =? 0)
  || (strncasecmp req ".otptimeout" 11 =? 0)
  || ((char_at req 0 =? 46) && isdigit (char_at req 1)).

(** The text [build_list_message] makes of a window list. *)
Definition list_message (windows : list WinInfo) : string :=
  match windows with
  | [] => "No terminal windows found."
  | _ =>
      "Terminal windows:" +:+ LF +:+ String.concat "" (imap list_line windows)
  end.

(** The state after [refresh_window_list]. *)
Definition refreshed (env : Env) (s : State) : State :=
  let l := listed_windows env s in
  set_windows l (Z.of_nat (length l)) (tick_plat (set_windows [] 0 s)).

(** The screenshot that closes a typed text: the window is looked up
    once more, then captured. *)
Definition after_typing (env : Env) (s : State) : State * bool :=
  let s1 :=
    match plat_window_exists_at env (plat_calls s) (ConnectedWid s)
            (ConnectedPid s) with
    | Some wid' => set_ConnectedWid wid' (tick_plat s)
    | None => tick_plat s
    end in
  (tick_plat s1,
   plat_capture_window_at env (plat_calls s1) (ConnectedWid s1)
     SCREENSHOT_PATH =? 0).

(** The gate is open, as a test. *)
Definition gate_openb (env : Env) (s : State) : bool :=
  WeakSecurity s
  || (Authenticated s
      && negb (time_at env (clock_reads s) - LastActivity s >? OtpTimeout s)).

(** A byte of a C string. *)
Definition is_byte (b : Z) : Prop := 0 <= b <= 255.

(** A key [send_keys] may send to the process [ConnectedPid]: a kind of
    platform.h, a byte, a mask of the three modifiers.  Any other event
    passes. *)
Definition well_formed_key (ConnectedPid : Z) (e : Event) : Prop :=
  match e with
  | PlatSendKey p special ch m =>
      p = ConnectedPid /\ 0 <= special <= 3 /\ 0 <= ch <= 255 /\ 0 <= m <= 7
  | _ => True
  end.

(** A store without owner and without secret, the gate switched off. *)
Definition sample_unowned : State := set_kv ∅ sample_weak.

Definition callback_request (sender : Z) (data : string) : BotRequest := {|
  from := sender; from_username := "operator"; target := 77;
  request := ""; is_callback := true; callback_id := "cb1";
  callback_data := data; msg_id := 9
|}.

(** The backend no longer finds any window. *)
Definition sample_env_gone : Env := {|
  hmac_sha1 := hmac_sha1 sample_env;
  sscanf_2x := sscanf_2x sample_env;
  time_at := time_at sample_env;
  plat_list_windows_at := fun _ _ => [];
  plat_window_exists_at := fun _ _ _ => None;
  plat_capture_window_at := fun _ _ _ => -1
|}.

(** ** Vocabulary of the keystroke encoder, continued *)

(** A byte that begins no glyph and no escape. *)
Definition plain_byte (b : Z) : Prop := b <> 0xE2 /\ b <> 0xF0 /\ b <> 92.

(** The key that types the byte [b] with the modifiers [m]. *)
Definition typed (ConnectedPid m b : Z) : Event :=
  PlatSendKey ConnectedPid PLAT_KEY_CHAR b m.






(** The locals after [n] plain bytes were typed. *)
Definition after_plain (n : nat) (v : KeyVars) : KeyVars :=
  match n with
  | O => v
  | S _ =>
      {| mods := 0; keycount := keycount v + Z.of_nat n;
         had_mods := if mods v =? 0 then had_mods v else true;
         last_was_nl := false |}
  end.

(** The keys that type plain bytes, the first with the modifiers [m]. *)
Definition typed_all (ConnectedPid m : Z) (p : list Z) : list Event :=
  match p with
  | [] => []
  | b :: q => typed ConnectedPid m b :: map (typed ConnectedPid 0) q
  end.

(** * The provisioning side of the one-time password *)

(** ** Base32 *)

(** [alphabet] of [base32_encode] *)
Definition base32_alphabet : string := "ABCDEFGHIJKLMNOPQRSTUVWXYZ234567".

(** The inner [while (bits >= 5)] loop of [base32_encode]: the characters
    appended to [out] and the value of [bits] it leaves.  Every iteration
    takes five bits, so fuel from [bits] on never runs out. *)
Fixpoint base32_drain (fuel : nat) (buf bits : Z) : list Z * Z :=
  match fuel with
  | O => ([], bits)
  | S fuel' =>
      if bits >=? 5 then
        let bits := bits - 5 in
        let c := char_at base32_alphabet (Z.land (Z.shiftr buf bits) 0x1f) in
        let '(out, bits') := base32_drain fuel' buf bits in
        (c :: out, bits')
      else ([], bits)
  end.

(** The [for] loop over [data]; [buf] is a [uint64_t], so the shift
    drops what leaves its 64 bits. *)
Fixpoint base32_loop (data : list Z) (buf bits : Z) : list Z * Z * Z :=
  match data with
  | [] => ([], buf, bits)
  | d :: data' =>
      let buf := to_uint64 (Z.lor (Z.shiftl buf 8) d) in
      let bits := bits + 8 in
      let '(out, bits) := base32_drain (Z.to_nat bits) buf bits in
      let '(outs, buf', bits') := base32_loop data' buf bits in
      (out ++ outs, buf', bits')
  end.

(** The characters [base32_encode] writes, before the terminator. *)
Definition base32_chars (data : list Z) : list Z :=
  let '(out, buf, bits) := base32_loop data 0 0 in
  if bits >? 0
  then out ++ [char_at base32_alphabet
                 (Z.land (to_uint64 (Z.shiftl buf (5 - bits))) 0x1f)]
  else out.

(** [base32_encode(data, len)]: the text left in the static buffer
    [out[128]]; [None] when the characters and their terminator do not
    fit, and the function writes past the end of the buffer. *)
Definition base32_encode (data : list Z) : option string :=
  let out := base32_chars data in
  if (length out <? 128)%nat then Some (cstring out) else None.

(** *** Base 32 as RFC 4648 has it

    The reference the encoder is compared with: the bits of the bytes,
    most significant first, are cut into groups of five, the last group
    filled with zero bits, and every group selects a character.  No
    padding character is added. *)

Definition byte_bits (b : Z) : list bool :=
  [Z.testbit b 7; Z.testbit b 6; Z.testbit b 5; Z.testbit b 4;
   Z.testbit b 3; Z.testbit b 2; Z.testbit b 1; Z.testbit b 0].

(** The number a list of bits writes, most significant first. *)
Definition bits_value (l : list bool) : Z :=
  fold_left (fun acc (b : bool) => 2 * acc + Z.b2z b) l 0.

(** The full groups of five bits, and the bits left over. *)
Fixpoint split5 (l : list bool) : list Z * list bool :=
  match l with
  | b0 :: b1 :: b2 :: b3 :: b4 :: rest =>
      let '(g, r) := split5 rest in
      (bits_value [b0; b1; b2; b3; b4] :: g, r)
  | _ => ([], l)
  end.

Definition groups5 (l : list bool) : list Z :=
  let '(g, r) := split5 l in
  match r with
  | [] => g
  | _ => g ++ [bits_value (r ++ repeat false (5 - length r))]
  end.

Definition base32_rfc4648 (data : list Z) : list Z :=
  map (char_at base32_alphabet) (groups5 (flat_map byte_bits data)).

(** The [n] low bits of [buf], most significant first. *)
Fixpoint low_bits (buf : Z) (n : nat) : list bool :=
  match n with
  | O => []
  | S n' => Z.testbit buf (Z.of_nat n') :: low_bits buf n'
  end.

(** ** Hexadecimal *)

(** The digit [%x] prints for a value below 16. *)
Definition hex_char (d : Z) : Z := if d <? 10 then 48 + d else 87 + d.

(** [sprintf(hex + i*2, "%02x", data[i])] for an [unsigned char]: the two
    characters written before the terminator. *)
Definition sprintf_02x (b : Z) : list Z := [hex_char (b / 16); hex_char (b mod 16)].

(** The loop of [bytes_to_hex], from index [i] on: it stops at [len] or
    at 63, whichever comes first. *)
Fixpoint bytes_to_hex_loop (data : list Z) (i : Z) : list Z :=
  match data with
  | [] => []
  | b :: data' =>
      if i <? 63 then sprintf_02x b ++ bytes_to_hex_loop data' (i + 1)
      else []
  end.

(** [bytes_to_hex(data, len)]: the text left in the static buffer
    [hex[128]]; [None] for [len] over 63, when the terminator at
    [hex[len*2]] is written past the end of the buffer. *)
Definition bytes_to_hex (data : list Z) : option string :=
  if (length data <=? 63)%nat then Some (cstring (bytes_to_hex_loop data 0))
  else None.

(** ** The QR code on the console *)

(** Modelled from the spec: the symbol [qrcodegen_encodeText] leaves in
    its buffer, as [qrcodegen_getSize] and [qrcodegen_getModule] read
    it; qrcodegen is not among the sources. *)
Record QrCode := {
  qr_size : Z;
  qr_module : Z -> Z -> bool
}.

(** The three half-block glyphs, as UTF-8. *)
Definition FULL_BLOCK : string := cstring [0xe2; 0x96; 0x88].
Definition UPPER_HALF : string := cstring [0xe2; 0x96; 0x80].
Definition LOWER_HALF : string := cstring [0xe2; 0x96; 0x84].

(** The body of the inner loop of [print_qr_ascii]: the glyph for the
    modules [(x, y)] and [(x, y+1)]. *)
Definition qr_cell (q : QrCode) (x y : Z) : string :=
  let size := qr_size q in
  let top :=
    (x >=? 0) && (x <? size) && (y >=? 0) && (y <? size) && qr_module q x y in
  let bot :=
    (x >=? 0) && (x <? size) && (y + 1 >=? 0) && (y + 1 <? size)
    && qr_module q x (y + 1) in
  if top && bot then FULL_BLOCK
  else if top && negb bot then UPPER_HALF
  else if negb top && bot then LOWER_HALF
  else " ".

(** [for (int x = lo; x < hi; x++)], from [x] on. *)
Fixpoint qr_row (fuel : nat) (q : QrCode) (x y hi : Z) : list string :=
  match fuel with
  | O => []
  | S fuel' =>
      if x <? hi then qr_cell q x y :: qr_row fuel' q (x + 1) y hi else []
  end.

(** [for (int y = lo; y < hi; y += 2)], from [y] on; every row ends with
    a line feed. *)
Fixpoint qr_rows (fuel : nat) (q : QrCode) (lo y hi : Z) : list string :=
  match fuel with
  | O => []
  | S fuel' =>
      if y <? hi then
        qr_row (Z.to_nat (hi - lo)) q lo y hi ++ LF
        :: qr_rows fuel' q lo (y + 2) hi
      else []
  end.

(** [print_qr_ascii(text)]: the texts of its calls of [printf]. *)
Definition print_qr_ascii (encodeText : string -> option QrCode)
    (text : string) : list string :=
  match encodeText text with
  | None => ["Failed to generate QR code." +:+ LF]
  | Some q =>
      let size := qr_size q in
      let lo := -1 in
      let hi := size + 1 in
      qr_rows (Z.to_nat (hi - lo)) q lo lo hi
  end.

(** The glyph has its upper half, its lower half, set. *)
Definition shows_top (glyph : string) : bool :=
  String.eqb glyph FULL_BLOCK || String.eqb glyph UPPER_HALF.

Definition shows_bottom (glyph : string) : bool :=
  String.eqb glyph FULL_BLOCK || String.eqb glyph LOWER_HALF.

(** The picture of a symbol: a row for every two lines of modules, the
    first for the line above the symbol and its first line, each with a
    cell for every column from the one left of the symbol to the one
    right of it, and a line feed. *)
Definition qr_picture (q : QrCode) : list string :=
  flat_map
    (fun r =>
       map (fun c => qr_cell q (Z.of_nat c - 1) (2 * Z.of_nat r - 1))
         (seq 0 (Z.to_nat (qr_size q + 2)))
       ++ [LF])
    (seq 0 (Z.to_nat ((qr_size q + 3) / 2))).

(** A symbol of the smallest version with a diagonal pattern. *)
Definition sample_qr : QrCode :=
  {| qr_size := 21; qr_module := fun x y => (x + y) mod 3 =? 0 |}.

(** ** Setting up the secret *)

(** What [totp_setup] finds outside the program. *)
Record SetupEnv := {
  (** [sqlite3_open(db_path, &db) == SQLITE_OK] *)
  sqlite3_open : bool;
  (** the 20 bytes [fread] delivers from [/dev/urandom]; [None] when
      [fopen] fails or [fread] delivers fewer *)
  urandom : option (list Z);
  (** Modelled from the spec: [qrcodegen_encodeText] with the options
      [print_qr_ascii] passes; [None] when it returns false. *)
  qrcodegen_encodeText : string -> option QrCode
}.

(** A line on one of the two streams. *)
Inductive Output :=
| Stdout (line : string)
| Stderr (line : string).

(** The bytes [needle] occur somewhere in [hay], one after the other. *)
Fixpoint occurs_in (needle hay : list Z) : bool :=
  starts_with needle hay
  || match hay with
     | [] => false
     | _ :: rest => occurs_in needle rest
     end.

(** The text is to be read in what was printed. *)
Definition mentions (text : string) (o : Output) : bool :=
  match o with
  | Stdout line | Stderr line => occurs_in (bytes text) (bytes line)
  end.

(** How a call of [totp_setup] ends: it returns, or the process exits;
    [Undefined] stands for a write past the end of a buffer. *)
Inductive SetupOutcome :=
| Returned (value : Z) (s : State) (out : list Output)
| Exited (status : Z) (out : list Output)
| Undefined.

(** The [otp_timeout] of the store is taken when it is in range. *)
Definition load_timeout (s : State) : State :=
  match kv s !! "otp_timeout" with
  | Some timeout_str =>
      let t := atoi timeout_str in
      if (t >=? 30) && (t <=? 28800) then set_OtpTimeout t s else s
  | None => s
  end.

(** [totp_setup(db_path)]; the database at [db_path] is the store. *)
Definition totp_setup (senv : SetupEnv) (s : State) : SetupOutcome :=
  if WeakSecurity s then Returned 0 s []
  else if negb (sqlite3_open senv) then
    Returned 0 s [Stderr ("Cannot open database for TOTP setup." +:+ LF)]
  else
    match kv s !! "totp_secret" with
    | Some existing => Returned 1 (load_timeout s) []
    | None =>
        match urandom senv with
        | None =>
            Exited 1
              [Stderr ("Failed to read /dev/urandom, aborting: "
                       +:+ "can't proceed without TOTP secret generation."
                       +:+ LF)]
        | Some secret =>
            match bytes_to_hex secret, base32_encode secret with
            | Some hex, Some b32 =>
                let s' := set_kv (<["totp_secret" := hex]> (kv s)) s in
                let uri :=
                  snprintf 256 ("otpauth://totp/tgterm?secret=" +:+ b32
                                +:+ "&issuer=tgterm") in
                Returned 1 s'
                  ([Stdout (LF +:+ "=== TOTP Setup ===" +:+ LF);
                    Stdout ("Scan this QR code with Google Authenticator:"
                            +:+ LF +:+ LF)]
                   ++ map Stdout (print_qr_ascii (qrcodegen_encodeText senv) uri)
                   ++ [Stdout (LF +:+ "Or enter this secret manually: "
                               +:+ b32 +:+ LF);
                       Stdout ("==================" +:+ LF +:+ LF)])
            | _, _ => Undefined
            end
        end
    end.

(** [sscanf] reads two hexadecimal digits as the number they write. *)
Definition sscanf_reads_hex (env : Env) : Prop :=
  forall x y rest, 0 <= x < 16 -> 0 <= y < 16 ->
    sscanf_2x env (hex_char x :: hex_char y :: rest) = Some (16 * x + y).

(** Twenty bytes as [/dev/urandom] may deliver them. *)
Definition sample_secret : list Z :=
  [0x3a; 0x00; 0xff; 0x10; 0x7f; 0x80; 0x01; 0xfe; 0x55; 0xaa;
   0x12; 0x34; 0x56; 0x78; 0x9a; 0xbc; 0xde; 0xf0; 0x0f; 0xe1].

Definition sample_setup_env : SetupEnv := {|
  sqlite3_open := true;
  urandom := Some sample_secret;
  qrcodegen_encodeText := fun _ => None
|}.

(** A first start: the gate in force, nothing in the store. *)
Definition sample_first_start : State := set_kv ∅ sample_state.

(** * The command line *)

Definition set_DangerMode (b : bool) (s : State) : State :=
  {| DangerMode := b; WindowList := WindowList s;
     WindowCount := WindowCount s; WeakSecurity := WeakSecurity s;
     Authenticated := Authenticated s; LastActivity := LastActivity s;
     OtpTimeout := OtpTimeout s; Connected := Connected s;
     ConnectedWid := ConnectedWid s; ConnectedPid := ConnectedPid s;
     ConnectedOwner := ConnectedOwner s; ConnectedTitle := ConnectedTitle s;
     kv := kv s; clock_reads := clock_reads s; plat_calls := plat_calls s |}.

Definition set_WeakSecurity (b : bool) (s : State) : State :=
  {| DangerMode := DangerMode s; WindowList := WindowList s;
     WindowCount := WindowCount s; WeakSecurity := b;
     Authenticated := Authenticated s; LastActivity := LastActivity s;
     OtpTimeout := OtpTimeout s; Connected := Connected s;
     ConnectedWid := ConnectedWid s; ConnectedPid := ConnectedPid s;
     ConnectedOwner := ConnectedOwner s; ConnectedTitle := ConnectedTitle s;
     kv := kv s; clock_reads := clock_reads s; plat_calls := plat_calls s |}.

Definition DANGER_FLAG : string := "--dangerously-attach-to-any-window".
Definition WEAK_FLAG : string := "--use-weak-security".
Definition DBFILE_FLAG : string := "--dbfile".

(** The loop of [main] over [argv[i]], from [i] on: [args] is [argv]
    from [i] to its end, so that [i+1 < argc] says that [args] has a
    second element.  The result is the globals, [dbfile] and the lines
    printed. *)
Fixpoint main_args (args : list string) (s : State) (dbfile : string)
  : State * string * list string :=
  match args with
  | [] => (s, dbfile, [])
  | a :: rest =>
      let '(s1, dbfile1, out1) :=
        if strcmp a DANGER_FLAG =? 0 then
          (set_DangerMode true s, dbfile,
           ["DANGER MODE: All windows will be visible." +:+ LF])
        else if strcmp a WEAK_FLAG =? 0 then
          (set_WeakSecurity true s, dbfile,
           ["WARNING: OTP authentication disabled." +:+ LF])
        else
          match rest with
          | value :: _ =>
              if strcmp a DBFILE_FLAG =? 0 then (s, value, [])
              else (s, dbfile, [])
          | [] => (s, dbfile, [])
          end in
      let '(s2, dbfile2, out2) := main_args rest s1 dbfile1 in
      (s2, dbfile2, out1 ++ out2)
  end.

(** [main], up to the call of [plat_init]: the loop starts at
    [argv[1]]. *)
Definition main_options (argv : list string) (s : State)
  : State * string * list string :=
  main_args (tl argv) s "./mybot.sqlite".

(** The argument is the given flag. *)
Definition is_flag (flag a : string) : bool := strcmp a flag =? 0.

(** * The window backends *)

(** [strcasestr(haystack, needle) != NULL]: [needle] occurs in
    [haystack], the case of letters ignored. *)
Fixpoint prefix_nocase (needle hay : list Z) : bool :=
  match needle, hay with
  | [], _ => true
  | _ :: _, [] => false
  | x :: needle', y :: hay' =>
      (tolower y =? tolower x) && prefix_nocase needle' hay'
  end.

Fixpoint strcasestr_bytes (hay needle : list Z) : bool :=
  prefix_nocase needle hay
  || match hay with
     | [] => false
     | _ :: hay' => strcasestr_bytes hay' needle
     end.

Definition strcasestr (haystack needle : string) : bool :=
  strcasestr_bytes (bytes haystack) (bytes needle).

(** [(char) ch] where [char] is signed *)
Definition to_char (z : Z) : Z := (z + 128) mod 256 - 128.

(** The loop of [plat_is_terminal] over a table of names. *)
Definition is_terminal_in (apps : list string) (name : string) : bool :=
  existsb (strcasestr name) apps.

(** [pre ++ mid ++ post] is [name], and [mid] is [app] up to case. *)
Definition occurs_nocase (app name : string) : Prop :=
  exists pre mid post,
    bytes name = pre ++ mid ++ post /\
    map tolower mid = map tolower (bytes app).

(** ** platform_linux.c *)

Module Linux.

Definition TerminalApps : list string :=
  ["gnome-terminal"; "xterm"; "kitty"; "Alacritty"; "alacritty";
   "ghostty"; "Ghostty"; "terminator"; "tilix"; "konsole";
   "xfce4-terminal"; "mate-terminal"; "lxterminal"; "st"; "stterm";
   "urxvt"; "URxvt"; "foot"; "wezterm"; "Wezterm";
   "hyper"; "tabby"; "sakura"; "terminology"; "guake"; "tilda"].

Definition plat_is_terminal (name : string) : bool :=
  is_terminal_in TerminalApps name.

(** What the X server and the C library answer. *)
Record Display := {
  (** [get_client_list(&count)]: [None] for [NULL] *)
  get_client_list : option (list Z);
  (** [get_window_pid(win)] *)
  get_window_pid : Z -> Z;
  (** [get_wm_class(win)]: [None] for [NULL] *)
  get_wm_class : Z -> option string;
  (** [XGetWindowAttributes(dpy, win, &attr)]: [attr.width] and
      [attr.height] when it succeeds *)
  XGetWindowAttributes : Z -> option (Z * Z);
  (** [get_window_title(win)]: [None] for [NULL] *)
  get_window_title : Z -> option string;
  (** [malloc] returns a block *)
  malloc_ok : bool;
  (** [XTranslateCoordinates] of the origin of [win] to the root *)
  XTranslateCoordinates : Z -> Z * Z;
  DisplayWidth : Z;
  DisplayHeight : Z;
  (** [XGetImage(dpy, root, x, y, w, h, ...)] returns an image *)
  XGetImage : Z -> Z -> Z -> Z -> bool;
  (** [save_ximage_png] of that image *)
  save_ximage_png : Z -> Z -> Z -> Z -> string -> Z;
  (** [XKeysymToKeycode(dpy, sym)], 0 when no key has the symbol *)
  XKeysymToKeycode : Z -> Z;
  (** [XkbKeycodeToKeysym(dpy, keycode, 0, 0)] *)
  XkbKeycodeToKeysym : Z -> Z
}.

(** The body of the loop of [plat_list_windows] for the client [c]: the
    entry it appends to [list], if any. *)
Definition list_entry (dpy : Display) (danger_mode : bool) (c : Z)
  : option WinInfo :=
  match get_wm_class dpy c with
  | None => None
  | Some wm_class =>
      if negb danger_mode && negb (plat_is_terminal wm_class) then None
      else
        match XGetWindowAttributes dpy c with
        | None => None
        | Some (width, height) =>
            if (width <=? 50) || (height <=? 50) then None
            else
              Some {| window_id := c;
                      pid := get_window_pid dpy c;
                      owner := strncpy 127 wm_class;
                      title := match get_window_title dpy c with
                               | Some t => strncpy 255 t
                               | None => ""
                               end |}
        end
  end.

(** The loop of [plat_list_windows]: [list[n++]] appends. *)
Fixpoint list_loop (dpy : Display) (danger_mode : bool) (clients : list Z)
  : list WinInfo :=
  match clients with
  | [] => []
  | c :: rest =>
      match list_entry dpy danger_mode c with
      | Some w => w :: list_loop dpy danger_mode rest
      | None => list_loop dpy danger_mode rest
      end
  end.

(** [plat_list_windows(&out_list, danger_mode)]: the entries of
    [*out_list]; the function returns their number. *)
Definition plat_list_windows (dpy : Display) (danger_mode : bool)
  : list WinInfo :=
  match get_client_list dpy with
  | None => []
  | Some clients =>
      if (Z.of_nat (length clients) =? 0) then []
      else if negb (malloc_ok dpy) then []
      else list_loop dpy danger_mode clients
  end.

(** The loop of [plat_window_exists]: [found] and [fallback] when it
    ends. *)
Fixpoint exists_loop (dpy : Display) (clients : list Z) (wid pid : Z)
    (fallback : Z) : bool * Z :=
  match clients with
  | [] => (false, fallback)
  | c :: rest =>
      if c =? wid then (true, fallback)
      else
        let fallback :=
          if (fallback =? 0) && (get_window_pid dpy c =? pid) then c
          else fallback in
        exists_loop dpy rest wid pid fallback
  end.

(** [plat_window_exists(&wid, pid)]: the value returned and the window
    identifier left in [*wid]. *)
Definition plat_window_exists (dpy : Display) (wid pid : Z) : Z * Z :=
  match get_client_list dpy with
  | None => (0, wid)
  | Some clients =>
      let '(found, fallback) := exists_loop dpy clients wid pid 0 in
      if negb found && negb (fallback =? 0) then (1, fallback)
      else (if found then 1 else 0, wid)
  end.

(** The rectangle [plat_capture_window] asks [XGetImage] for: the window
    clipped to the screen, [None] when nothing is left.  The
    coordinates of the X protocol are 16-bit, so the [int] arithmetic
    of the source does not overflow and is that of [Z]. *)
Definition clip (rx ry width height sw sh : Z) : option (Z * Z * Z * Z) :=
  let x := if rx <? 0 then 0 else rx in
  let y := if ry <? 0 then 0 else ry in
  let w := width - (x - rx) in
  let h := height - (y - ry) in
  let w := if x + w >? sw then sw - x else w in
  let h := if y + h >? sh then sh - y else h in
  if (w <=? 0) || (h <=? 0) then None else Some (x, y, w, h).

(** [plat_capture_window(wid, path)] *)
Definition plat_capture_window (dpy : Display) (wid : Z) (path : string) : Z :=
  match XGetWindowAttributes dpy wid with
  | None => -1
  | Some (width, height) =>
      let '(rx, ry) := XTranslateCoordinates dpy wid in
      match clip rx ry width height (DisplayWidth dpy) (DisplayHeight dpy) with
      | None => -1
      | Some (x, y, w, h) =>
          if negb (XGetImage dpy x y w h) then -1
          else save_ximage_png dpy x y w h path
      end
  end.

(** The key symbols of X11/keysymdef.h the file names. *)
Definition XK_Return : Z := 0xff0d.
Definition XK_Tab : Z := 0xff09.
Definition XK_Escape : Z := 0xff1b.
Definition XK_Up : Z := 0xff52.
Definition XK_Down : Z := 0xff54.
Definition XK_Left : Z := 0xff51.
Definition XK_Right : Z := 0xff53.
Definition XK_Page_Up : Z := 0xff55.
Definition XK_Page_Down : Z := 0xff56.
Definition XK_Shift_L : Z := 0xffe1.
Definition XK_Control_L : Z := 0xffe3.
Definition XK_Alt_L : Z := 0xffe9.
Definition XK_Super_L : Z := 0xffeb.

(** What [plat_send_key] does to the X server. *)
Inductive XCall :=
| XTestFakeKeyEvent (keycode : Z) (is_press : bool)
| XFlush
| usleep (usec : Z).

Section SendKey.

(** The key kinds the file names beyond those of platform.h, which does
    not define them. *)
Variables PLAT_KEY_UP PLAT_KEY_DOWN PLAT_KEY_LEFT PLAT_KEY_RIGHT
  PLAT_KEY_PAGEUP PLAT_KEY_PAGEDN : Z.

(** The first part of [plat_send_key]: [keycode] and [need_shift]. *)
Definition key_of (dpy : Display) (special ch : Z) : Z * bool :=
  if special =? PLAT_KEY_RETURN then (XKeysymToKeycode dpy XK_Return, false)
  else if special =? PLAT_KEY_TAB then (XKeysymToKeycode dpy XK_Tab, false)
  else if special =? PLAT_KEY_ESCAPE then
    (XKeysymToKeycode dpy XK_Escape, false)
  else if special =? PLAT_KEY_UP then (XKeysymToKeycode dpy XK_Up, false)
  else if special =? PLAT_KEY_DOWN then (XKeysymToKeycode dpy XK_Down, false)
  else if special =? PLAT_KEY_LEFT then (XKeysymToKeycode dpy XK_Left, false)
  else if special =? PLAT_KEY_RIGHT then
    (XKeysymToKeycode dpy XK_Right, false)
  else if special =? PLAT_KEY_PAGEUP then
    (XKeysymToKeycode dpy XK_Page_Up, false)
  else if special =? PLAT_KEY_PAGEDN then
    (XKeysymToKeycode dpy XK_Page_Down, false)
  else
    (* (KeySym) ch, for a character that is not negative *)
    let sym := ch in
    let keycode := XKeysymToKeycode dpy sym in
    if keycode =? 0 then (0, false)
    else (keycode, negb (XkbKeycodeToKeysym dpy keycode =? sym)).

(** The keys held around the key itself, in the order they are pressed. *)
Definition held_keys (dpy : Display) (mods : Z) (need_shift : bool)
  : list Z :=
  (if negb (Z.land mods MOD_CTRL =? 0)
   then [XKeysymToKeycode dpy XK_Control_L] else [])
  ++ (if negb (Z.land mods MOD_ALT =? 0)
      then [XKeysymToKeycode dpy XK_Alt_L] else [])
  ++ (if negb (Z.land mods MOD_CMD =? 0)
      then [XKeysymToKeycode dpy XK_Super_L] else [])
  ++ (if need_shift then [XKeysymToKeycode dpy XK_Shift_L] else []).

(** [plat_send_key(pid, special, ch, mods)] *)
Definition plat_send_key (dpy : Display) (pid special ch mods : Z)
  : list XCall :=
  let '(keycode, need_shift) := key_of dpy special ch in
  if keycode =? 0 then []
  else
    (if negb (Z.land mods MOD_CTRL =? 0)
     then [XTestFakeKeyEvent (XKeysymToKeycode dpy XK_Control_L) true]
     else [])
    ++ (if negb (Z.land mods MOD_ALT =? 0)
        then [XTestFakeKeyEvent (XKeysymToKeycode dpy XK_Alt_L) true]
        else [])
    ++ (if negb (Z.land mods MOD_CMD =? 0)
        then [XTestFakeKeyEvent (XKeysymToKeycode dpy XK_Super_L) true]
        else [])
    ++ (if need_shift
        then [XTestFakeKeyEvent (XKeysymToKeycode dpy XK_Shift_L) true]
        else [])
    ++ [XTestFakeKeyEvent keycode true; XTestFakeKeyEvent keycode false]
    ++ (if need_shift
        then [XTestFakeKeyEvent (XKeysymToKeycode dpy XK_Shift_L) false]
        else [])
    ++ (if negb (Z.land mods MOD_CMD =? 0)
        then [XTestFakeKeyEvent (XKeysymToKeycode dpy XK_Super_L) false]
        else [])
    ++ (if negb (Z.land mods MOD_ALT =? 0)
        then [XTestFakeKeyEvent (XKeysymToKeycode dpy XK_Alt_L) false]
        else [])
    ++ (if negb (Z.land mods MOD_CTRL =? 0)
        then [XTestFakeKeyEvent (XKeysymToKeycode dpy XK_Control_L) false]
        else [])
    ++ [XFlush; usleep 5000].

End SendKey.

(** A desktop with a browser, two terminals and a panel. *)
Definition sample_display : Display := {|
  get_client_list := Some [31; 32; 33; 34];
  get_window_pid := fun c => if c =? 34 then 0 else 100 + c;
  get_wm_class := fun c =>
    if c =? 31 then Some "firefox"
    else if c =? 32 then Some "XTerm"
    else if c =? 33 then Some "kitty"
    else None;
  XGetWindowAttributes := fun c => if c =? 33 then Some (40, 40)
                                   else Some (800, 600);
  get_window_title := fun c => if c =? 32 then Some "bash" else None;
  malloc_ok := true;
  XTranslateCoordinates := fun c => (-20, 500);
  DisplayWidth := 1024;
  DisplayHeight := 768;
  XGetImage := fun _ _ _ _ => true;
  save_ximage_png := fun _ _ _ _ _ => 0;
  XKeysymToKeycode := fun sym => if sym <? 256 then sym mod 64 + 8 else
                                   sym mod 256;
  XkbKeycodeToKeysym := fun k => k - 8 + 64
|}.

End Linux.

(** ** platform_macos.c *)

Module MacOS.

Definition TerminalApps : list string :=
  ["Terminal"; "iTerm2"; "iTerm"; "Ghostty"; "kitty"; "Alacritty";
   "Hyper"; "Warp"; "WezTerm"; "Tabby"].

Definition plat_is_terminal (name : string) : bool :=
  is_terminal_in TerminalApps name.

(** An entry of the array [CGWindowListCopyWindowInfo] returns: the
    values [plat_window_exists] reads from its dictionary, [None] for a
    key that is missing. *)
Record CGWindow := {
  kCGWindowNumber : option Z;
  kCGWindowOwnerPID : option Z;
  kCGWindowLayer : option Z
}.

(** The loop of [plat_window_exists]. *)
Fixpoint exists_loop (list : list CGWindow) (wid pid : Z) (fallback : Z)
  : bool * Z :=
  match list with
  | [] => (false, fallback)
  | info :: rest =>
      match kCGWindowNumber info, kCGWindowOwnerPID info with
      | Some cg_wid, Some cg_pid =>
          if cg_wid =? wid then (true, fallback)
          else
            let fallback :=
              if (cg_pid =? pid) && (fallback =? 0) then
                let layer :=
                  match kCGWindowLayer info with
                  | Some l => l
                  | None => 0
                  end in
                if layer =? 0 then cg_wid else fallback
              else fallback in
            exists_loop rest wid pid fallback
      | _, _ => exists_loop rest wid pid fallback
      end
  end.

(** [plat_window_exists(&wid, pid)]; [list] is [None] when
    [CGWindowListCopyWindowInfo] returns [NULL]. *)
Definition plat_window_exists (list : option (list CGWindow)) (wid pid : Z)
  : Z * Z :=
  match list with
  | None => (0, wid)
  | Some l =>
      let '(found, fallback) := exists_loop l wid pid 0 in
      if negb found && negb (fallback =? 0) then (1, fallback)
      else (if found then 1 else 0, wid)
  end.

Definition letter_map : list Z :=
  [0x00; 0x0B; 0x08; 0x02; 0x0E; 0x03; 0x05; 0x04; 0x22; 0x26;
   0x28; 0x25; 0x2E; 0x2D; 0x1F; 0x23; 0x0C; 0x0F; 0x01; 0x11;
   0x20; 0x09; 0x0D; 0x07; 0x10; 0x06].

Definition digit_map : list Z :=
  [0x1D; 0x12; 0x13; 0x14; 0x15; 0x17; 0x16; 0x1A; 0x1C; 0x19].

(** [keycode_for_char(c)] *)
Definition keycode_for_char (c : Z) : Z :=
  if (c >=? 97) && (c <=? 122) then byte_at letter_map (c - 97)
  else if (c >=? 65) && (c <=? 90) then byte_at letter_map (c - 65)
  else if (c >=? 48) && (c <=? 57) then byte_at digit_map (c - 48)
  else if c =? 45 then 0x1B else if c =? 61 then 0x18
  else if c =? 91 then 0x21 else if c =? 93 then 0x1E
  else if c =? 92 then 0x2A else if c =? 59 then 0x29
  else if c =? 39 then 0x27 else if c =? 44 then 0x2B
  else if c =? 46 then 0x2F else if c =? 47 then 0x2C
  else if c =? 96 then 0x32 else if c =? 32 then 0x31
  else 0xFFFF.

(** A keyboard event as [plat_send_key] prepares it. *)
Record CGEvent := {
  keycode : Z;
  keydown : bool;
  (** the flags given to [CGEventSetFlags], when it is called *)
  flags : option Z;
  (** the character given to [CGEventKeyboardSetUnicodeString], when it
      is called *)
  unicode : option Z
}.

Inductive CGCall :=
| CGEventPostToPid (pid : Z) (event : CGEvent)
| usleep (usec : Z).

Definition kCGEventFlagMaskControl : Z := 0x40000.
Definition kCGEventFlagMaskAlternate : Z := 0x80000.
Definition kCGEventFlagMaskCommand : Z := 0x100000.

Section SendKey.

(** The key kinds the file names beyond those of platform.h, which does
    not define them. *)
Variables PLAT_KEY_UP PLAT_KEY_DOWN PLAT_KEY_LEFT PLAT_KEY_RIGHT
  PLAT_KEY_PAGEUP PLAT_KEY_PAGEDN : Z.

(** The [switch] of [plat_send_key]: [keycode], [uc] and
    [mapped_keycode]. *)
Definition key_of (special ch mods : Z) : Z * Z * bool :=
  if special =? PLAT_KEY_RETURN then (0x24, 0, false)
  else if special =? PLAT_KEY_TAB then (0x30, 0, false)
  else if special =? PLAT_KEY_ESCAPE then (0x35, 0, false)
  else if special =? PLAT_KEY_UP then (0x7E, 0, false)
  else if special =? PLAT_KEY_DOWN then (0x7D, 0, false)
  else if special =? PLAT_KEY_LEFT then (0x7B, 0, false)
  else if special =? PLAT_KEY_RIGHT then (0x7C, 0, false)
  else if special =? PLAT_KEY_PAGEUP then (0x74, 0, false)
  else if special =? PLAT_KEY_PAGEDN then (0x79, 0, false)
  else
    let uc := ch mod 2 ^ 16 in
    if negb (mods =? 0) then
      let mapped := keycode_for_char (to_char ch) in
      if negb (mapped =? 0xFFFF) then (mapped, uc, true) else (0, uc, false)
    else (0, uc, false).

(** [plat_send_key(pid, special, ch, mods)]; [created] says that both
    events could be created. *)
Definition plat_send_key (created : bool) (pid special ch mods : Z)
  : list CGCall :=
  let '(keycode, uc, mapped_keycode) := key_of special ch mods in
  if negb created then []
  else
    let flags :=
      Z.lor
        (Z.lor (if negb (Z.land mods MOD_CTRL =? 0)
                then kCGEventFlagMaskControl else 0)
               (if negb (Z.land mods MOD_ALT =? 0)
                then kCGEventFlagMaskAlternate else 0))
        (if negb (Z.land mods MOD_CMD =? 0)
         then kCGEventFlagMaskCommand else 0) in
    let flags := if negb (flags =? 0) then Some flags else None in
    let unicode :=
      if negb (uc =? 0) && negb mapped_keycode then Some uc else None in
    [CGEventPostToPid pid
       {| keycode := keycode; keydown := true; flags := flags;
          unicode := unicode |};
     usleep 1000;
     CGEventPostToPid pid
       {| keycode := keycode; keydown := false; flags := flags;
          unicode := unicode |};
     usleep 5000].

End SendKey.

Definition sample_windows : list CGWindow :=
  [ {| kCGWindowNumber := Some 7; kCGWindowOwnerPID := Some 132;
       kCGWindowLayer := Some 25 |};
    {| kCGWindowNumber := Some 8; kCGWindowOwnerPID := Some 132;
       kCGWindowLayer := None |};
    {| kCGWindowNumber := Some 9; kCGWindowOwnerPID := None;
       kCGWindowLayer := Some 0 |} ].

End MacOS.

(** ** Vocabulary of the backends *)

(** The client may stand in for a window of the process [pid] that is
    gone. *)
Definition stands_in (dpy : Linux.Display) (pid : Z) (c : Z) : bool :=
  negb (c =? 0) && (Linux.get_window_pid dpy c =? pid).

(** The same for an entry of the macOS window list: it has a number and
    a process, the process is [pid], and it is on layer 0. *)
Definition cg_stands_in (pid : Z) (info : MacOS.CGWindow) : bool :=
  match MacOS.kCGWindowNumber info, MacOS.kCGWindowOwnerPID info with
  | Some cg_wid, Some cg_pid =>
      negb (cg_wid =? 0) && (cg_pid =? pid)
      && (match MacOS.kCGWindowLayer info with
          | Some l => l
          | None => 0
          end =? 0)
  | _, _ => false
  end.

(** The entry is the window [wid]. *)
Definition cg_is (wid : Z) (info : MacOS.CGWindow) : bool :=
  match MacOS.kCGWindowNumber info, MacOS.kCGWindowOwnerPID info with
  | Some cg_wid, Some _ => cg_wid =? wid
  | _, _ => false
  end.

(** The keys that are down after a sequence of calls, the last pressed
    first; a release of another key than the last pressed is ignored. *)
Fixpoint keys_down (calls : list Linux.XCall) (down : list Z) : list Z :=
  match calls with
  | [] => down
  | Linux.XTestFakeKeyEvent k true :: rest => keys_down rest (k :: down)
  | Linux.XTestFakeKeyEvent k false :: rest =>
      match down with
      | k' :: down' =>
          if k' =? k then keys_down rest down' else keys_down rest down
      | [] => keys_down rest down
      end
  | _ :: rest => keys_down rest down
  end.

(** What an entry of the Linux window list says of its window. *)
Definition listed_as (dpy : Linux.Display) (danger_mode : bool) (w : WinInfo)
  : Prop :=
  exists wm_class width height,
    Linux.get_wm_class dpy (window_id w) = Some wm_class /\
    (danger_mode = false -> Linux.plat_is_terminal wm_class = true) /\
    Linux.XGetWindowAttributes dpy (window_id w) = Some (width, height) /\
    50 < width /\ 50 < height /\
    pid w = Linux.get_window_pid dpy (window_id w) /\
    owner w = strncpy 127 wm_class /\
    (String.length (owner w) <= 127)%nat /\
    (String.length (title w) <= 255)%nat.

(** The values of a [char]. *)
Definition all_chars : list Z :=
  map (fun n => Z.of_nat n - 128) (seq 0 256).

(** The characters [keycode_for_char] has a key for, apart from the
    letters and the digits. *)
Definition mapped_punctuation : list Z :=
  [45; 61; 91; 93; 92; 59; 39; 44; 46; 47; 96; 32].

(** Two characters share a key only if they are one letter in its two
    cases. *)
Definition keys_distinct (c1 c2 : Z) : bool :=
  implb ((MacOS.keycode_for_char c1 =? MacOS.keycode_for_char c2)
         && negb (MacOS.keycode_for_char c1 =? 0xFFFF))
    (tolower c1 =? tolower c2).

(** A character has a key exactly when it is a letter, a digit or one
    of the twelve punctuation marks, and the key is below 0x33. *)
Definition key_known (c : Z) : bool :=
  let k := MacOS.keycode_for_char c in
  if ((97 <=? c) && (c <=? 122)) || ((65 <=? c) && (c <=? 90))
     || isdigit c || existsb (Z.eqb c) mapped_punctuation
  then (0 <=? k) && (k <=? 0x32)
  else k =? 0xFFFF.

(** * Properties *)

(** ** Running the monad *)

Ltac run_prog :=
  unfold replies, kvGet, kvSet, bind, ret, emit, get, modify, ask, time,
    plat_list_windows, plat_window_exists, plat_capture_window,
    final_state, events, result in *.

Section Frame.
Variable R : State -> State -> Prop.
Hypothesis R_refl : forall s, R s s.
Hypothesis R_trans : forall a b c, R a b -> R b c -> R a c.

Lemma keeps_ret {A} (a : A) : keeps R (ret a).
Proof. intros env s. apply R_refl. Qed.

Lemma keeps_emit e : keeps R (emit e).
Proof. intros env s. apply R_refl. Qed.

Lemma keeps_get {A} (f : State -> A) : keeps R (get f).
Proof. intros env s. apply R_refl. Qed.

Lemma keeps_ask {A} (f : Env -> A) : keeps R (ask f).
Proof. intros env s. apply R_refl. Qed.

Lemma keeps_modify f : (forall s, R s (f s)) -> keeps R (modify f).
Proof. intros H env s. apply H. Qed.

Lemma keeps_bind {A B} (m : M A) (k : A -> M B) :
  keeps R m -> (forall a, keeps R (k a)) -> keeps R (bind m k).
Proof.
  intros Hm Hk env s. unfold bind, final_state.
  specialize (Hm env s). unfold final_state in Hm.
  destruct (m env s) as [[a s1] o1]. simpl in Hm.
  specialize (Hk a env s1). unfold final_state in Hk.
  destruct (k a env s1) as [[b s2] o2]. simpl in *.
  eapply R_trans; eassumption.
Qed.

Lemma keeps_emit_all l : keeps R (emit_all l).
Proof.
  induction l as [|e l IH]; simpl.
  - apply keeps_ret.
  - apply keeps_bind; [apply keeps_emit | intros _; exact IH].
Qed.
End Frame.

Ltac keeps_step Hrefl Htrans :=
  match goal with
  | |- keeps _ (bind _ _) => apply (keeps_bind _ Htrans); [| intros ?]
  | |- keeps _ (ret _) => apply (keeps_ret _ Hrefl)
  | |- keeps _ (emit _) => apply (keeps_emit _ Hrefl)
  | |- keeps _ (emit_all _) => apply (keeps_emit_all _ Hrefl Htrans)
  | |- keeps _ (get _) => apply (keeps_get _ Hrefl)
  | |- keeps _ (ask _) => apply (keeps_ask _ Hrefl)
  | |- keeps _ (modify _) => apply keeps_modify; intros ?
  | |- keeps _ (if ?b then _ else _) => destruct b
  | |- keeps _ (match ?x with Some _ => _ | None => _ end) => destruct x
  | |- keeps _ (let '(_, _) := ?x in _) => destruct x
  end.

Lemma same_gate_refl s : same_gate s s.
Proof. unfold same_gate. auto. Qed.

Lemma same_gate_trans a b c : same_gate a b -> same_gate b c -> same_gate a c.
Proof.
  unfold same_gate. intros (?&?&?&?) (?&?&?&?). repeat split; congruence.
Qed.

Ltac keeps_gate :=
  repeat first
    [ assumption
    | keeps_step same_gate_refl same_gate_trans
    | (unfold same_gate; simpl; auto; fail)
    | (intros ? ?; unfold same_gate, plat_list_windows, plat_window_exists,
         plat_capture_window, final_state; simpl; auto; fail) ].

Lemma refresh_window_list_gate : keeps same_gate refresh_window_list.
Proof. unfold refresh_window_list, free_window_list. keeps_gate. Qed.

Lemma connected_window_exists_gate : keeps same_gate connected_window_exists.
Proof. unfold connected_window_exists. keeps_gate. Qed.

Lemma send_screenshot_gate chat : keeps same_gate (send_screenshot chat).
Proof. unfold send_screenshot, capture_connected_window. keeps_gate. Qed.

Lemma refresh_screenshot_gate chat msg :
  keeps same_gate (refresh_screenshot chat msg).
Proof. unfold refresh_screenshot, capture_connected_window. keeps_gate. Qed.

Lemma build_list_message_gate : keeps same_gate build_list_message.
Proof.
  unfold build_list_message. pose proof refresh_window_list_gate.
  keeps_gate.
Qed.

Lemma send_keys_gate text : keeps same_gate (send_keys text).
Proof. unfold send_keys. keeps_gate. Qed.

Lemma handle_request_dispatch_gate br :
  keeps same_gate (handle_request_dispatch br).
Proof.
  unfold handle_request_dispatch, disconnect.
  pose proof refresh_window_list_gate.
  pose proof connected_window_exists_gate.
  pose proof build_list_message_gate.
  pose proof (send_screenshot_gate (target br)).
  pose proof (refresh_screenshot_gate (target br) (msg_id br)).
  pose proof (send_keys_gate (request br)).
  keeps_gate.
Qed.

(** ** The owner filter *)

Lemma handle_request_owner_eq br env s :
  handle_request_owner br env s =
  if stored_owner s =? 0 then
    (from br,
     set_kv (<[OWNER_KEY := snprintf 32 (dec (from br))]> (kv s)) s,
     [Printf ("Registered owner: " +:+ dec (from br) +:+ " ("
              +:+ from_username br +:+ ")" +:+ LF)])
  else (stored_owner s, s, []).
Proof.
  unfold handle_request_owner, stored_owner. run_prog.
  destruct (kv s !! OWNER_KEY) as [o|]; simpl.
  - destruct (strtoll o =? 0); reflexivity.
  - reflexivity.
Qed.

Lemma owner_request_result br env s :
  owner_request s br -> result (handle_request_owner br env s) = from br.
Proof.
  intros [H | H]; rewrite handle_request_owner_eq.
  - rewrite H. reflexivity.
  - destruct (stored_owner s =? 0); [reflexivity | exact H].
Qed.

(** What the owner filter leaves alone: everything but the store, and in
    the store everything but the owner key. *)
Lemma after_owner_fields br env s :
  let s1 := after_owner br env s in
  DangerMode s1 = DangerMode s /\ WindowList s1 = WindowList s /\
  WindowCount s1 = WindowCount s /\ OtpTimeout s1 = OtpTimeout s /\
  connection s1 = connection s /\ plat_calls s1 = plat_calls s /\
  same_gate s s1 /\
  (forall k, k <> OWNER_KEY -> kv s1 !! k = kv s !! k).
Proof.
  unfold after_owner, final_state. rewrite handle_request_owner_eq.
  destruct (stored_owner s =? 0); simpl; unfold same_gate, connection; simpl.
  - repeat split; try reflexivity.
    intros k Hk. apply lookup_insert_ne. congruence.
  - repeat split; reflexivity.
Qed.

Lemma owner_events_no_reply br env s :
  List.filter is_reply (events (handle_request_owner br env s)) = [].
Proof.
  rewrite handle_request_owner_eq.
  destruct (stored_owner s =? 0); reflexivity.
Qed.

(** A request of the owner goes through the gate and, when the gate
    says so, through the dispatch. *)
Lemma handle_request_of_owner br env s :
  owner_request s br ->
  handle_request br env s =
  let o1 := events (handle_request_owner br env s) in
  let '(proceed, s2, o2) := handle_request_gate br env (after_owner br env s) in
  if proceed : bool then
    let '(u, s3, o3) := handle_request_dispatch br env s2 in
    (u, s3, o1 ++ o2 ++ o3)
  else (tt, s2, o1 ++ o2 ++ []).
Proof.
  intros Ho. pose proof (owner_request_result br env s Ho) as Hr.
  unfold handle_request, after_owner, bind, final_state, events, result in *.
  destruct (handle_request_owner br env s) as [[oid s1] o1]. simpl in *.
  subst oid. rewrite Z.eqb_refl. simpl.
  destruct (handle_request_gate br env s1) as [[proceed s2] o2].
  destruct proceed; [| reflexivity].
  destruct (handle_request_dispatch br env s2) as [[u s3] o3]. reflexivity.
Qed.

(** ** The gate *)

Lemma totp_verify_eq code env s :
  totp_verify code env s =
  match kv s !! "totp_secret" with
  | None => (false, s, [])
  | Some hex =>
      let secret := hex_to_bytes env (bytes hex) 20 in
      if negb (Z.of_nat (length secret) =? 20) then (false, s, [])
      else
        (existsb
           (fun i =>
              totp_code env secret
                (to_uint64 (to_uint64 (time_at env (clock_reads s)) / 30 + i))
              =? to_uint32 (atoi code))
           [-1; 0; 1],
         tick_clock s, [])
  end.
Proof.
  unfold totp_verify. run_prog.
  destruct (kv s !! "totp_secret") as [hex|]; simpl; [| reflexivity].
  destruct (negb _); reflexivity.
Qed.

Lemma gate_weak br env s :
  WeakSecurity s = true -> handle_request_gate br env s = (true, s, []).
Proof.
  intros H. unfold handle_request_gate. run_prog. simpl. rewrite H. reflexivity.
Qed.

Lemma gate_fresh br env s :
  WeakSecurity s = false -> Authenticated s = true -> ~ expired env s ->
  handle_request_gate br env s =
  (true,
   set_LastActivity (time_at env (S (clock_reads s)))
     (tick_clock (tick_clock s)),
   []).
Proof.
  intros Hw Ha He. unfold handle_request_gate, expired in *. run_prog.
  simpl. rewrite Hw. simpl. rewrite Ha. simpl.
  destruct (_ >? _) eqn:E; [| reflexivity].
  exfalso. apply He. apply Z.gtb_lt in E. lia.
Qed.

Lemma gate_closed br env s :
  WeakSecurity s = false -> Authenticated s = false \/ expired env s ->
  handle_request_gate br env s =
  let s0 := gate_closed_state s in
  if is_callback br then (false, s0, [BotAnswerCallbackQuery (callback_id br)])
  else
    let '(verified, sv, ov) :=
      if is_otp (request br) then totp_verify (request br) env s0
      else (false, s0, []) in
    if verified : bool then
      (false,
       set_LastActivity (time_at env (clock_reads sv))
         (tick_clock (set_Authenticated true sv)),
       ov ++ [BotSendMessage (target br) "Authenticated." 0])
    else (false, sv, ov ++ [BotSendMessage (target br) "Enter OTP code." 0]).
Proof.
  intros Hw Hc. unfold handle_request_gate, gate_closed_state, expired in *.
  run_prog. simpl. rewrite Hw. simpl.
  destruct (Authenticated s) eqn:Ha; simpl in *.
  - destruct Hc as [Hc | Hc]; [discriminate |].
    replace (_ >? _) with true by (symmetry; apply Z.gtb_lt; lia).
    simpl. destruct (is_callback br); [reflexivity |].
    destruct (is_otp (request br)); simpl.
    + destruct (totp_verify _ _ _) as [[v sv] ov]. destruct v; simpl;
        rewrite ?app_nil_r; reflexivity.
    + reflexivity.
  - destruct (is_callback br); [reflexivity |].
    destruct (is_otp (request br)); simpl.
    + destruct (totp_verify _ _ _) as [[v sv] ov]. destruct v; simpl;
        rewrite ?app_nil_r; reflexivity.
    + reflexivity.
Qed.

(** C1: a request whose sender is not the pinned owner gets no reply of
    any kind, whatever it contains and whatever the authentication state
    is; it is dropped before the gate or a command runs, so that only a
    console line is printed and the state is the one before. *)
Theorem non_owner_dropped (env : Env) (st : State) (br : BotRequest) :
  stored_owner st <> 0 -> from br <> stored_owner st ->
  replies (handle_request br env st) = [] /\
  events (handle_request br env st) =
    [Printf ("Ignoring message from non-owner " +:+ dec (from br) +:+ LF)] /\
  final_state (handle_request br env st) = st.
Proof.
  intros Hpinned Hne. unfold handle_request, bind, replies, events, final_state.
  rewrite handle_request_owner_eq.
  destruct (stored_owner st =? 0) eqn:E.
  - apply Z.eqb_eq in E. contradiction.
  - destruct (from br =? stored_owner st) eqn:F.
    + apply Z.eqb_eq in F. contradiction.
    + simpl. auto.
Qed.

Lemma non_owner_dropped_witness :
  replies (handle_request (text_request 2 ".list") sample_env
             sample_authenticated) = [] /\
  events (handle_request (text_request 2 ".list") sample_env
            sample_authenticated) =
    [Printf ("Ignoring message from non-owner " +:+ dec 2 +:+ LF)] /\
  final_state (handle_request (text_request 2 ".list") sample_env
                 sample_authenticated) = sample_authenticated.
Proof.
  apply (non_owner_dropped sample_env sample_authenticated
           (text_request 2 ".list")).
  - vm_compute. discriminate.
  - vm_compute. discriminate.
Defined.

Lemma totp_verify_frame code env s :
  events (totp_verify code env s) = [] /\
  (final_state (totp_verify code env s) = s \/
   final_state (totp_verify code env s) = tick_clock s).
Proof.
  rewrite totp_verify_eq. unfold events, final_state.
  destruct (kv s !! "totp_secret"); simpl; [| auto].
  destruct (negb _); simpl; auto.
Qed.

Lemma expired_after_owner br env s :
  expired env (after_owner br env s) <-> expired env s.
Proof.
  destruct (after_owner_fields br env s) as (_ & _ & _ & Ht & _ & _ & Hg & _).
  destruct Hg as (_ & _ & Hl & Hc). unfold expired.
  rewrite Ht, Hl, Hc. reflexivity.
Qed.

(** What a closed gate does with a request. *)
Lemma gate_closed_outcome br env s :
  WeakSecurity s = false -> Authenticated s = false \/ expired env s ->
  let g := handle_request_gate br env s in
  let verified :=
    is_otp (request br)
    && result (totp_verify (request br) env (gate_closed_state s)) in
  result g = false /\
  connection (final_state g) = connection s /\
  OtpTimeout (final_state g) = OtpTimeout s /\
  WindowList (final_state g) = WindowList s /\
  plat_calls (final_state g) = plat_calls s /\
  kv (final_state g) = kv s /\
  if is_callback br then
    Authenticated (final_state g) = false /\
    events g = [BotAnswerCallbackQuery (callback_id br)]
  else
    Authenticated (final_state g) = verified /\
    events g =
      [BotSendMessage (target br)
         (if verified then "Authenticated." else "Enter OTP code.") 0].
Proof.
  intros Hw Hc g verified. subst g verified.
  rewrite (gate_closed br env s Hw Hc). cbv zeta.
  assert (H0 : connection (gate_closed_state s) = connection s /\
               OtpTimeout (gate_closed_state s) = OtpTimeout s /\
               WindowList (gate_closed_state s) = WindowList s /\
               plat_calls (gate_closed_state s) = plat_calls s /\
               kv (gate_closed_state s) = kv s /\
               Authenticated (gate_closed_state s) = false).
  { unfold gate_closed_state. destruct (Authenticated s);
      repeat split; reflexivity. }
  revert H0. generalize (gate_closed_state s). intros s0 H0.
  destruct H0 as (Hc0 & Ht0 & Hwl0 & Hp0 & Hk0 & Ha0).
  destruct (is_callback br).
  { unfold result, final_state, events. simpl. repeat split; assumption. }
  destruct (is_otp (request br)); simpl.
  2: { unfold result, final_state, events. simpl. repeat split; assumption. }
  destruct (totp_verify_frame (request br) env s0) as [Hev Hfs].
  unfold result, final_state, events in *.
  destruct (totp_verify (request br) env s0) as [[v sv] ov]. simpl in Hev, Hfs.
  subst ov.
  assert (Hsv : connection sv = connection s /\ OtpTimeout sv = OtpTimeout s /\
                WindowList sv = WindowList s /\ plat_calls sv = plat_calls s /\
                kv sv = kv s /\ Authenticated sv = false).
  { destruct Hfs; subst sv; repeat split; assumption. }
  destruct Hsv as (? & ? & ? & ? & ? & ?).
  destruct v; simpl; repeat split; assumption.
Qed.

Lemma length_bytes s : length (bytes s) = String.length s.
Proof.
  unfold bytes. rewrite length_map.
  induction s as [|a s IH]; simpl; [reflexivity | now rewrite IH].
Qed.







(** C6, as the code has it: with the weak-security flag set, a request
    that passes the owner filter goes straight to the command dispatch;
    no clock is read, no one-time password is checked and the gate's own
    state stays as it was.  The owner filter itself stays in force. *)
Theorem weak_security_skips_otp (env : Env) (st : State) (br : BotRequest) :
  WeakSecurity st = true -> owner_request st br ->
  let r := handle_request br env st in
  let d := handle_request_dispatch br env (after_owner br env st) in
  events r = events (handle_request_owner br env st) ++ events d /\
  replies r = replies d /\
  final_state r = final_state d /\
  Authenticated (final_state r) = Authenticated st /\
  LastActivity (final_state r) = LastActivity st /\
  clock_reads (final_state r) = clock_reads st.
Proof.
  intros Hw Ho r d. subst r d.
  destruct (after_owner_fields br env st)
    as (_ & _ & _ & _ & _ & _ & (Hw1 & Ha1 & Hl1 & Hc1) & _).
  rewrite (handle_request_of_owner br env st Ho). cbv zeta.
  rewrite gate_weak by congruence.
  pose proof (handle_request_dispatch_gate br env (after_owner br env st))
    as (_ & Ha & Hl & Hc).
  pose proof (owner_events_no_reply br env st) as Hno.
  unfold replies, events, final_state in *.
  destruct (handle_request_dispatch br env (after_owner br env st))
    as [[u s3] o3].
  simpl in *. rewrite List.filter_app, Hno. simpl.
  repeat split; congruence.
Qed.

Lemma weak_security_skips_otp_witness :
  WeakSecurity sample_weak = true /\
  owner_request sample_weak (text_request 1 ".otptimeout 60") /\
  let r := handle_request (text_request 1 ".otptimeout 60") sample_env
             sample_weak in
  replies r = [BotSendMessage 77 "OTP timeout set to 60 seconds." 0] /\
  Authenticated (final_state r) = false /\
  clock_reads (final_state r) = 0%nat.
Proof.
  assert (Ho : owner_request sample_weak (text_request 1 ".otptimeout 60"))
    by (right; reflexivity).
  destruct (weak_security_skips_otp sample_env sample_weak
              (text_request 1 ".otptimeout 60") eq_refl Ho)
    as (_ & Hrep & _ & Ha & _ & Hc).
  repeat split; assumption.
Defined.

(** C6 as stated fails: with the flag set, a request of a sender who is
    not the pinned owner is not dispatched; the dispatch would have
    answered [.help], the handler answers nothing. *)
Lemma weak_security_counterexample :
  ~ (forall env st br,
       WeakSecurity st = true ->
       replies (handle_request br env st) =
       replies (handle_request_dispatch br env (after_owner br env st))).
Proof.
  intros H.
  specialize (H sample_env sample_weak (text_request 2 ".help") eq_refl).
  vm_compute in H. discriminate H.
Qed.

(** ** One-time passwords *)

Lemma digits_value_all acc l :
  Forall (fun b => 48 <= b <= 57) l ->
  digits_value acc l = fold_left (fun acc b => acc * 10 + (b - 48)) l acc.
Proof.
  intros H. revert acc. induction H as [|b l Hb _ IH]; intros acc; simpl.
  - reflexivity.
  - unfold isdigit. replace ((48 <=? b) && (b <=? 57)) with true.
    + apply IH.
    + symmetry. apply andb_true_iff. split; apply Z.leb_le; lia.
Qed.

Lemma skip_space_digit l :
  isdigit (byte_at l 0) = true -> skip_space l = l.
Proof.
  destruct l as [|c l]; [reflexivity |]. unfold byte_at. simpl.
  unfold isdigit, isspace. intros H. apply andb_true_iff in H.
  destruct H as [H1 H2]. apply Z.leb_le in H1. apply Z.leb_le in H2.
  replace (c =? 32) with false by (symmetry; apply Z.eqb_neq; lia).
  replace (c <=? 13) with false by (symmetry; apply Z.leb_gt; lia).
  rewrite andb_false_r. reflexivity.
Qed.

(** On a text that starts with a digit, [strtol] reads the digits. *)
Lemma decimal_subject_digit l :
  isdigit (byte_at l 0) = true -> decimal_subject l = digits_value 0 l.
Proof.
  intros H. unfold decimal_subject. rewrite (skip_space_digit l H). cbv zeta.
  unfold isdigit in H. apply andb_true_iff in H. destruct H as [H1 H2].
  apply Z.leb_le in H1. apply Z.leb_le in H2.
  replace (byte_at l 0 =? 45) with false by (symmetry; apply Z.eqb_neq; lia).
  replace (byte_at l 0 =? 43) with false by (symmetry; apply Z.eqb_neq; lia).
  reflexivity.
Qed.

Lemma digits_value_nonneg l acc : 0 <= acc -> 0 <= digits_value acc l.
Proof.
  revert acc. induction l as [|c l IH]; intros acc Hacc; simpl; [exact Hacc |].
  unfold isdigit. destruct ((48 <=? c) && (c <=? 57)) eqn:E; [| exact Hacc].
  apply andb_true_iff in E. destruct E as [E1 E2]. apply Z.leb_le in E1.
  apply IH. lia.
Qed.

(** [atoi] of a text that starts with a digit is the value of its digit
    prefix, as long as an [int] can hold it. *)
Lemma atoi_digit s :
  isdigit (char_at s 0) = true ->
  digits_value 0 (bytes s) <= INT_MAX ->
  atoi s = digits_value 0 (bytes s).
Proof.
  intros Hd Hmax. unfold atoi, strtoll, char_at in *.
  rewrite (decimal_subject_digit _ Hd).
  pose proof (digits_value_nonneg (bytes s) 0 (Z.le_refl 0)) as Hpos.
  unfold INT_MAX, LLONG_MAX, LLONG_MIN, to_int in *.
  rewrite Z.min_r by lia. rewrite Z.max_r by lia.
  rewrite Z.mod_small by lia. lia.
Qed.

Lemma six_digits_bytes c :
  six_digits c <->
  exists a b c' d e f,
    bytes c = [a; b; c'; d; e; f] /\
    48 <= a <= 57 /\ 48 <= b <= 57 /\ 48 <= c' <= 57 /\
    48 <= d <= 57 /\ 48 <= e <= 57 /\ 48 <= f <= 57.
Proof.
  unfold six_digits. rewrite <- (length_bytes c). split.
  - intros [Hlen Hall].
    destruct (bytes c) as [|a [|b [|c' [|d [|e [|f [|g l]]]]]]];
      try discriminate Hlen.
    exists a, b, c', d, e, f.
    repeat match goal with
           | H : Forall _ (_ :: _) |- _ => inversion H; clear H; subst
           end.
    repeat split; try reflexivity; lia.
  - intros (a & b & c' & d & e & f & Hb & H). rewrite Hb.
    split; [reflexivity |]. repeat constructor; tauto.
Qed.

Lemma is_otp_six_digits c : is_otp c = true <-> six_digits c.
Proof.
  rewrite six_digits_bytes. unfold is_otp, strlen, char_at.
  rewrite <- (length_bytes c). split.
  - intros H. apply andb_true_iff in H. destruct H as [Hlen Hall].
    apply Z.eqb_eq in Hlen.
    destruct (bytes c) as [|a [|b [|c' [|d [|e [|f [|g l]]]]]]];
      try (simpl in Hlen; lia).
    exists a, b, c', d, e, f. split; [reflexivity |].
    unfold byte_at in Hall. simpl in Hall. unfold isdigit in Hall.
    repeat (apply andb_true_iff in Hall; destruct Hall as [? Hall]).
    repeat match goal with
           | H : (_ <=? _) = true |- _ => apply Z.leb_le in H
           end.
    lia.
  - intros (a & b & c' & d & e & f & Hb & H). rewrite Hb.
    unfold byte_at. simpl. unfold isdigit.
    repeat (apply andb_true_iff; split); try reflexivity;
      apply Z.leb_le; lia.
Qed.

(** A six-digit code is below 1000000 and [atoi] reads it exactly. *)
Lemma atoi_six_digits c :
  six_digits c ->
  to_uint32 (atoi c) = code_value c /\ 0 <= code_value c < 1000000.
Proof.
  intros H. pose proof H as H6. apply six_digits_bytes in H.
  destruct H as (a & b & c' & d & e & f & Hb & H).
  assert (Hv : digits_value 0 (bytes c) = code_value c).
  { unfold code_value. apply digits_value_all. apply H6. }
  assert (Hr : 0 <= code_value c < 1000000).
  { unfold code_value. rewrite Hb. simpl. lia. }
  split; [| exact Hr].
  rewrite atoi_digit.
  - rewrite Hv. unfold to_uint32. apply Z.mod_small. lia.
  - unfold char_at, byte_at. rewrite Hb. simpl. unfold isdigit.
    apply andb_true_iff. split; apply Z.leb_le; lia.
  - rewrite Hv. unfold INT_MAX. lia.
Qed.

(** [totp_code] reads the low 64 bits of the time step only. *)
Lemma totp_msg_bits n : forall t t' acc,
  (forall i, 0 <= i < 8 * Z.of_nat n -> Z.testbit t i = Z.testbit t' i) ->
  totp_msg n t acc = totp_msg n t' acc.
Proof.
  induction n as [|n IH]; intros t t' acc H; [reflexivity |].
  cbn [totp_msg].
  assert (Hlow : Z.land t 0xff = Z.land t' 0xff).
  { change 0xff with (Z.ones 8). rewrite !Z.land_ones by lia.
    apply Z.bits_inj'. intros i Hi.
    destruct (Z.ltb_spec i 8).
    - rewrite !Z.mod_pow2_bits_low by lia. apply H. lia.
    - rewrite !Z.mod_pow2_bits_high by lia. reflexivity. }
  rewrite Hlow. apply IH. intros i Hi.
  rewrite !Z.shiftr_spec by lia. apply H. lia.
Qed.

Lemma totp_code_uint64 env secret t :
  totp_code env secret (to_uint64 t) = totp_code env secret t.
Proof.
  unfold totp_code, to_uint64.
  rewrite (totp_msg_bits 8 (t mod 2 ^ 64) t []); [reflexivity |].
  intros i Hi. apply Z.mod_pow2_bits_low. lia.
Qed.

Lemma totp_verify_result env s hex c :
  kv s !! "totp_secret" = Some hex ->
  let secret := hex_to_bytes env (bytes hex) 20 in
  length secret = 20%nat ->
  let unixTime := time_at env (clock_reads s) in
  0 <= unixTime < 2 ^ 63 ->
  six_digits c ->
  result (totp_verify c env s) = true <->
  exists t,
    (t = unixTime / 30 - 1 \/ t = unixTime / 30 \/ t = unixTime / 30 + 1) /\
    totp_code env secret t = code_value c.
Proof.
  intros Hk secret Hlen unixTime Ht H6.
  rewrite totp_verify_eq, Hk. cbv zeta. fold secret. rewrite Hlen.
  change (negb (Z.of_nat 20 =? 20)) with false. cbv iota.
  unfold result. cbn [fst]. fold unixTime.
  destruct (atoi_six_digits c H6) as [Hv _]. rewrite Hv.
  assert (Hnow : to_uint64 unixTime = unixTime).
  { unfold to_uint64. apply Z.mod_small. lia. }
  rewrite Hnow. cbn [existsb]. rewrite !totp_code_uint64.
  rewrite orb_false_r, !orb_true_iff, !Z.eqb_eq.
  replace (unixTime / 30 + -1) with (unixTime / 30 - 1) by lia.
  replace (unixTime / 30 + 0) with (unixTime / 30) by lia.
  split.
  - intros [H | [H | H]]; eexists; (split; [| exact H]); auto.
  - intros (t & [-> | [-> | ->]] & H); auto.
Qed.

(** C3: with a provisioned secret, a request that meets the closed gate
    authenticates exactly when its text is six ASCII digits whose value
    is the TOTP code of time step [t - 1], [t] or [t + 1], for
    [t = unixTime / 30]; a text that is not six digits gets the prompt
    and leaves the state as the gate found it: the clock is not read
    again and no code is computed. *)
Theorem otp_accepted_iff (env : Env) (st : State) (br : BotRequest)
    (hex : string) :
  owner_request st br -> WeakSecurity st = false -> is_callback br = false ->
  Authenticated st = false \/ expired env st ->
  kv st !! "totp_secret" = Some hex ->
  let secret := hex_to_bytes env (bytes hex) 20 in
  length secret = 20%nat ->
  let unixTime := time_at env (clock_reads (gate_closed_state st)) in
  0 <= unixTime < 2 ^ 63 ->
  let timeStep := unixTime / 30 in
  let c := request br in
  let r := handle_request br env st in
  (Authenticated (final_state r) = true <->
   six_digits c /\
   exists t,
     (t = timeStep - 1 \/ t = timeStep \/ t = timeStep + 1) /\
     totp_code env secret t = code_value c) /\
  replies r =
    [BotSendMessage (target br)
       (if Authenticated (final_state r) then "Authenticated."
        else "Enter OTP code.") 0] /\
  (~ six_digits c ->
   final_state r = gate_closed_state (after_owner br env st)).
Proof.
  intros Ho Hw Hcb Hclosed Hk secret Hlen unixTime Ht timeStep c r.
  subst r c timeStep.
  destruct (after_owner_fields br env st)
    as (_ & _ & _ & _ & _ & _ & (Hw1 & Ha1 & Hl1 & Hc1) & Hkv).
  set (s1 := after_owner br env st) in *.
  assert (Hw' : WeakSecurity s1 = false) by congruence.
  assert (Hc' : Authenticated s1 = false \/ expired env s1).
  { destruct Hclosed as [H | H]; [left; congruence |].
    right. apply expired_after_owner. exact H. }
  assert (Hk0 : kv (gate_closed_state s1) !! "totp_secret" = Some hex).
  { unfold gate_closed_state. destruct (Authenticated s1); simpl;
      (rewrite Hkv; [exact Hk | discriminate]). }
  assert (Hreads : clock_reads (gate_closed_state s1)
                   = clock_reads (gate_closed_state st)).
  { unfold gate_closed_state. rewrite Ha1.
    destruct (Authenticated st); simpl; congruence. }
  pose proof (gate_closed_outcome br env s1 Hw' Hc') as Hg. cbv zeta in Hg.
  rewrite Hcb in Hg.
  pose proof (gate_closed br env s1 Hw' Hc') as Hgate. cbv zeta in Hgate.
  rewrite Hcb in Hgate.
  pose proof (owner_events_no_reply br env st) as Hno.
  rewrite (handle_request_of_owner br env st Ho). cbv zeta. fold s1.
  unfold replies, result, final_state, events in *.
  destruct (handle_request_gate br env s1) as [[proceed s2] o2].
  cbn [fst snd] in Hg. destruct Hg as (Hp & _ & _ & _ & _ & _ & Hauth & Hev).
  subst proceed o2. cbv beta iota zeta. cbn [fst snd].
  rewrite !List.filter_app, Hno. cbn [List.filter is_reply app].
  split; [| split].
  - rewrite Hauth. rewrite andb_true_iff, is_otp_six_digits.
    split.
    + intros [H6 Hv]. split; [exact H6 |].
      apply (totp_verify_result env _ hex _ Hk0) in Hv;
        [| exact Hlen | rewrite Hreads; exact Ht | exact H6].
      rewrite Hreads in Hv. exact Hv.
    + intros [H6 Hv]. split; [exact H6 |].
      apply (totp_verify_result env _ hex _ Hk0);
        [exact Hlen | rewrite Hreads; exact Ht | exact H6 |].
      rewrite Hreads. exact Hv.
  - rewrite Hauth. reflexivity.
  - intros Hn6. assert (Hotp : is_otp (request br) = false).
    { destruct (is_otp (request br)) eqn:E; [| reflexivity].
      apply is_otp_six_digits in E. contradiction. }
    rewrite Hotp in Hgate. congruence.
Qed.

Lemma otp_accepted_iff_witness :
  owner_request sample_state (text_request 1 "394048") /\
  kv sample_state !! "totp_secret"
    = Some "000102030405060708090a0b0c0d0e0f10111213" /\
  0 <= time_at sample_env (clock_reads (gate_closed_state sample_state))
    < 2 ^ 63 /\
  Authenticated
    (final_state
       (handle_request (text_request 1 "394048") sample_env sample_state))
  = true.
Proof.
  assert (Ho : owner_request sample_state (text_request 1 "394048"))
    by (right; reflexivity).
  assert (Ht : 0 <= time_at sample_env
                      (clock_reads (gate_closed_state sample_state)) < 2 ^ 63)
    by (vm_compute; split; [discriminate | reflexivity]).
  destruct (otp_accepted_iff sample_env sample_state
              (text_request 1 "394048")
              "000102030405060708090a0b0c0d0e0f10111213"
              Ho eq_refl eq_refl (or_introl eq_refl) eq_refl eq_refl Ht)
    as [Hiff _].
  split; [exact Ho |]. split; [reflexivity |]. split; [exact Ht |].
  apply Hiff. split.
  - split; [reflexivity |]. vm_compute. repeat constructor; discriminate.
  - exists 56666666. split; [right; left; reflexivity | reflexivity].
Defined.

(** ** The dispatch *)

Lemma handle_request_accepted br env s :
  owner_request s br -> gate_open env s ->
  handle_request br env s =
  let '(u, s3, o3) :=
    handle_request_dispatch br env
      (gate_passed_state env (after_owner br env s)) in
  (u, s3, events (handle_request_owner br env s) ++ o3).
Proof.
  intros Ho Hg.
  destruct (after_owner_fields br env s)
    as (_ & _ & _ & _ & _ & _ & (Hw1 & Ha1 & Hl1 & Hc1) & _).
  rewrite (handle_request_of_owner br env s Ho). cbv zeta.
  unfold gate_passed_state. rewrite Hw1.
  destruct Hg as [Hw | [Ha Hlive]].
  - rewrite gate_weak by congruence. rewrite Hw.
    destruct (handle_request_dispatch _ _ _) as [[u s3] o3]. reflexivity.
  - destruct (WeakSecurity s) eqn:Hw.
    + rewrite gate_weak by congruence.
      destruct (handle_request_dispatch _ _ _) as [[u s3] o3]. reflexivity.
    + rewrite gate_fresh
        by (rewrite ?expired_after_owner; congruence || assumption).
      destruct (handle_request_dispatch _ _ _) as [[u s3] o3]. reflexivity.
Qed.

(** What the dispatch finds of the state the request arrived in. *)
Lemma gate_passed_fields br env s :
  let s2 := gate_passed_state env (after_owner br env s) in
  DangerMode s2 = DangerMode s /\ WindowList s2 = WindowList s /\
  WindowCount s2 = WindowCount s /\ OtpTimeout s2 = OtpTimeout s /\
  connection s2 = connection s /\ plat_calls s2 = plat_calls s.
Proof.
  destruct (after_owner_fields br env s)
    as (H1 & H2 & H3 & H4 & H5 & H6 & _ & _).
  unfold gate_passed_state.
  destruct (WeakSecurity (after_owner br env s)); unfold connection in *;
    simpl; repeat split; assumption.
Qed.

Lemma tolower_digit c : isdigit c = true -> tolower c = c.
Proof.
  unfold isdigit, tolower. intros H. apply andb_true_iff in H.
  destruct H as [_ H]. apply Z.leb_le in H.
  replace (65 <=? c) with false by (symmetry; apply Z.leb_gt; lia).
  reflexivity.
Qed.

(** Equality with a dot command fixes the second byte up to case. *)
Lemma strcasecmp_second req c cmd :
  strcasecmp req (String "." (String c cmd)) = 0 ->
  tolower (char_at req 1) = tolower (uchar c).
Proof.
  unfold strcasecmp, char_at, byte_at.
  change (bytes (String "." (String c cmd))) with (46 :: uchar c :: bytes cmd).
  destruct (bytes req) as [|a [|b l]]; simpl.
  - change (tolower 46) with 46. lia.
  - destruct (Z.eqb_spec (tolower a) (tolower 46)); [| lia].
    change (tolower 0) with 0. lia.
  - destruct (Z.eqb_spec (tolower a) (tolower 46)); [| lia].
    destruct (Z.eqb_spec (tolower b) (tolower (uchar c))); lia.
Qed.

Lemma strncasecmp_second req c cmd n :
  strncasecmp req (String "." (String c cmd)) (S (S n)) = 0 ->
  tolower (char_at req 1) = tolower (uchar c).
Proof.
  unfold strncasecmp, char_at, byte_at.
  change (bytes (String "." (String c cmd))) with (46 :: uchar c :: bytes cmd).
  destruct (bytes req) as [|a [|b l]]; simpl.
  - change (tolower 46) with 46. lia.
  - destruct (Z.eqb_spec (tolower a) (tolower 46)); [| lia].
    change (tolower 0) with 0. lia.
  - destruct (Z.eqb_spec (tolower a) (tolower 46)); [| lia].
    destruct (Z.eqb_spec (tolower b) (tolower (uchar c))); lia.
Qed.

(** A dot followed by a digit is none of the named commands. *)
Lemma dot_digit_not_named req :
  isdigit (char_at req 1) = true ->
  (strcasecmp req ".list" =? 0) = false /\
  (strcasecmp req ".help" =? 0) = false /\
  (strncasecmp req ".otptimeout" 11 =? 0) = false.
Proof.
  intros Hd. pose proof (tolower_digit _ Hd) as Hl.
  unfold isdigit in Hd. apply andb_true_iff in Hd. destruct Hd as [_ Hd].
  apply Z.leb_le in Hd.
  repeat split; apply Z.eqb_neq; intros H.
  - apply strcasecmp_second in H. rewrite Hl in H.
    change (tolower (uchar "l")) with 108 in H. lia.
  - apply strcasecmp_second in H. rewrite Hl in H.
    change (tolower (uchar "h")) with 104 in H. lia.
  - apply strncasecmp_second in H. rewrite Hl in H.
    change (tolower (uchar "o")) with 111 in H. lia.
Qed.

(** The [.otptimeout] prefix is neither [.list] nor [.help]. *)
Lemma otptimeout_not_named req :
  strncasecmp req ".otptimeout" 11 = 0 ->
  (strcasecmp req ".list" =? 0) = false /\
  (strcasecmp req ".help" =? 0) = false.
Proof.
  intros Ho. apply strncasecmp_second in Ho.
  change (tolower (uchar "o")) with 111 in Ho.
  split; apply Z.eqb_neq; intros H; apply strcasecmp_second in H;
    rewrite Ho in H; discriminate H.
Qed.

Lemma dispatch_otptimeout br env s :
  is_callback br = false ->
  strncasecmp (request br) ".otptimeout" 11 = 0 ->
  handle_request_dispatch br env s =
  let secs := otptimeout_secs (skip_blanks (str_from 11 (request br))) in
  (tt,
   set_kv (<["otp_timeout" := snprintf 64 (dec secs)]> (kv s))
     (set_OtpTimeout secs s),
   [BotSendMessage (target br)
      ("OTP timeout set to " +:+ dec secs +:+ " seconds.") 0]).
Proof.
  intros Hcb Hcmd. destruct (otptimeout_not_named _ Hcmd) as [Hl Hh].
  unfold handle_request_dispatch. rewrite Hcb, Hl, Hh, Hcmd.
  reflexivity.
Qed.

(** The two outcomes of the connect command [.N]. *)
Lemma dispatch_connect br env s :
  is_callback br = false ->
  char_at (request br) 0 = 46 -> isdigit (char_at (request br) 1) = true ->
  handle_request_dispatch br env s =
  let n := atoi (str_from 1 (request br)) in
  let l := listed_windows env s in
  let s1 :=
    set_windows l (Z.of_nat (length l)) (tick_plat (set_windows [] 0 s)) in
  if (n <? 1) || (n >? Z.of_nat (length l)) then
    (tt, s1, [BotSendMessage (target br) "Invalid window number." 0])
  else
    let w := nth (Z.to_nat (n - 1)) l no_window in
    let s2 :=
      set_connection true (window_id w) (pid w) (strncpy 127 (owner w))
        (strncpy 255 (title w)) s1 in
    let msg := "Connected to " +:+ strncpy 127 (owner w) in
    let msg :=
      if negb (char_at (strncpy 255 (title w)) 0 =? 0)
      then msg +:+ " - " +:+ strncpy 255 (title w) else msg in
    (tt, tick_plat s2,
     [BotSendMessage (target br) msg 0; PlatRaiseWindow (pid w) (window_id w)]
     ++ (if plat_capture_window_at env (plat_calls s2) (window_id w)
              SCREENSHOT_PATH =? 0
         then [BotSendImageWithKeyboard (target br) SCREENSHOT_PATH
                 REFRESH_BTN REFRESH_DATA]
         else [])).
Proof.
  intros Hcb Hdot Hdig. destruct (dot_digit_not_named _ Hdig) as (Hl & Hh & Ho).
  unfold handle_request_dispatch. rewrite Hcb, Hl, Hh, Ho, Hdot, Hdig.
  cbv zeta. unfold refresh_window_list, free_window_list, send_screenshot,
    capture_connected_window, listed_windows. run_prog. simpl.
  destruct ((_ <? 1) || _); [reflexivity |]. simpl.
  match goal with
  | |- context [plat_capture_window_at ?a ?b ?c ?d =? 0] =>
      destruct (plat_capture_window_at a b c d =? 0)
  end; reflexivity.
Qed.

Lemma otptimeout_secs_clamp arg :
  otptimeout_secs arg = Z.max 30 (Z.min 28800 (atoi arg)).
Proof.
  unfold otptimeout_secs. cbv zeta.
  destruct (Z.ltb_spec (atoi arg) 30).
  - change (30 >? 28800) with false. cbv iota. lia.
  - destruct (Z.gtb_spec (atoi arg) 28800); lia.
Qed.

Lemma pretty_N_go_length (k : nat) : forall (x : N) (s : string),
  (x < 10 ^ N.of_nat k)%N ->
  (String.length (pretty_N_go x s) <= k + String.length s)%nat.
Proof.
  induction k as [|k IH]; intros x s Hx.
  - assert (x = 0%N) by (simpl in Hx; lia). subst x.
    rewrite pretty_N_go_0. simpl. lia.
  - destruct (N.eq_dec x 0%N) as [-> | Hne].
    + rewrite pretty_N_go_0. lia.
    + rewrite pretty_N_go_step by lia.
      etransitivity; [apply IH |].
      * apply N.Div0.div_lt_upper_bound.
        rewrite Nat2N.inj_succ, N.pow_succ_r' in Hx. exact Hx.
      * simpl. lia.
Qed.

Lemma substring_all (n : nat) : forall s : string,
  (String.length s <= n)%nat -> String.substring 0 n s = s.
Proof.
  induction n as [|n IH]; intros [|c s] H; simpl in *; try reflexivity.
  - lia.
  - rewrite IH by lia. reflexivity.
Qed.

(** No value of the clamped range is cut by the 64-byte buffer. *)
Lemma snprintf_dec_secs secs :
  30 <= secs <= 28800 -> snprintf 64 (dec secs) = dec secs.
Proof.
  intros H. unfold snprintf. apply substring_all.
  destruct secs as [|p|p]; try lia.
  unfold dec, pretty, pretty_Z, pretty, pretty_positive, pretty, pretty_N.
  destruct (decide (N.pos p = 0%N)); [discriminate |].
  pose proof (pretty_N_go_length 5 (N.pos p) "") as Hlen.
  simpl in Hlen. assert ((N.pos p < 100000)%N) by lia.
  specialize (Hlen H0). change (64 - 1)%nat with 63%nat. lia.
Qed.

(** C7: whatever follows [.otptimeout], the command is carried out: the
    timeout in memory and the value in the store both become the number
    [atoi] reads there clamped to 30..28800, and the reply names that
    value; [.otptimeout 5] gives 30 and [.otptimeout 999999] 28800. *)
Theorem otptimeout_clamped (env : Env) (st : State) (br : BotRequest) :
  owner_request st br -> gate_open env st -> is_callback br = false ->
  strncasecmp (request br) ".otptimeout" 11 = 0 ->
  let n := skip_blanks (str_from 11 (request br)) in
  let secs := Z.max 30 (Z.min 28800 (atoi n)) in
  let r := handle_request br env st in
  OtpTimeout (final_state r) = secs /\
  kv (final_state r) !! "otp_timeout" = Some (dec secs) /\
  replies r =
    [BotSendMessage (target br)
       ("OTP timeout set to " +:+ dec secs +:+ " seconds.") 0] /\
  (request br = ".otptimeout 5" -> secs = 30) /\
  (request br = ".otptimeout 999999" -> secs = 28800).
Proof.
  intros Ho Hg Hcb Hcmd n secs r. subst r.
  rewrite (handle_request_accepted br env st Ho Hg).
  rewrite (dispatch_otptimeout br env _ Hcb Hcmd). cbv zeta.
  fold n. rewrite (otptimeout_secs_clamp n). fold secs.
  pose proof (owner_events_no_reply br env st) as Hno.
  unfold replies, final_state, events in *. cbn [fst snd].
  rewrite List.filter_app, Hno. cbn [List.filter is_reply app].
  assert (Hrange : 30 <= secs <= 28800) by (unfold secs; lia).
  rewrite (snprintf_dec_secs secs Hrange).
  split; [reflexivity |]. split; [apply lookup_insert_eq |].
  split; [reflexivity |].
  split; intros Hreq; unfold secs, n; rewrite Hreq; reflexivity.
Qed.

Lemma otptimeout_clamped_witness :
  owner_request sample_authenticated (text_request 1 ".otptimeout 999999") /\
  gate_open sample_env sample_authenticated /\
  let r := handle_request (text_request 1 ".otptimeout 999999") sample_env
             sample_authenticated in
  OtpTimeout (final_state r) = 28800 /\
  kv (final_state r) !! "otp_timeout" = Some "28800" /\
  replies r = [BotSendMessage 77 "OTP timeout set to 28800 seconds." 0].
Proof.
  assert (Ho : owner_request sample_authenticated
                 (text_request 1 ".otptimeout 999999"))
    by (right; reflexivity).
  assert (Hg : gate_open sample_env sample_authenticated).
  { right. split; [reflexivity |]. intros E. vm_compute in E. discriminate E. }
  destruct (otptimeout_clamped sample_env sample_authenticated
              (text_request 1 ".otptimeout 999999") Ho Hg eq_refl eq_refl)
    as (H1 & H2 & H3 & _).
  split; [exact Ho |]. split; [exact Hg |].
  split; [exact H1 |]. split; [exact H2 | exact H3].
Defined.

(** C8: a connect command whose number is outside 1..count of the list
    just fetched, 0 included, is answered with the invalid-number
    message and leaves the five globals of the connection as they
    were. *)
Theorem invalid_window_number (env : Env) (st : State) (br : BotRequest) :
  owner_request st br -> gate_open env st -> is_callback br = false ->
  char_at (request br) 0 = 46 -> isdigit (char_at (request br) 1) = true ->
  let N := atoi (str_from 1 (request br)) in
  let count := Z.of_nat (length (listed_windows env st)) in
  N < 1 \/ N > count ->
  let r := handle_request br env st in
  replies r = [BotSendMessage (target br) "Invalid window number." 0] /\
  connection (final_state r) = connection st.
Proof.
  intros Ho Hg Hcb Hdot Hdig N count Hout r. subst r.
  rewrite (handle_request_accepted br env st Ho Hg).
  rewrite (dispatch_connect br env _ Hcb Hdot Hdig). cbv zeta.
  destruct (gate_passed_fields br env st) as (Hdm & _ & _ & _ & Hconn & Hpc).
  cbv zeta in Hdm, Hconn, Hpc.
  assert (Hl : listed_windows env
                 (gate_passed_state env (after_owner br env st))
               = listed_windows env st).
  { unfold listed_windows. rewrite Hdm, Hpc. reflexivity. }
  rewrite Hl. fold N count.
  assert (Hb : (N <? 1) || (N >? count) = true).
  { apply orb_true_iff. destruct Hout; [left | right].
    - apply Z.ltb_lt. assumption.
    - apply Z.gtb_lt. lia. }
  rewrite Hb.
  pose proof (owner_events_no_reply br env st) as Hno.
  unfold replies, final_state, events in *. cbn [fst snd].
  rewrite List.filter_app, Hno. split; [reflexivity |].
  rewrite <- Hconn. reflexivity.
Qed.

Lemma invalid_window_number_witness :
  owner_request sample_connected (text_request 1 ".0") /\
  gate_open sample_env sample_connected /\
  atoi (str_from 1 ".0") < 1 /\
  let r := handle_request (text_request 1 ".0") sample_env sample_connected in
  replies r = [BotSendMessage 77 "Invalid window number." 0] /\
  connection (final_state r) = (true, 11, 5, "xterm", "bash").
Proof.
  assert (Ho : owner_request sample_connected (text_request 1 ".0"))
    by (right; reflexivity).
  assert (Hg : gate_open sample_env sample_connected).
  { right. split; [reflexivity |]. intros E. vm_compute in E. discriminate E. }
  assert (Hn : atoi (str_from 1 ".0") < 1) by reflexivity.
  destruct (invalid_window_number sample_env sample_connected
              (text_request 1 ".0") Ho Hg eq_refl eq_refl eq_refl
              (or_introl Hn)) as [H1 H2].
  split; [exact Ho |]. split; [exact Hg |]. split; [exact Hn |].
  split; [exact H1 | exact H2].
Defined.







(** ** The keystroke encoder *)

(** *** The matchers are prefix tests *)

Ltac byte_reads :=
  unfold byte_at;
  change (Z.to_nat 0) with 0%nat; change (Z.to_nat 1) with 1%nat;
  change (Z.to_nat 2) with 2%nat; change (Z.to_nat 3) with 3%nat;
  change (Z.to_nat 4) with 4%nat; change (Z.to_nat 5) with 5%nat;
  cbn [nth].

Ltac length_tests :=
  cbn [length]; rewrite ?Nat2Z.inj_succ;
  repeat match goal with
         | |- context [Z.geb ?a ?b] =>
             destruct (Z.geb_spec a b); try (exfalso; lia)
         | |- context [Z.gtb ?a ?b] =>
             destruct (Z.gtb_spec a b); try (exfalso; lia)
         end;
  cbn [andb].

Ltac byte_tests :=
  repeat match goal with
         | |- context [Z.eqb ?a ?b] => destruct (Z.eqb a b)
         end;
  try reflexivity.

Lemma match_red_heart_spec p :
  match_red_heart p (Z.of_nat (length p)) =
  if starts_with RED_HEART_VS p then 6
  else if starts_with RED_HEART p then 3 else 0.
Proof.
  unfold match_red_heart, RED_HEART_VS, RED_HEART.
  destruct p as [|a [|b [|c [|d [|e [|f q]]]]]];
    byte_reads; length_tests; cbn [starts_with andb]; byte_tests.
Qed.

Lemma match_orange_heart_spec p :
  match_orange_heart p (Z.of_nat (length p)) =
  if starts_with ORANGE_HEART p then 4 else 0.
Proof.
  unfold match_orange_heart, ORANGE_HEART.
  destruct p as [|a [|b [|c [|d q]]]];
    byte_reads; length_tests; cbn [starts_with andb]; byte_tests.
Qed.

Lemma match_colored_heart_spec p heart :
  match_colored_heart p (Z.of_nat (length p)) heart =
  if starts_with BLUE_HEART p then (4, "B"%char)
  else if starts_with GREEN_HEART p then (4, "G"%char)
  else if starts_with YELLOW_HEART p then (4, "Y"%char)
  else (0, heart).
Proof.
  unfold match_colored_heart, BLUE_HEART, GREEN_HEART, YELLOW_HEART.
  destruct p as [|a [|b [|c [|d q]]]];
    byte_reads; length_tests; cbn [starts_with andb]; byte_tests.
Qed.

Lemma match_purple_heart_spec p :
  match_purple_heart p (Z.of_nat (length p)) =
  if starts_with PURPLE_HEART p then 4 else 0.
Proof.
  unfold match_purple_heart, PURPLE_HEART.
  destruct p as [|a [|b [|c [|d q]]]];
    byte_reads; length_tests; cbn [starts_with andb]; byte_tests.
Qed.

Lemma starts_with_backslash x p :
  starts_with [92; x] p =
  (byte_at p 0 =? 92) && (Z.of_nat (length p) >? 1) && (byte_at p 1 =? x).
Proof.
  destruct p as [|a [|b q]];
    byte_reads; length_tests; cbn [starts_with andb]; byte_tests.
Qed.

Lemma starts_with_red_vs p :
  starts_with RED_HEART_VS p = true -> starts_with RED_HEART p = true.
Proof.
  unfold RED_HEART_VS, RED_HEART.
  destruct p as [|a [|b [|c q]]]; cbn [starts_with andb];
    repeat match goal with
           | |- context [Z.eqb ?x ?y] => destruct (Z.eqb x y)
           end;
    cbn [andb]; intros H; try reflexivity; discriminate H.
Qed.

(** An iteration of the loop takes the token at the head of [p]. *)
Lemma send_keys_step_by_token pid p v :
  send_keys_step pid p v = step_by_token pid p v.
Proof.
  unfold send_keys_step, step_by_token.
  rewrite match_red_heart_spec, match_orange_heart_spec,
    match_colored_heart_spec, !starts_with_backslash.
  pose proof (starts_with_red_vs p) as Hvs.
  destruct (starts_with RED_HEART_VS p).
  { rewrite Hvs by reflexivity. reflexivity. }
  clear Hvs.
  destruct (starts_with RED_HEART p); [reflexivity |].
  destruct (starts_with ORANGE_HEART p); [reflexivity |].
  destruct (starts_with BLUE_HEART p); [reflexivity |].
  destruct (starts_with GREEN_HEART p); [reflexivity |].
  destruct (starts_with YELLOW_HEART p); [reflexivity |].
  change (0 >? 0) with false. cbv iota.
  destruct (byte_at p 0 =? 92); [| reflexivity].
  destruct (Z.of_nat (length p) >? 1); [| reflexivity].
  cbn [andb].
  destruct (byte_at p 1 =? 110); [reflexivity |].
  destruct (byte_at p 1 =? 116); [reflexivity |].
  destruct (byte_at p 1 =? 92); reflexivity.
Qed.

(** *** The loop ends with the bytes, never with the fuel *)

Lemma step_by_token_shrinks pid p v :
  p <> [] -> (length (step_by_token pid p v).1.2 < length p)%nat.
Proof.
  intros Hp.
  assert (0 < length p)%nat by (destruct p; simpl; [congruence | lia]).
  unfold step_by_token.
  repeat match goal with
         | |- context [if ?c then _ else _] => destruct c
         end;
    cbn [fst snd]; rewrite length_drop; lia.
Qed.

Lemma send_keys_loop_more_fuel pid : forall fuel p v,
  (length p <= fuel)%nat ->
  send_keys_loop (S fuel) pid p v = send_keys_loop fuel pid p v.
Proof.
  induction fuel as [|fuel IH]; intros p v Hlen.
  - destruct p; [reflexivity | simpl in Hlen; lia].
  - cbn [send_keys_loop]. destruct (Z.of_nat (length p) >? 0) eqn:E;
      [| reflexivity].
    assert (Hp : p <> []) by (intros ->; discriminate E).
    pose proof (step_by_token_shrinks pid p v Hp) as Hs.
    rewrite send_keys_step_by_token.
    destruct (step_by_token pid p v) as [[out p'] v']. cbn [fst snd] in Hs.
    rewrite <- (IH p' v') by lia. reflexivity.
Qed.

(** Any fuel from the length of [p] on gives the run over all of [p]. *)
Lemma send_keys_loop_fuel pid p v fuel :
  (length p <= fuel)%nat ->
  send_keys_loop fuel pid p v = scan_keys pid p v.
Proof.
  unfold scan_keys. intros H.
  induction H as [|fuel H IH]; [reflexivity |].
  rewrite send_keys_loop_more_fuel by exact H. exact IH.
Qed.

Lemma scan_keys_nil pid v : scan_keys pid [] v = ([], v).
Proof. reflexivity. Qed.

Lemma scan_keys_step pid p v :
  p <> [] ->
  scan_keys pid p v =
  let '(out, p', v') := step_by_token pid p v in
  let '(outs, v'') := scan_keys pid p' v' in
  (out ++ outs, v'').
Proof.
  intros Hp. pose proof (step_by_token_shrinks pid p v Hp) as Hs.
  unfold scan_keys at 1. destruct p as [|a q]; [congruence |].
  cbn [length send_keys_loop].
  replace (Z.of_nat (S (length q)) >? 0) with true
    by (symmetry; apply Z.gtb_lt; lia).
  change (S (length q)) with (length (a :: q)) in Hs.
  rewrite send_keys_step_by_token.
  destruct (step_by_token pid (a :: q) v) as [[out p'] v'].
  cbn [fst snd length] in Hs.
  rewrite send_keys_loop_fuel by lia. reflexivity.
Qed.


(** *** Scanning a text in two parts

    Byte [0xF0] opens the four-byte hearts and occurs in no token at any
    other place, so a scan that meets it has finished every token before
    it. *)

Lemma starts_with_app_tail r : forall glyph pre,
  Forall (fun x => x <> 0xF0) glyph ->
  starts_with glyph (pre ++ 0xF0 :: r) = starts_with glyph pre.
Proof.
  induction glyph as [|x glyph IH]; intros pre Hg; [reflexivity |].
  inversion Hg as [|? ? Hx Hg']; subst.
  destruct pre as [|y pre]; cbn [app starts_with].
  - replace (0xF0 =? x) with false by (symmetry; apply Z.eqb_neq; congruence).
    reflexivity.
  - rewrite IH by exact Hg'. reflexivity.
Qed.

Lemma starts_with_app r x glyph pre :
  pre <> [] -> Forall (fun x => x <> 0xF0) glyph ->
  starts_with (x :: glyph) (pre ++ 0xF0 :: r) = starts_with (x :: glyph) pre.
Proof.
  intros Hp Hg. destruct pre as [|y pre]; [congruence |].
  cbn [app starts_with]. rewrite starts_with_app_tail by exact Hg.
  reflexivity.
Qed.

Lemma starts_with_length : forall glyph p,
  starts_with glyph p = true -> (length glyph <= length p)%nat.
Proof.
  induction glyph as [|x glyph IH]; intros p H; [simpl; lia |].
  destruct p as [|y p]; [discriminate H |].
  cbn [starts_with] in H. apply andb_true_iff in H. destruct H as [_ H].
  apply IH in H. simpl. lia.
Qed.

Ltac no_f0 := repeat constructor; discriminate.

Lemma step_by_token_app pid pre r v :
  pre <> [] ->
  step_by_token pid (pre ++ 0xF0 :: r) v =
  let '(out, p', v') := step_by_token pid pre v in
  (out, p' ++ 0xF0 :: r, v').
Proof.
  intros Hp. unfold step_by_token.
  unfold RED_HEART, RED_HEART_VS, ORANGE_HEART, BLUE_HEART, GREEN_HEART,
    YELLOW_HEART.
  rewrite !(starts_with_app r) by (exact Hp || no_f0).
  assert (Hb : byte_at (pre ++ 0xF0 :: r) 0 = byte_at pre 0)
    by (destruct pre; [congruence | reflexivity]).
  assert (H1 : (1 <= length pre)%nat)
    by (destruct pre; [congruence | simpl; lia]).
  rewrite Hb.
  repeat match goal with
         | |- context [if starts_with ?g pre then _ else _] =>
             let E := fresh "E" in
             destruct (starts_with g pre) eqn:E;
             [apply starts_with_length in E; cbn [length] in E |]
         end;
    rewrite drop_app_le by lia; reflexivity.
Qed.

(** The scan of [pre ++ rest], when [rest] opens with [0xF0], is the scan
    of [pre] followed by the scan of [rest] on the locals [pre] left. *)
Lemma scan_keys_app pid r : forall pre v,
  scan_keys pid (pre ++ 0xF0 :: r) v =
  let '(keys1, v1) := scan_keys pid pre v in
  let '(keys2, v2) := scan_keys pid (0xF0 :: r) v1 in
  (keys1 ++ keys2, v2).
Proof.
  intros pre. remember (length pre) as n eqn:Hn.
  revert pre Hn. induction n as [n IH] using lt_wf_ind. intros pre Hn v.
  destruct pre as [|a q].
  - rewrite scan_keys_nil. cbn [app].
    destruct (scan_keys pid (0xF0 :: r) v). reflexivity.
  - assert (Hp : a :: q <> []) by discriminate.
    rewrite (scan_keys_step pid ((a :: q) ++ 0xF0 :: r)) by discriminate.
    rewrite (scan_keys_step pid (a :: q)) by discriminate.
    rewrite (step_by_token_app pid (a :: q) r v Hp).
    pose proof (step_by_token_shrinks pid (a :: q) v Hp) as Hs.
    destruct (step_by_token pid (a :: q) v) as [[out p'] v'].
    cbn [fst snd] in Hs.
    rewrite (IH (length p')) by (subst n; lia || reflexivity).
    destruct (scan_keys pid p' v') as [keys1 v1].
    destruct (scan_keys pid (0xF0 :: r) v1) as [keys2 v2].
    rewrite app_assoc. reflexivity.
Qed.

(** *** What [send_keys] emits *)

Lemma emit_all_eq l env s : emit_all l env s = (tt, s, l).
Proof.
  induction l as [|e l IH]; [reflexivity |].
  cbn [emit_all]. unfold bind, emit. rewrite IH. reflexivity.
Qed.

Lemma send_keys_eq text env s :
  Connected s = true ->
  send_keys text env s =
  let '(keys, v) := scan_keys (ConnectedPid s) (scanned_bytes text)
                      key_vars_init in
  (0, s,
   PlatRaiseWindow (ConnectedPid s) (ConnectedWid s)
   :: keys ++ trailing_return (ConnectedPid s) (auto_newline text v)).
Proof.
  intros Hc. unfold send_keys, scan_keys, auto_newline, trailing_return.
  unfold bind at 1. unfold get at 1. rewrite Hc. cbn [negb].
  unfold bind at 1. unfold get at 1.
  unfold bind at 1. unfold get at 1.
  unfold bind at 1. unfold emit at 1. cbv zeta.
  destruct (send_keys_loop _ _ _ _) as [keys v].
  unfold bind at 1. rewrite emit_all_eq.
  destruct (_ && _ && _); run_prog; cbn; rewrite ?app_nil_r; reflexivity.
Qed.

(** *** The purple heart at the end *)

Lemma starts_with_prefix : forall glyph p,
  starts_with glyph p = true <-> exists q, p = glyph ++ q.
Proof.
  induction glyph as [|x glyph IH]; intros p.
  - split; [exists p; reflexivity | reflexivity].
  - destruct p as [|y p]; cbn [starts_with].
    + split; [discriminate | intros [q Hq]; discriminate Hq].
    + rewrite andb_true_iff, Z.eqb_eq, IH. split.
      * intros [-> [q ->]]. exists q. reflexivity.
      * intros [q Hq]. injection Hq as -> ->. split; [reflexivity | eauto].
Qed.

Lemma strlen_bytes text : strlen text = Z.of_nat (length (bytes text)).
Proof. unfold strlen. rewrite length_bytes. reflexivity. Qed.

Lemma ends_with_purple_heart_spec text :
  ends_with_purple_heart text = true <->
  exists pre, bytes text = pre ++ PURPLE_HEART.
Proof.
  unfold ends_with_purple_heart. rewrite strlen_bytes. cbv zeta.
  set (l := bytes text). split.
  - destruct (Z.geb_spec (Z.of_nat (length l)) 4) as [Hlen | Hlen];
      [| discriminate].
    intros H. apply negb_true_iff, Z.eqb_neq in H.
    set (p := drop (Z.to_nat (Z.of_nat (length l) - 4)) l) in *.
    assert (Hp : length p = 4%nat) by (unfold p; rewrite length_drop; lia).
    change 4 with (Z.of_nat 4) in H. rewrite <- Hp in H.
    rewrite match_purple_heart_spec in H.
    destruct (starts_with PURPLE_HEART p) eqn:E; [| congruence].
    apply starts_with_prefix in E. destruct E as [q Hq].
    assert (q = []).
    { rewrite Hq in Hp. rewrite length_app in Hp. simpl in Hp.
      destruct q; [reflexivity | simpl in Hp; lia]. }
    subst q. rewrite app_nil_r in Hq.
    exists (take (Z.to_nat (Z.of_nat (length l) - 4)) l).
    rewrite <- Hq. unfold p. symmetry. apply take_drop.
  - intros [pre Hpre]. rewrite Hpre, length_app.
    change (length PURPLE_HEART) with 4%nat.
    replace (Z.of_nat (length pre + 4) >=? 4) with true
      by (symmetry; apply Z.geb_le; lia).
    replace (Z.to_nat (Z.of_nat (length pre + 4) - 4)) with (length pre) by lia.
    rewrite drop_app_length. reflexivity.
Qed.

Lemma scanned_bytes_final pre text :
  bytes text = pre ++ PURPLE_HEART -> scanned_bytes text = pre.
Proof.
  intros H. unfold scanned_bytes.
  replace (ends_with_purple_heart text) with true
    by (symmetry; apply ends_with_purple_heart_spec; eauto).
  rewrite strlen_bytes, H, length_app. cbn [negb andb length PURPLE_HEART].
  replace (Z.of_nat (length pre + 4) >=? 4) with true
    by (symmetry; apply Z.geb_le; lia).
  replace (Z.to_nat (Z.of_nat (length pre + 4) - 4)) with (length pre) by lia.
  apply take_app_length.
Qed.

Lemma scanned_bytes_all text :
  ends_with_purple_heart text = false -> scanned_bytes text = bytes text.
Proof.
  intros H. unfold scanned_bytes. rewrite H. cbn [negb andb].
  rewrite strlen_bytes, Nat2Z.id. apply firstn_all.
Qed.

(** *** The counters of the loop and the keys it sent *)

Lemma last_is_return_snoc keys e :
  last_is_return (keys ++ [e]) = is_return_key e.
Proof. unfold last_is_return. rewrite last_snoc. reflexivity. Qed.

Lemma vars_track_key keys v pid special ch nl :
  vars_track keys v ->
  (special =? PLAT_KEY_ESCAPE) = false ->
  (special =? PLAT_KEY_RETURN) = nl ->
  vars_track (keys ++ [PlatSendKey pid special ch (mods v)]) (after_key nl v).
Proof.
  intros (Hk & Hh & Hl) Hesc Hret. unfold vars_track, after_key.
  cbn [keycount had_mods last_was_nl].
  rewrite length_app, existsb_app, last_is_return_snoc.
  unfold marks_had_mods at 2. unfold carried_modifier, is_escape_key,
    is_return_key. cbn [length existsb].
  rewrite Hesc, Hret, <- Hh, Hk.
  repeat split; [lia |].
  destruct (mods v =? 0), (had_mods v); reflexivity.
Qed.

Lemma vars_track_mods keys v m :
  vars_track keys v -> vars_track (keys ++ []) (or_mods m v).
Proof. rewrite app_nil_r. intros H. exact H. Qed.

Lemma step_by_token_tracks pid p v keys :
  vars_track keys v ->
  vars_track (keys ++ (step_by_token pid p v).1.1) (step_by_token pid p v).2.
Proof.
  intros H. unfold step_by_token.
  repeat match goal with
         | |- context [if starts_with ?g p then _ else _] =>
             destruct (starts_with g p)
         end;
    cbn [fst snd];
    try (apply vars_track_mods; exact H);
    try (apply vars_track_key; [exact H | reflexivity | reflexivity]).
  destruct H as (Hk & Hh & Hl). unfold vars_track.
  cbn [keycount had_mods last_was_nl].
  rewrite length_app, existsb_app, last_is_return_snoc.
  unfold marks_had_mods at 2. unfold carried_modifier, is_escape_key,
    is_return_key. cbn [length existsb].
  change (PLAT_KEY_ESCAPE =? PLAT_KEY_ESCAPE) with true.
  change (PLAT_KEY_ESCAPE =? PLAT_KEY_RETURN) with false.
  rewrite Hk, !orb_true_r. repeat split; lia.
Qed.

Lemma scan_keys_tracks pid : forall p keys v,
  vars_track keys v ->
  vars_track (keys ++ (scan_keys pid p v).1) (scan_keys pid p v).2.
Proof.
  intros p. remember (length p) as n eqn:Hn. revert p Hn.
  induction n as [n IH] using lt_wf_ind. intros p Hn keys v H.
  destruct p as [|a q].
  - rewrite scan_keys_nil, app_nil_r. exact H.
  - assert (Hp : a :: q <> []) by discriminate.
    rewrite (scan_keys_step pid (a :: q) v Hp).
    pose proof (step_by_token_shrinks pid (a :: q) v Hp) as Hs.
    pose proof (step_by_token_tracks pid (a :: q) v keys H) as Ht.
    destruct (step_by_token pid (a :: q) v) as [[out p'] v'].
    cbn [fst snd] in Hs, Ht.
    pose proof (IH (length p') ltac:(subst n; exact Hs) p' eq_refl
                  (keys ++ out) v' Ht) as Hrec.
    destruct (scan_keys pid p' v') as [outs v''].
    cbn [fst snd] in *. rewrite app_assoc. exact Hrec.
Qed.

(** The two counters the final test reads, by the keys sent. *)
Lemma final_test_by_keys keys v :
  vars_track keys v ->
  (keycount v =? 1) && had_mods v = single_marked_key keys /\
  last_was_nl v = last_is_return keys.
Proof.
  intros (Hk & Hh & Hl). split; [| exact Hl].
  rewrite Hk, Hh. destruct keys as [|e [|e' keys]].
  - reflexivity.
  - cbn [length existsb single_marked_key]. rewrite orb_false_r.
    reflexivity.
  - cbn [length single_marked_key].
    replace (Z.of_nat (S (S (length keys))) =? 1) with false
      by (symmetry; apply Z.eqb_neq; lia).
    reflexivity.
Qed.

Lemma scan_keys_only_keys pid : forall p v,
  forallb is_key (scan_keys pid p v).1 = true.
Proof.
  intros p. remember (length p) as n eqn:Hn. revert p Hn.
  induction n as [n IH] using lt_wf_ind. intros p Hn v.
  destruct p as [|a q]; [reflexivity |].
  assert (Hp : a :: q <> []) by discriminate.
  rewrite (scan_keys_step pid (a :: q) v Hp).
  pose proof (step_by_token_shrinks pid (a :: q) v Hp) as Hs.
  assert (Hout : forallb is_key (step_by_token pid (a :: q) v).1.1 = true).
  { unfold step_by_token.
    repeat match goal with
           | |- context [if starts_with ?g ?p then _ else _] =>
               destruct (starts_with g p)
           end; reflexivity. }
  destruct (step_by_token pid (a :: q) v) as [[out p'] v'].
  cbn [fst snd] in Hs, Hout.
  pose proof (IH (length p') ltac:(subst n; exact Hs) p' eq_refl v') as Hrec.
  destruct (scan_keys pid p' v') as [outs v''].
  cbn [fst snd] in *. rewrite forallb_app, Hout, Hrec. reflexivity.
Qed.

(** C4, as the code has it: after the scan [send_keys] appends the
    automatic Return, unless the text ended with the purple heart, or
    exactly one key was sent and it carried a modifier or was the Escape
    of the yellow heart, or the last key sent was a Return. *)
Theorem trailing_return_rule (env : Env) (st : State) (text : string) :
  Connected st = true ->
  let pid := ConnectedPid st in
  let keys := (scan_keys pid (scanned_bytes text) key_vars_init).1 in
  let auto :=
    negb (ends_with_purple_heart text) && negb (single_marked_key keys)
    && negb (last_is_return keys) in
  forallb is_key keys = true /\
  events (send_keys text env st) =
    PlatRaiseWindow pid (ConnectedWid st) :: keys ++ trailing_return pid auto.
Proof.
  intros Hc pid keys auto. subst auto keys pid.
  split; [apply scan_keys_only_keys |].
  rewrite (send_keys_eq text env st Hc).
  assert (H0 : vars_track [] key_vars_init) by (repeat split).
  pose proof (scan_keys_tracks (ConnectedPid st) (scanned_bytes text) []
                key_vars_init H0) as Ht.
  destruct (scan_keys (ConnectedPid st) (scanned_bytes text) key_vars_init)
    as [keys v].
  cbn [fst snd app] in *.
  destruct (final_test_by_keys keys v Ht) as [H1 H2].
  unfold events, auto_newline. cbn [snd]. rewrite H1, H2. reflexivity.
Qed.

Lemma trailing_return_rule_witness :
  Connected sample_connected = true /\
  events (send_keys "ls" sample_env sample_connected) =
    [PlatRaiseWindow 5 11; PlatSendKey 5 PLAT_KEY_CHAR 108 0;
     PlatSendKey 5 PLAT_KEY_CHAR 115 0; Usleep 50000;
     PlatSendKey 5 PLAT_KEY_RETURN 0 0].
Proof.
  split; [reflexivity |].
  exact (proj2 (trailing_return_rule sample_env sample_connected "ls" eq_refl)).
Defined.

(** C4 as stated fails on the yellow heart alone: one key is sent, the
    Escape, with no modifier; the text has no purple heart and the key
    is no Return, yet no Return is appended. *)
Lemma trailing_return_counterexample :
  ~ (forall env st text,
       Connected st = true ->
       let pid := ConnectedPid st in
       let keys := (scan_keys pid (scanned_bytes text) key_vars_init).1 in
       let auto :=
         negb (ends_with_purple_heart text) && negb (single_modified_key keys)
         && negb (last_is_return keys) in
       events (send_keys text env st) =
         PlatRaiseWindow pid (ConnectedWid st)
         :: keys ++ trailing_return pid auto).
Proof.
  intros H.
  specialize (H sample_env sample_connected (cstring YELLOW_HEART) eq_refl).
  vm_compute in H. discriminate H.
Qed.

(** *** A glyph inside the text *)

(** A glyph that ends in byte [x] does not overlap a purple heart at the
    end of the text, unless it is that heart. *)
Lemma before_final_purple (body : list Z) (x : Z) (post sc : list Z) :
  (body ++ [x]) ++ post = sc ++ PURPLE_HEART ->
  x <> 0xF0 -> x <> 0x9F -> x <> 0x92 -> (x = 0x9C -> post <> []) ->
  exists post', post = post' ++ PURPLE_HEART /\ sc = (body ++ [x]) ++ post'.
Proof.
  intros H Hf0 H9f H92 H9c.
  apply app_eq_app in H. destruct H as [l [[H1 H2] | [H1 H2]]].
  - unfold PURPLE_HEART in H2.
    destruct l as [|a [|b [|c [|d l]]]].
    + exists []. cbn [app] in H2. rewrite app_nil_r in *.
      split; [symmetry; exact H2 | symmetry; exact H1].
    + injection H2 as <- _. apply app_inj_tail in H1. tauto.
    + injection H2 as <- <- _.
      change (sc ++ [0xF0; 0x9F]) with (sc ++ [0xF0] ++ [0x9F]) in H1.
      rewrite app_assoc in H1. apply app_inj_tail in H1. tauto.
    + injection H2 as <- <- <- _.
      change (sc ++ [0xF0; 0x9F; 0x92])
        with (sc ++ [0xF0; 0x9F] ++ [0x92]) in H1.
      rewrite app_assoc in H1. apply app_inj_tail in H1. tauto.
    + injection H2 as <- <- <- <- H2.
      change (sc ++ 0xF0 :: 0x9F :: 0x92 :: 0x9C :: l)
        with (sc ++ [0xF0; 0x9F; 0x92] ++ 0x9C :: l) in H1.
      destruct l as [|e l]; [| discriminate H2].
      symmetry in H2. apply app_eq_nil in H2. destruct H2 as [_ H2].
      rewrite app_assoc in H1. apply app_inj_tail in H1.
      destruct H1 as [_ H1]. apply H9c in H1. contradiction.
  - exists l. split; [exact H2 | exact H1].
Qed.

(** The bytes scanned around a yellow or a non-final purple heart. *)
Lemma scanned_bytes_around text pre post (x : Z) :
  bytes text = pre ++ [0xF0; 0x9F; 0x92; x] ++ post ->
  x <> 0xF0 -> x <> 0x9F -> x <> 0x92 -> (x = 0x9C -> post <> []) ->
  exists post', scanned_bytes text = pre ++ [0xF0; 0x9F; 0x92; x] ++ post'.
Proof.
  intros Hb Hf0 H9f H92 H9c.
  destruct (ends_with_purple_heart text) eqn:E.
  - apply ends_with_purple_heart_spec in E. destruct E as [sc Hsc].
    rewrite (scanned_bytes_final sc text Hsc).
    rewrite Hsc in Hb.
    change (pre ++ [0xF0; 0x9F; 0x92; x] ++ post)
      with (pre ++ ([0xF0; 0x9F; 0x92] ++ [x]) ++ post) in Hb.
    rewrite !app_assoc in Hb. symmetry in Hb.
    apply before_final_purple in Hb; try assumption.
    destruct Hb as [post' [_ Hs]]. exists post'. rewrite Hs.
    rewrite <- !app_assoc. reflexivity.
  - exists post. rewrite (scanned_bytes_all text E). exact Hb.
Qed.

Lemma scan_keys_yellow pid post v :
  scan_keys pid (YELLOW_HEART ++ post) v =
  let '(keys, v') := scan_keys pid post (after_escape v) in
  (PlatSendKey pid PLAT_KEY_ESCAPE 0 0 :: keys, v').
Proof.
  rewrite scan_keys_step by discriminate. reflexivity.
Qed.

Lemma scan_keys_purple pid post v :
  scan_keys pid (PURPLE_HEART ++ post) v =
  let '(keys, v') :=
    scan_keys pid post
      (after_key false (after_key false (after_key false (after_key false v))))
  in
  ([PlatSendKey pid PLAT_KEY_CHAR 0xF0 (mods v);
    PlatSendKey pid PLAT_KEY_CHAR 0x9F 0;
    PlatSendKey pid PLAT_KEY_CHAR 0x92 0;
    PlatSendKey pid PLAT_KEY_CHAR 0x9C 0] ++ keys, v').
Proof.
  rewrite scan_keys_step by discriminate.
  change (step_by_token pid (PURPLE_HEART ++ post) v)
    with ([PlatSendKey pid PLAT_KEY_CHAR 0xF0 (mods v)],
          [0x9F; 0x92; 0x9C] ++ post, after_key false v).
  cbv iota beta.
  rewrite scan_keys_step by discriminate.
  change (step_by_token pid ([0x9F; 0x92; 0x9C] ++ post) (after_key false v))
    with ([PlatSendKey pid PLAT_KEY_CHAR 0x9F 0],
          [0x92; 0x9C] ++ post, after_key false (after_key false v)).
  cbv iota beta.
  rewrite scan_keys_step by discriminate.
  change (step_by_token pid ([0x92; 0x9C] ++ post)
            (after_key false (after_key false v)))
    with ([PlatSendKey pid PLAT_KEY_CHAR 0x92 0],
          [0x9C] ++ post,
          after_key false (after_key false (after_key false v))).
  cbv iota beta.
  rewrite scan_keys_step by discriminate.
  change (step_by_token pid ([0x9C] ++ post)
            (after_key false (after_key false (after_key false v))))
    with ([PlatSendKey pid PLAT_KEY_CHAR 0x9C 0], post,
          after_key false
            (after_key false (after_key false (after_key false v)))).
  cbv iota beta.
  destruct (scan_keys pid post _) as [keys v']. reflexivity.
Qed.

(** C5, as the code has it: where the text has the yellow heart, the
    scan sends, right after the keys of the text before it, one Escape
    with no modifier at all: the modifiers pending there are dropped,
    not carried.  The scan goes on with no modifier pending, with the
    Escape counted as a key that is no newline, and with [had_mods]
    set. *)
Theorem escape_glyph_sends_plain_escape (env : Env) (st : State)
    (text : string) (pre post : list Z) :
  Connected st = true ->
  bytes text = pre ++ YELLOW_HEART ++ post ->
  let pid := ConnectedPid st in
  exists post',
    scanned_bytes text = pre ++ YELLOW_HEART ++ post' /\
    let '(keys1, v1) := scan_keys pid pre key_vars_init in
    let '(keys2, v2) := scan_keys pid post' (after_escape v1) in
    events (send_keys text env st) =
      PlatRaiseWindow pid (ConnectedWid st)
      :: keys1 ++ [PlatSendKey pid PLAT_KEY_ESCAPE 0 0] ++ keys2
         ++ trailing_return pid (auto_newline text v2).
Proof.
  intros Hc Hb pid. subst pid.
  destruct (scanned_bytes_around text pre post 0x9B Hb)
    as [post' Hs]; try discriminate.
  exists post'. split; [exact Hs |].
  rewrite (send_keys_eq text env st Hc), Hs.
  cbn [app]. rewrite scan_keys_app.
  destruct (scan_keys (ConnectedPid st) pre key_vars_init) as [keys1 v1].
  change (0xF0 :: 0x9F :: 0x92 :: 0x9B :: post')
    with (YELLOW_HEART ++ post').
  rewrite scan_keys_yellow.
  destruct (scan_keys (ConnectedPid st) post' (after_escape v1))
    as [keys2 v2].
  unfold events. cbn [snd]. rewrite <- !app_assoc. reflexivity.
Qed.

Lemma escape_glyph_sends_plain_escape_witness :
  Connected sample_connected = true /\
  bytes (cstring (RED_HEART ++ YELLOW_HEART ++ [120]))
    = RED_HEART ++ YELLOW_HEART ++ [120] /\
  events (send_keys (cstring (RED_HEART ++ YELLOW_HEART ++ [120])) sample_env
            sample_connected) =
    [PlatRaiseWindow 5 11; PlatSendKey 5 PLAT_KEY_ESCAPE 0 0;
     PlatSendKey 5 PLAT_KEY_CHAR 120 0; Usleep 50000;
     PlatSendKey 5 PLAT_KEY_RETURN 0 0].
Proof.
  split; [reflexivity |]. split; [reflexivity |].
  destruct (escape_glyph_sends_plain_escape sample_env sample_connected
              (cstring (RED_HEART ++ YELLOW_HEART ++ [120]))
              RED_HEART [120] eq_refl eq_refl) as [post' [Hs He]].
  vm_compute in Hs. injection Hs as <-. exact He.
Defined.

(** C5 as stated fails: after the red heart Ctrl is pending, and the
    Escape of the yellow heart that follows is sent without it. *)
Lemma escape_glyph_counterexample :
  ~ (forall env st text pre post,
       Connected st = true ->
       bytes text = pre ++ YELLOW_HEART ++ post ->
       let pid := ConnectedPid st in
       exists post',
         scanned_bytes text = pre ++ YELLOW_HEART ++ post' /\
         let '(keys1, v1) := scan_keys pid pre key_vars_init in
         let '(keys2, v2) := scan_keys pid post' (after_key false v1) in
         events (send_keys text env st) =
           PlatRaiseWindow pid (ConnectedWid st)
           :: keys1 ++ [PlatSendKey pid PLAT_KEY_ESCAPE 0 (mods v1)] ++ keys2
              ++ trailing_return pid (auto_newline text v2)).
Proof.
  intros H.
  destruct (H sample_env sample_connected
              (cstring (RED_HEART ++ YELLOW_HEART)) RED_HEART []
              eq_refl eq_refl) as [post' [Hs He]].
  vm_compute in Hs. injection Hs as <-.
  vm_compute in He. discriminate He.
Qed.

(** C9: the purple heart is the newline marker only as the last four
    bytes of the text, where it is cut off before the scan and sends
    nothing; anywhere else its bytes are four literal-character keys
    (the first with the modifiers pending there), between the keys of
    the text before it and those of the text after it. *)
Theorem purple_heart_only_final (env : Env) (st : State) (text : string) :
  Connected st = true ->
  let pid := ConnectedPid st in
  let wid := ConnectedWid st in
  (ends_with_purple_heart text = true <->
   exists pre, bytes text = pre ++ PURPLE_HEART) /\
  (forall pre,
     bytes text = pre ++ PURPLE_HEART ->
     scanned_bytes text = pre /\
     events (send_keys text env st) =
       PlatRaiseWindow pid wid :: (scan_keys pid pre key_vars_init).1) /\
  (forall pre post,
     bytes text = pre ++ PURPLE_HEART ++ post -> post <> [] ->
     exists post',
       scanned_bytes text = pre ++ PURPLE_HEART ++ post' /\
       let '(keys1, v1) := scan_keys pid pre key_vars_init in
       let '(keys2, v2) :=
         scan_keys pid post'
           (after_key false
              (after_key false (after_key false (after_key false v1)))) in
       events (send_keys text env st) =
         PlatRaiseWindow pid wid
         :: keys1
            ++ [PlatSendKey pid PLAT_KEY_CHAR 0xF0 (mods v1);
                PlatSendKey pid PLAT_KEY_CHAR 0x9F 0;
                PlatSendKey pid PLAT_KEY_CHAR 0x92 0;
                PlatSendKey pid PLAT_KEY_CHAR 0x9C 0]
            ++ keys2 ++ trailing_return pid (auto_newline text v2)).
Proof.
  intros Hc pid wid. subst pid wid.
  split; [apply ends_with_purple_heart_spec |]. split.
  - intros pre Hb. pose proof (scanned_bytes_final pre text Hb) as Hs.
    split; [exact Hs |].
    rewrite (send_keys_eq text env st Hc), Hs.
    destruct (scan_keys (ConnectedPid st) pre key_vars_init) as [keys v].
    unfold events, auto_newline. cbn [fst snd].
    replace (ends_with_purple_heart text) with true
      by (symmetry; apply ends_with_purple_heart_spec; eauto).
    cbn [negb andb trailing_return]. rewrite app_nil_r. reflexivity.
  - intros pre post Hb Hpost.
    destruct (scanned_bytes_around text pre post 0x9C Hb)
      as [post' Hs]; try discriminate; [intros _; exact Hpost |].
    exists post'. split; [exact Hs |].
    rewrite (send_keys_eq text env st Hc), Hs.
    cbn [app]. rewrite scan_keys_app.
    destruct (scan_keys (ConnectedPid st) pre key_vars_init) as [keys1 v1].
    change (0xF0 :: 0x9F :: 0x92 :: 0x9C :: post')
      with (PURPLE_HEART ++ post').
    rewrite scan_keys_purple.
    destruct (scan_keys (ConnectedPid st) post' _) as [keys2 v2].
    unfold events. cbn [snd]. rewrite <- !app_assoc. reflexivity.
Qed.

Lemma purple_heart_only_final_witness :
  Connected sample_connected = true /\
  bytes (cstring ([97] ++ PURPLE_HEART ++ [98]))
    = [97] ++ PURPLE_HEART ++ [98] /\
  ends_with_purple_heart (cstring ([97] ++ PURPLE_HEART ++ [98])) = false /\
  events (send_keys (cstring ([97] ++ PURPLE_HEART ++ [98])) sample_env
            sample_connected) =
    [PlatRaiseWindow 5 11; PlatSendKey 5 PLAT_KEY_CHAR 97 0;
     PlatSendKey 5 PLAT_KEY_CHAR 0xF0 0; PlatSendKey 5 PLAT_KEY_CHAR 0x9F 0;
     PlatSendKey 5 PLAT_KEY_CHAR 0x92 0; PlatSendKey 5 PLAT_KEY_CHAR 0x9C 0;
     PlatSendKey 5 PLAT_KEY_CHAR 98 0; Usleep 50000;
     PlatSendKey 5 PLAT_KEY_RETURN 0 0].
Proof.
  split; [reflexivity |]. split; [reflexivity |]. split; [reflexivity |].
  destruct (purple_heart_only_final sample_env sample_connected
              (cstring ([97] ++ PURPLE_HEART ++ [98])) eq_refl)
    as (_ & _ & H).
  destruct (H [97] [98] eq_refl ltac:(discriminate)) as [post' [Hs He]].
  vm_compute in Hs. injection Hs as <-. exact He.
Defined.

(** * Further properties of the request handler *)

(** ** What the gate and the dispatch leave alone *)

Lemma same_owner_entry_refl s : same_owner_entry s s.
Proof. reflexivity. Qed.

Lemma same_owner_entry_trans a b c :
  same_owner_entry a b -> same_owner_entry b c -> same_owner_entry a c.
Proof. unfold same_owner_entry. congruence. Qed.

Ltac owner_entry_leaf :=
  try (intros ? ?);
  unfold same_owner_entry, kvSet, kvGet, modify, get, time, plat_list_windows,
    plat_window_exists, plat_capture_window, final_state;
  simpl; try (rewrite lookup_insert_ne by discriminate); reflexivity.

Ltac keeps_owner_entry :=
  repeat first
    [ assumption
    | keeps_step same_owner_entry_refl same_owner_entry_trans
    | solve [owner_entry_leaf] ].

Lemma totp_verify_owner_entry code : keeps same_owner_entry (totp_verify code).
Proof. unfold totp_verify. keeps_owner_entry. Qed.

Lemma handle_request_gate_owner_entry br :
  keeps same_owner_entry (handle_request_gate br).
Proof.
  unfold handle_request_gate.
  pose proof (totp_verify_owner_entry (request br)).
  keeps_owner_entry.
Qed.

Lemma handle_request_dispatch_owner_entry br :
  keeps same_owner_entry (handle_request_dispatch br).
Proof.
  unfold handle_request_dispatch, disconnect, build_list_message,
    refresh_window_list, free_window_list, connected_window_exists,
    send_screenshot, refresh_screenshot, capture_connected_window, send_keys.
  keeps_owner_entry.
Qed.

(** ** Printing and reading back a decimal *)

Lemma uchar_pretty_N_char d :
  (d < 10)%N -> uchar (pretty_N_char d) = 48 + Z.of_N d.
Proof.
  intros H.
  assert (d = 0 \/ d = 1 \/ d = 2 \/ d = 3 \/ d = 4 \/ d = 5 \/ d = 6 \/ d = 7
          \/ d = 8 \/ d = 9)%N as Hd by lia.
  repeat (destruct Hd as [-> | Hd]; [reflexivity |]). subst d. reflexivity.
Qed.

(** Read after [acc], the digits [pretty_N_go] puts before [s] shift
    [acc] by their number and add the value printed. *)
Lemma digits_value_pretty_N_go x :
  exists k : nat, forall s acc,
    digits_value acc (bytes (pretty_N_go x s)) =
    digits_value (acc * 10 ^ Z.of_nat k + Z.of_N x) (bytes s).
Proof.
  induction (N.lt_wf_0 x) as [x _ IH].
  destruct (N.eq_dec x 0%N) as [-> | Hx].
  - exists 0%nat. intros s acc. rewrite pretty_N_go_0.
    f_equal. simpl. lia.
  - assert (Hlt : (x `div` 10 < x)%N) by (apply N.div_lt; lia).
    destruct (IH _ Hlt) as [k Hk]. exists (S k). intros s acc.
    rewrite pretty_N_go_step by lia. rewrite Hk.
    change (bytes (String (pretty_N_char (x `mod` 10)) s))
      with (uchar (pretty_N_char (x `mod` 10)) :: bytes s).
    assert (Hm : (x `mod` 10 < 10)%N) by (apply N.mod_lt; lia).
    rewrite (uchar_pretty_N_char _ Hm). cbn [digits_value].
    assert (Hd : isdigit (48 + Z.of_N (x `mod` 10)) = true).
    { revert Hm. generalize (x `mod` 10)%N. intros d Hd.
      unfold isdigit. apply andb_true_iff. split; apply Z.leb_le; lia. }
    rewrite Hd. f_equal.
    rewrite Nat2Z.inj_succ, Z.pow_succ_r by lia.
    pose proof (N.div_mod x 10 ltac:(lia)) as Hdm.
    assert (Hx10 : Z.of_N x
                   = 10 * Z.of_N (x `div` 10) + Z.of_N (x `mod` 10)).
    { rewrite Hdm at 1. rewrite N2Z.inj_add, N2Z.inj_mul. reflexivity. }
    rewrite Hx10. ring.
Qed.

Lemma pretty_N_go_first_digit x s :
  (0 < x)%N -> isdigit (char_at (pretty_N_go x s) 0) = true.
Proof.
  revert s. induction (N.lt_wf_0 x) as [x _ IH]. intros s Hx.
  rewrite pretty_N_go_step by exact Hx.
  destruct (N.eq_dec (x `div` 10)%N 0%N) as [E | E].
  - rewrite E, pretty_N_go_0. unfold char_at, byte_at.
    change (bytes (String (pretty_N_char (x `mod` 10)) s))
      with (uchar (pretty_N_char (x `mod` 10)) :: bytes s).
    change (Z.to_nat 0) with 0%nat. cbn [nth].
    assert (Hm : (x `mod` 10 < 10)%N) by (apply N.mod_lt; lia).
    rewrite (uchar_pretty_N_char _ Hm).
    revert Hm. generalize (x `mod` 10)%N. intros d Hd.
    unfold isdigit. apply andb_true_iff. split; apply Z.leb_le; lia.
  - apply IH; [apply N.div_lt; lia | apply N.neq_0_lt_0; exact E].
Qed.

Lemma decimal_subject_positive p :
  decimal_subject (bytes (dec (Z.pos p))) = Z.pos p.
Proof.
  unfold dec, pretty, pretty_Z, pretty, pretty_positive, pretty, pretty_N.
  destruct (decide (N.pos p = 0%N)); [discriminate |].
  rewrite decimal_subject_digit
    by (apply (pretty_N_go_first_digit (N.pos p) ""); reflexivity).
  destruct (digits_value_pretty_N_go (N.pos p)) as [k Hk].
  rewrite Hk. reflexivity.
Qed.

(** [strtoll] reads back what [%lld] prints, over the whole range of a
    64-bit integer. *)
Lemma strtoll_dec z : LLONG_MIN <= z <= LLONG_MAX -> strtoll (dec z) = z.
Proof.
  intros Hz. unfold strtoll.
  assert (Hd : decimal_subject (bytes (dec z)) = z).
  { destruct z as [|p|p].
    - reflexivity.
    - apply decimal_subject_positive.
    - change (dec (Z.neg p)) with ("-" +:+ dec (Z.pos p)).
      change (bytes ("-" +:+ dec (Z.pos p)))
        with (45 :: bytes (dec (Z.pos p))).
      unfold decimal_subject.
      change (skip_space (45 :: bytes (dec (Z.pos p))))
        with (45 :: bytes (dec (Z.pos p))).
      cbv zeta. change (byte_at (45 :: bytes (dec (Z.pos p))) 0 =? 45)
        with true. cbv iota.
      change (drop 1 (45 :: bytes (dec (Z.pos p))))
        with (bytes (dec (Z.pos p))).
      pose proof (decimal_subject_positive p) as Hp.
      unfold dec, pretty, pretty_Z, pretty, pretty_positive, pretty, pretty_N
        in *.
      destruct (decide (N.pos p = 0%N)); [discriminate |].
      rewrite decimal_subject_digit in Hp
        by (apply (pretty_N_go_first_digit (N.pos p) ""); reflexivity).
      rewrite Hp. reflexivity. }
  rewrite Hd. lia.
Qed.

Lemma dec_length z :
  LLONG_MIN <= z <= LLONG_MAX -> (String.length (dec z) <= 20)%nat.
Proof.
  intros Hz. unfold LLONG_MIN, LLONG_MAX in Hz.
  destruct z as [|p|p].
  - simpl. lia.
  - unfold dec, pretty, pretty_Z, pretty, pretty_positive, pretty, pretty_N.
    destruct (decide (N.pos p = 0%N)); [discriminate |].
    pose proof (pretty_N_go_length 19 (N.pos p) "") as H.
    simpl in H. assert ((N.pos p < 10000000000000000000)%N) by lia.
    specialize (H H0). lia.
  - change (dec (Z.neg p)) with ("-" +:+ dec (Z.pos p)).
    unfold dec, pretty, pretty_Z, pretty, pretty_positive, pretty, pretty_N.
    destruct (decide (N.pos p = 0%N)); [discriminate |].
    pose proof (pretty_N_go_length 19 (N.pos p) "") as H.
    simpl in H. assert ((N.pos p < 10000000000000000000)%N) by lia.
    specialize (H H0). change (S (String.length (pretty_N_go (N.pos p) "")) <= 20)%nat. lia.
Qed.

(** ** The request as a whole *)

Lemma owner_request_dec s br : {owner_request s br} + {~ owner_request s br}.
Proof.
  unfold owner_request.
  destruct (Z.eq_dec (stored_owner s) 0); [left; auto |].
  destruct (Z.eq_dec (stored_owner s) (from br)); [left; auto |].
  right. intros [H | H]; contradiction.
Qed.

(** A request of anybody else is dropped with a console line. *)
Lemma handle_request_stranger br env s :
  ~ owner_request s br ->
  handle_request br env s =
  (tt, s,
   [Printf ("Ignoring message from non-owner " +:+ dec (from br) +:+ LF)]).
Proof.
  intros Hn. unfold owner_request in Hn.
  unfold handle_request, bind. rewrite handle_request_owner_eq.
  destruct (Z.eqb_spec (stored_owner s) 0) as [E | E]; [tauto |].
  destruct (Z.eqb_spec (from br) (stored_owner s)) as [F | F].
  - exfalso. apply Hn. right. congruence.
  - reflexivity.
Qed.

(** What the gate and the dispatch both keep holds from the owner filter
    to the end of the request. *)
Lemma handle_request_final (R : State -> State -> Prop) br env s :
  (forall a, R a a) -> (forall a b c, R a b -> R b c -> R a c) ->
  keeps R (handle_request_gate br) -> keeps R (handle_request_dispatch br) ->
  owner_request s br ->
  R (after_owner br env s) (final_state (handle_request br env s)).
Proof.
  intros Hrefl Htrans Hg Hd Ho.
  rewrite (handle_request_of_owner br env s Ho). cbv zeta.
  specialize (Hg env (after_owner br env s)). unfold final_state in *.
  destruct (handle_request_gate br env (after_owner br env s))
    as [[proceed s2] o2].
  destruct proceed; [| exact Hg].
  specialize (Hd env s2). unfold final_state in Hd.
  destruct (handle_request_dispatch br env s2) as [[u s3] o3].
  simpl in *. eapply Htrans; eassumption.
Qed.

Lemma after_owner_pinned br env s :
  stored_owner s <> 0 -> after_owner br env s = s.
Proof.
  intros H. unfold after_owner, final_state.
  rewrite handle_request_owner_eq.
  destruct (Z.eqb_spec (stored_owner s) 0); [contradiction | reflexivity].
Qed.

Lemma snprintf_dec_id z :
  LLONG_MIN <= z <= LLONG_MAX -> snprintf 32 (dec z) = dec z.
Proof.
  intros H. unfold snprintf. apply substring_all.
  pose proof (dec_length z H). change (32 - 1)%nat with 31%nat. lia.
Qed.

Lemma after_owner_registered br env s :
  stored_owner s = 0 -> LLONG_MIN <= from br <= LLONG_MAX ->
  kv (after_owner br env s) !! OWNER_KEY = Some (dec (from br)).
Proof.
  intros H Hr. unfold after_owner, final_state.
  rewrite handle_request_owner_eq, H. simpl.
  rewrite (snprintf_dec_id _ Hr). apply lookup_insert_eq.
Qed.

(** X1: the first sender becomes the owner for good.  With no owner in
    the store, a request of a sender with a non-zero identifier leaves
    that identifier in the store, whatever the gate then does with the
    request; from then on a request of any other sender is dropped with
    no reply and no change of state. *)
Theorem first_sender_becomes_owner (env : Env) (st : State) (br : BotRequest) :
  stored_owner st = 0 -> from br <> 0 ->
  LLONG_MIN <= from br <= LLONG_MAX ->
  let st' := final_state (handle_request br env st) in
  stored_owner st' = from br /\
  forall env' br', from br' <> from br ->
    replies (handle_request br' env' st') = [] /\
    final_state (handle_request br' env' st') = st'.
Proof.
  intros H0 Hne Hr st'.
  assert (Ho : owner_request st br) by (left; exact H0).
  assert (Hs : stored_owner st' = from br).
  { pose proof (handle_request_final same_owner_entry br env st
                  same_owner_entry_refl same_owner_entry_trans
                  (handle_request_gate_owner_entry br)
                  (handle_request_dispatch_owner_entry br) Ho) as Hk.
    unfold same_owner_entry in Hk. unfold st', stored_owner. rewrite Hk.
    rewrite (after_owner_registered br env st H0 Hr).
    apply strtoll_dec. exact Hr. }
  split; [exact Hs |]. intros env' br' Hd.
  rewrite handle_request_stranger.
  - split; reflexivity.
  - unfold owner_request. rewrite Hs. intros [E | E]; congruence.
Qed.

Lemma first_sender_becomes_owner_witness :
  let st' :=
    final_state (handle_request (text_request 5 "hello") sample_env
                   sample_unowned) in
  stored_owner st' = 5 /\
  forall env' br', from br' <> 5 ->
    replies (handle_request br' env' st') = [] /\
    final_state (handle_request br' env' st') = st'.
Proof.
  apply (first_sender_becomes_owner sample_env sample_unowned
           (text_request 5 "hello")).
  - reflexivity.
  - discriminate.
  - split; discriminate.
Defined.

(** X2: once an owner is in the store, no request changes the entry:
    not a request of the owner, whatever command it carries, and not a
    request of anybody else. *)
Theorem pinned_owner_never_changes (env : Env) (st : State) (br : BotRequest) :
  stored_owner st <> 0 ->
  kv (final_state (handle_request br env st)) !! OWNER_KEY
  = kv st !! OWNER_KEY /\
  stored_owner (final_state (handle_request br env st)) = stored_owner st.
Proof.
  intros Hp.
  assert (Hk : kv (final_state (handle_request br env st)) !! OWNER_KEY
               = kv st !! OWNER_KEY).
  { destruct (owner_request_dec st br) as [Ho | Hn].
    - pose proof (handle_request_final same_owner_entry br env st
                    same_owner_entry_refl same_owner_entry_trans
                    (handle_request_gate_owner_entry br)
                    (handle_request_dispatch_owner_entry br) Ho) as Hk.
      rewrite (after_owner_pinned br env st Hp) in Hk. exact Hk.
    - rewrite (handle_request_stranger br env st Hn). reflexivity. }
  split; [exact Hk |]. unfold stored_owner. rewrite Hk. reflexivity.
Qed.

Lemma pinned_owner_never_changes_witness :
  kv (final_state (handle_request (text_request 1 ".otptimeout 60") sample_env
                     sample_authenticated)) !! OWNER_KEY
  = kv sample_authenticated !! OWNER_KEY /\
  stored_owner (final_state (handle_request (text_request 1 ".otptimeout 60")
                               sample_env sample_authenticated))
  = stored_owner sample_authenticated.
Proof.
  apply (pinned_owner_never_changes sample_env sample_authenticated
           (text_request 1 ".otptimeout 60")).
  vm_compute. discriminate.
Defined.

(** ** The session timeout *)

Lemma timeout_step_refl s : timeout_step s s.
Proof. left. reflexivity. Qed.

Lemma timeout_step_trans a b c :
  timeout_step a b -> timeout_step b c -> timeout_step a c.
Proof.
  unfold timeout_step. intros [H1 | H1] [H2 | H2]; auto.
  - left. congruence.
  - right. unfold timeout_in_range in *. rewrite H2. exact H1.
Qed.

Ltac timeout_leaf :=
  try (intros ? ?);
  unfold timeout_step, kvSet, kvGet, modify, get, time, plat_list_windows,
    plat_window_exists, plat_capture_window, final_state;
  simpl; auto.

Ltac keeps_timeout :=
  repeat first
    [ assumption
    | keeps_step timeout_step_refl timeout_step_trans
    | solve [timeout_leaf] ].

Lemma handle_request_gate_timeout br :
  keeps timeout_step (handle_request_gate br).
Proof.
  unfold handle_request_gate, totp_verify. keeps_timeout.
Qed.

Lemma handle_request_dispatch_timeout br :
  keeps timeout_step (handle_request_dispatch br).
Proof.
  unfold handle_request_dispatch, disconnect, build_list_message,
    refresh_window_list, free_window_list, connected_window_exists,
    send_screenshot, refresh_screenshot, capture_connected_window, send_keys.
  keeps_timeout.
  right. unfold timeout_in_range. simpl.
  rewrite otptimeout_secs_clamp. lia.
Qed.

(** X3: a request leaves the session timeout as it was or sets it to a
    value from 30 to 28800 seconds, whoever sends it and whatever it
    holds; a timeout in that range therefore stays in it. *)
Theorem timeout_stays_in_range (env : Env) (st : State) (br : BotRequest) :
  let st' := final_state (handle_request br env st) in
  OtpTimeout st' = OtpTimeout st \/ 30 <= OtpTimeout st' <= 28800.
Proof.
  intros st'. unfold st'.
  destruct (owner_request_dec st br) as [Ho | Hn].
  - pose proof (handle_request_final timeout_step br env st
                  timeout_step_refl timeout_step_trans
                  (handle_request_gate_timeout br)
                  (handle_request_dispatch_timeout br) Ho) as Hk.
    destruct (after_owner_fields br env st) as (_ & _ & _ & Ht & _).
    unfold timeout_step, timeout_in_range in *. rewrite Ht in Hk.
    exact Hk.
  - rewrite (handle_request_stranger br env st Hn). left. reflexivity.
Qed.

(** ** The gate, open or closed *)

Lemma owner_events_console br env s :
  forallb is_console (events (handle_request_owner br env s)) = true.
Proof.
  rewrite handle_request_owner_eq.
  destruct (stored_owner s =? 0); reflexivity.
Qed.

Lemma gate_open_dec env s : {gate_open env s} + {~ gate_open env s}.
Proof.
  unfold gate_open, expired.
  destruct (WeakSecurity s); [left; auto |].
  destruct (Authenticated s).
  - destruct (Z_gt_dec (time_at env (clock_reads s) - LastActivity s)
                (OtpTimeout s)) as [G | G].
    + right. intros [H | [_ H]]; [discriminate | contradiction].
    + left. right. auto.
  - right. intros [H | [H _]]; discriminate.
Qed.

Lemma gate_not_open env s :
  ~ gate_open env s ->
  WeakSecurity s = false /\ (Authenticated s = false \/ expired env s).
Proof.
  unfold gate_open, expired. intros H.
  destruct (WeakSecurity s); [exfalso; auto |]. split; [reflexivity |].
  destruct (Authenticated s); [| auto]. right.
  destruct (Z_gt_dec (time_at env (clock_reads s) - LastActivity s)
              (OtpTimeout s)) as [G | G]; [exact G |].
  exfalso. apply H. right. auto.
Qed.

(** A request of the owner that finds the gate closed ends in the gate. *)
Lemma handle_request_closed br env s :
  owner_request s br -> ~ gate_open env s ->
  let g := handle_request_gate br env (after_owner br env s) in
  handle_request br env s =
  (tt, final_state g, events (handle_request_owner br env s) ++ events g) /\
  WeakSecurity (after_owner br env s) = false /\
  (Authenticated (after_owner br env s) = false \/
   expired env (after_owner br env s)).
Proof.
  intros Ho Hg g. destruct (gate_not_open env s Hg) as [Hw Hc].
  destruct (after_owner_fields br env s)
    as (_ & _ & _ & _ & _ & _ & (Hw1 & Ha1 & _ & _) & _).
  assert (Hw' : WeakSecurity (after_owner br env s) = false) by congruence.
  assert (Hc' : Authenticated (after_owner br env s) = false \/
                expired env (after_owner br env s)).
  { destruct Hc as [Hc | Hc]; [left; congruence |].
    right. apply expired_after_owner. exact Hc. }
  split; [| auto].
  pose proof (gate_closed_outcome br env _ Hw' Hc') as Hout.
  cbv zeta in Hout. destruct Hout as (Hres & _).
  rewrite (handle_request_of_owner br env s Ho). cbv zeta.
  subst g. unfold result, final_state, events in *.
  destruct (handle_request_gate br env (after_owner br env s))
    as [[proceed s2] o2].
  simpl in Hres. subst proceed. simpl. rewrite app_nil_r. reflexivity.
Qed.

Lemma closed_gate_events br env s :
  WeakSecurity s = false -> Authenticated s = false \/ expired env s ->
  forallb (fun e => negb (reaches_window e))
    (events (handle_request_gate br env s)) = true.
Proof.
  intros Hw Hc. pose proof (gate_closed_outcome br env s Hw Hc) as H.
  cbv zeta in H. destruct H as (_ & _ & _ & _ & _ & _ & H).
  destruct (is_callback br); destruct H as [_ ->]; reflexivity.
Qed.

(** X4: nothing reaches a window without the owner and an open gate.
    Whenever a request raises a window, sends it a key or sends a
    picture of it, the sender passed the owner filter and the gate was
    open when the request arrived: the gate is switched off, or the
    session is authenticated and has not expired. *)
Theorem window_reached_only_through_gate (env : Env) (st : State)
    (br : BotRequest) (e : Event) :
  In e (events (handle_request br env st)) -> reaches_window e = true ->
  owner_request st br /\ gate_open env st.
Proof.
  intros Hin He.
  destruct (owner_request_dec st br) as [Ho | Hn].
  - split; [exact Ho |].
    destruct (gate_open_dec env st) as [Hg | Hg]; [exact Hg |].
    exfalso.
    destruct (handle_request_closed br env st Ho Hg) as (Heq & Hw & Hc).
    rewrite Heq in Hin. unfold events at 1 in Hin. cbn [snd] in Hin.
    apply in_app_or in Hin. destruct Hin as [Hin | Hin].
    + pose proof (owner_events_console br env st) as Hcon.
      rewrite forallb_forall in Hcon. specialize (Hcon e Hin).
      destruct e; discriminate.
    + pose proof (closed_gate_events br env _ Hw Hc) as Hev.
      rewrite forallb_forall in Hev. specialize (Hev e Hin).
      rewrite He in Hev. discriminate.
  - rewrite (handle_request_stranger br env st Hn) in Hin.
    destruct Hin as [<- | []]. discriminate.
Qed.

Lemma window_reached_only_through_gate_witness :
  owner_request sample_connected (text_request 1 "ls") /\
  gate_open sample_env sample_connected.
Proof.
  apply (window_reached_only_through_gate sample_env sample_connected
           (text_request 1 "ls") (PlatSendKey 5 PLAT_KEY_CHAR 108 0)).
  - vm_compute. right. left. reflexivity.
  - reflexivity.
Defined.

(** X5: with the gate in force, a request of the owner that ends with
    the session authenticated has read the clock, and [LastActivity] is
    the last reading made: the session is timed from the request that
    was accepted last. *)
Theorem authenticated_session_is_stamped (env : Env) (st : State)
    (br : BotRequest) :
  WeakSecurity st = false -> owner_request st br ->
  let st' := final_state (handle_request br env st) in
  Authenticated st' = true ->
  (clock_reads st < clock_reads st')%nat /\
  LastActivity st' = time_at env (pred (clock_reads st')).
Proof.
  intros Hw Ho st' Ha.
  destruct (after_owner_fields br env st)
    as (_ & _ & _ & _ & _ & _ & (Hw1 & Ha1 & Hl1 & Hc1) & _).
  destruct (gate_open_dec env st) as [Hg | Hg].
  - pose proof (handle_request_accepted br env st Ho Hg) as Heq.
    pose proof (handle_request_dispatch_gate br env
                  (gate_passed_state env (after_owner br env st))) as Hk.
    unfold st' in *. rewrite Heq. rewrite Heq in Ha. clear Heq.
    unfold final_state in *.
    destruct (handle_request_dispatch br env _) as [[u s3] o3].
    cbn [fst snd] in *. destruct Hk as (_ & _ & Hl & Hc).
    unfold gate_passed_state in Hl, Hc. rewrite Hw1, Hw in Hl, Hc.
    simpl in Hl, Hc. rewrite Hl, Hc, Hc1. simpl. split; [lia | reflexivity].
  - destruct (handle_request_closed br env st Ho Hg) as (Heq & Hw' & Hc').
    unfold st' in *. rewrite Heq. rewrite Heq in Ha. clear Heq.
    unfold final_state at 1 3. unfold final_state at 1 in Ha.
    cbn [fst snd] in *.
    rewrite (gate_closed br env _ Hw' Hc') in *. cbv zeta in *.
    destruct (is_callback br); [discriminate Ha |].
    pose proof (totp_verify_frame (request br) env
                  (gate_closed_state (after_owner br env st))) as [_ Hf].
    assert (Hcl : (clock_reads st
                   <= clock_reads (gate_closed_state (after_owner br env st)))
                  %nat).
    { unfold gate_closed_state.
      destruct (Authenticated (after_owner br env st)); simpl; lia. }
    assert (Hau : Authenticated (gate_closed_state (after_owner br env st))
                  = false) by reflexivity.
    destruct (is_otp (request br)).
    + unfold final_state in Hf.
      destruct (totp_verify (request br) env
                  (gate_closed_state (after_owner br env st)))
        as [[v sv] ov].
      cbn [fst snd] in Hf.
      destruct v; unfold final_state in *; cbn [fst snd] in *.
      * unfold gate_closed_state in Hcl. simpl in Hcl.
        simpl. destruct Hf as [-> | ->]; simpl; split; try lia; reflexivity.
      * destruct Hf as [-> | ->]; simpl in Ha; congruence.
    + unfold final_state in Ha. cbn [fst snd] in Ha. congruence.
Qed.

Lemma authenticated_session_is_stamped_witness :
  let st' :=
    final_state (handle_request (text_request 1 ".help") sample_env
                   sample_authenticated) in
  (clock_reads sample_authenticated < clock_reads st')%nat /\
  LastActivity st' = time_at sample_env (pred (clock_reads st')).
Proof.
  apply (authenticated_session_is_stamped sample_env sample_authenticated
           (text_request 1 ".help")).
  - reflexivity.
  - right. reflexivity.
  - reflexivity.
Defined.

(** ** The message of the window list *)

Lemma string_append_assoc (a b c : string) : (a +:+ b) +:+ c = a +:+ b +:+ c.
Proof.
  induction a as [|x a IH]; [reflexivity |].
  change (String x ((a +:+ b) +:+ c) = String x (a +:+ b +:+ c)).
  rewrite IH. reflexivity.
Qed.

Lemma string_append_nil_r (a : string) : a +:+ "" = a.
Proof.
  induction a as [|x a IH]; [reflexivity |].
  change (String x (a +:+ "") = String x a). rewrite IH. reflexivity.
Qed.

Lemma concat_cons (x : string) (l : list string) :
  String.concat "" (x :: l) = x +:+ String.concat "" l.
Proof.
  destruct l as [|y l]; simpl; [rewrite string_append_nil_r |]; reflexivity.
Qed.

Lemma fold_left_append {A} (f : A -> string) : forall (l : list A) init,
  fold_left (fun msg i => msg +:+ f i) l init
  = init +:+ String.concat "" (map f l).
Proof.
  induction l as [|x l IH]; intros init.
  - simpl. rewrite string_append_nil_r. reflexivity.
  - cbn [fold_left map]. rewrite IH, concat_cons, string_append_assoc.
    reflexivity.
Qed.

Lemma imap_nth {A B} (d : A) : forall (l : list A) (f : nat -> A -> B),
  map (fun i => f i (nth i l d)) (seq 0 (length l)) = imap f l.
Proof.
  induction l as [|x l IH]; intros f; [reflexivity |].
  cbn [length seq map nth imap]. f_equal.
  rewrite <- seq_shift, map_map. apply (IH (fun i => f (S i))).
Qed.

(** ** The branches of the dispatch *)

Lemma gate_passed_pid br env s :
  ConnectedPid (gate_passed_state env (after_owner br env s)) = ConnectedPid s.
Proof.
  destruct (gate_passed_fields br env s) as (_ & _ & _ & _ & Hc & _).
  unfold connection in Hc. congruence.
Qed.

Lemma list_not_help req :
  strcasecmp req ".help" = 0 -> (strcasecmp req ".list" =? 0) = false.
Proof.
  intros H. apply strcasecmp_second in H.
  change (tolower (uchar "h")) with 104 in H.
  apply Z.eqb_neq. intros L. apply strcasecmp_second in L.
  rewrite H in L. discriminate L.
Qed.

Lemma not_command req :
  is_command req = false ->
  (strcasecmp req ".list" =? 0) = false /\
  (strcasecmp req ".help" =? 0) = false /\
  (strncasecmp req ".otptimeout" 11 =? 0) = false /\
  (char_at req 0 =? 46) && isdigit (char_at req 1) = false.
Proof.
  unfold is_command. intros H.
  apply orb_false_iff in H. destruct H as [H H4].
  apply orb_false_iff in H. destruct H as [H H3].
  apply orb_false_iff in H. destruct H as [H1 H2]. auto.
Qed.

Lemma refresh_window_list_eq env s :
  refresh_window_list env s =
  (Z.of_nat (length (listed_windows env s)), refreshed env s, []).
Proof. reflexivity. Qed.

Lemma build_list_message_eq env s :
  build_list_message env s =
  (list_message (listed_windows env s), refreshed env s, []).
Proof.
  unfold build_list_message. unfold bind at 1.
  rewrite refresh_window_list_eq. unfold bind at 1, get at 1.
  change (WindowCount (refreshed env s))
    with (Z.of_nat (length (listed_windows env s))).
  unfold list_message.
  destruct (listed_windows env s) as [|w l] eqn:E; [reflexivity |].
  replace (Z.of_nat (length (w :: l)) =? 0) with false
    by (symmetry; apply Z.eqb_neq; cbn [length]; lia).
  unfold bind, get, ret.
  change (WindowList (refreshed env s)) with (listed_windows env s).
  rewrite E, Nat2Z.id, fold_left_append, (imap_nth no_window).
  rewrite string_append_assoc. reflexivity.
Qed.

Lemma dispatch_callback br env s :
  is_callback br = true ->
  handle_request_dispatch br env s =
  if (strcmp (callback_data br) REFRESH_DATA =? 0) && Connected s then
    (tt, tick_plat s,
     BotAnswerCallbackQuery (callback_id br)
     :: if plat_capture_window_at env (plat_calls s) (ConnectedWid s)
             SCREENSHOT_PATH =? 0
        then [BotEditMessageMedia (target br) (msg_id br) SCREENSHOT_PATH
                REFRESH_BTN REFRESH_DATA]
        else [])
  else (tt, s, [BotAnswerCallbackQuery (callback_id br)]).
Proof.
  intros Hcb. unfold handle_request_dispatch. rewrite Hcb.
  unfold refresh_screenshot, capture_connected_window. run_prog. simpl.
  destruct (strcmp (callback_data br) REFRESH_DATA =? 0); [| reflexivity].
  destruct (Connected s) eqn:Hc; simpl; [| reflexivity].
  rewrite Hc. simpl.
  match goal with
  | |- context [plat_capture_window_at ?a ?b ?c ?d =? 0] =>
      destruct (plat_capture_window_at a b c d =? 0)
  end; reflexivity.
Qed.

Lemma dispatch_list br env s :
  is_callback br = false -> strcasecmp (request br) ".list" = 0 ->
  handle_request_dispatch br env s =
  (tt, refreshed env (set_connection false 0 0 "" "" s),
   [BotSendMessage (target br) (list_message (listed_windows env s)) 0]).
Proof.
  intros Hcb Hl. unfold handle_request_dispatch. rewrite Hcb, Hl.
  cbv zeta. change (0 =? 0) with true. cbv iota.
  unfold disconnect. unfold bind at 1. unfold modify at 1.
  unfold bind at 1. rewrite build_list_message_eq.
  reflexivity.
Qed.

Lemma dispatch_help br env s :
  is_callback br = false -> strcasecmp (request br) ".help" = 0 ->
  handle_request_dispatch br env s =
  (tt, s, [BotSendMessage (target br) build_help_message 0]).
Proof.
  intros Hcb Hh. unfold handle_request_dispatch.
  rewrite Hcb, (list_not_help _ Hh), Hh. reflexivity.
Qed.

(** Free text with no window connected is answered with the list. *)
Lemma dispatch_text_unconnected br env s :
  is_callback br = false -> is_command (request br) = false ->
  Connected s = false ->
  handle_request_dispatch br env s =
  (tt, refreshed env s,
   [BotSendMessage (target br) (list_message (listed_windows env s)) 0]).
Proof.
  intros Hcb Hcmd Hc. destruct (not_command _ Hcmd) as (H1 & H2 & H3 & H4).
  unfold handle_request_dispatch. rewrite Hcb, H1, H2, H3, H4.
  cbv zeta. unfold bind at 1. unfold get at 1. rewrite Hc. cbn [negb].
  unfold bind at 1. rewrite build_list_message_eq. reflexivity.
Qed.

Lemma connected_window_exists_eq env s :
  Connected s = true ->
  connected_window_exists env s =
  match plat_window_exists_at env (plat_calls s) (ConnectedWid s)
          (ConnectedPid s) with
  | Some wid' => (1, set_ConnectedWid wid' (tick_plat s), [])
  | None => (0, tick_plat s, [])
  end.
Proof.
  intros Hc. unfold connected_window_exists. run_prog. rewrite Hc. simpl.
  destruct (plat_window_exists_at _ _ _ _); reflexivity.
Qed.

(** Free text for a window that is gone: the connection is dropped and
    the list is sent. *)
Lemma dispatch_text_closed br env s :
  is_callback br = false -> is_command (request br) = false ->
  Connected s = true ->
  plat_window_exists_at env (plat_calls s) (ConnectedWid s) (ConnectedPid s)
  = None ->
  handle_request_dispatch br env s =
  (tt, refreshed env (set_connection false 0 0 "" "" (tick_plat s)),
   [BotSendMessage (target br)
      ("Window closed." +:+ LF +:+ LF
       +:+ list_message (listed_windows env (tick_plat s))) 0]).
Proof.
  intros Hcb Hcmd Hc Hgone.
  destruct (not_command _ Hcmd) as (H1 & H2 & H3 & H4).
  unfold handle_request_dispatch. rewrite Hcb, H1, H2, H3, H4.
  cbv zeta. unfold bind at 1. unfold get at 1. rewrite Hc. cbn [negb].
  unfold bind at 1. rewrite (connected_window_exists_eq env s Hc), Hgone.
  change (0 =? 0) with true. cbv iota.
  unfold disconnect. unfold bind at 1. unfold modify at 1.
  unfold bind at 1. rewrite build_list_message_eq. reflexivity.
Qed.

(** Free text for a window that is there: it is raised, the keys are
    sent, and after two seconds a screenshot is taken. *)
Lemma dispatch_text_typed br env s wid' :
  is_callback br = false -> is_command (request br) = false ->
  Connected s = true ->
  plat_window_exists_at env (plat_calls s) (ConnectedWid s) (ConnectedPid s)
  = Some wid' ->
  handle_request_dispatch br env s =
  let s1 := set_ConnectedWid wid' (tick_plat s) in
  let '(keys, v) :=
    scan_keys (ConnectedPid s) (scanned_bytes (request br)) key_vars_init in
  let '(s2, shot) := after_typing env s1 in
  (tt, s2,
   PlatRaiseWindow (ConnectedPid s) wid'
   :: keys ++ trailing_return (ConnectedPid s) (auto_newline (request br) v)
   ++ Sleep 2
   :: if shot
      then [BotSendImageWithKeyboard (target br) SCREENSHOT_PATH REFRESH_BTN
              REFRESH_DATA]
      else []).
Proof.
  intros Hcb Hcmd Hc Hthere.
  destruct (not_command _ Hcmd) as (H1 & H2 & H3 & H4).
  unfold handle_request_dispatch. rewrite Hcb, H1, H2, H3, H4.
  cbv zeta. unfold bind at 1. unfold get at 1. rewrite Hc. cbn [negb].
  unfold bind at 1. rewrite (connected_window_exists_eq env s Hc), Hthere.
  change (1 =? 0) with false. cbv iota.
  set (s1 := set_ConnectedWid wid' (tick_plat s)).
  assert (Hc1 : Connected s1 = true) by exact Hc.
  unfold bind at 1. rewrite (send_keys_eq _ env s1 Hc1).
  change (ConnectedPid s1) with (ConnectedPid s).
  change (ConnectedWid s1) with wid'.
  destruct (scan_keys (ConnectedPid s) (scanned_bytes (request br))
              key_vars_init) as [keys v].
  unfold bind at 1. unfold emit at 1.
  unfold bind at 1. rewrite (connected_window_exists_eq env s1 Hc1).
  unfold after_typing, send_screenshot, capture_connected_window.
  destruct (plat_window_exists_at env (plat_calls s1) (ConnectedWid s1)
              (ConnectedPid s1)) as [wid''|];
    run_prog; simpl; rewrite Hc; simpl;
    match goal with
    | |- context [plat_capture_window_at ?a ?b ?c ?d =? 0] =>
        destruct (plat_capture_window_at a b c d =? 0)
    end; simpl; rewrite <- ?app_assoc; reflexivity.
Qed.

(** ** Requests that pass the gate *)

Lemma gate_openb_spec env s : gate_openb env s = true <-> gate_open env s.
Proof.
  unfold gate_openb, gate_open, expired.
  rewrite orb_true_iff, andb_true_iff, negb_true_iff. split.
  - intros [H | [Ha Ht]]; [auto |]. right. split; [exact Ha |].
    destruct (Z.gtb_spec (time_at env (clock_reads s) - LastActivity s)
                (OtpTimeout s)); [discriminate | lia].
  - intros [H | [Ha Ht]]; [auto |]. right. split; [exact Ha |].
    destruct (Z.gtb_spec (time_at env (clock_reads s) - LastActivity s)
                (OtpTimeout s)); [lia | reflexivity].
Qed.

Lemma filter_console_replies l :
  forallb is_console l = true -> List.filter is_reply l = [].
Proof.
  induction l as [|e l IH]; [reflexivity |]. cbn [forallb List.filter].
  intros H. apply andb_true_iff in H. destruct H as [He Hl].
  destruct e; try discriminate He. simpl. apply IH. exact Hl.
Qed.

Lemma console_not_window l :
  forallb is_console l = true ->
  forallb (fun e => negb (reaches_window e)) l = true.
Proof.
  induction l as [|e l IH]; [reflexivity |]. cbn [forallb].
  intros H. apply andb_true_iff in H. destruct H as [He Hl].
  rewrite (IH Hl). destruct e; try discriminate He. reflexivity.
Qed.

Lemma console_or_reply l :
  forallb is_console l = true ->
  forallb (fun e => is_reply e || is_console e) l = true.
Proof.
  induction l as [|e l IH]; [reflexivity |]. cbn [forallb].
  intros H. apply andb_true_iff in H. destruct H as [He Hl].
  rewrite (IH Hl), He, orb_true_r. reflexivity.
Qed.

(** X6: a callback is acknowledged and does nothing else but refresh the
    picture.  The owner's callback is always answered; the picture of
    the message is replaced exactly when the gate is open, the action is
    [refresh], a window is connected and its capture succeeds.  No
    message, key or window action comes of it, and the connection, the
    timeout and the window list stay as they were. *)
Theorem callback_only_refreshes (env : Env) (st : State) (br : BotRequest) :
  is_callback br = true -> owner_request st br ->
  let r := handle_request br env st in
  replies r =
    BotAnswerCallbackQuery (callback_id br)
    :: (if gate_openb env st
           && (strcmp (callback_data br) REFRESH_DATA =? 0)
           && Connected st
           && (plat_capture_window_at env (plat_calls st) (ConnectedWid st)
                 SCREENSHOT_PATH =? 0)
        then [BotEditMessageMedia (target br) (msg_id br) SCREENSHOT_PATH
                REFRESH_BTN REFRESH_DATA]
        else []) /\
  forallb (fun e => is_reply e || is_console e) (events r) = true /\
  connection (final_state r) = connection st /\
  OtpTimeout (final_state r) = OtpTimeout st /\
  WindowList (final_state r) = WindowList st.
Proof.
  intros Hcb Ho r. subst r.
  pose proof (owner_events_console br env st) as Hcon.
  pose proof (filter_console_replies _ Hcon) as Hnr.
  destruct (after_owner_fields br env st)
    as (_ & Hwl & _ & Hto & Hcn & Hpc & _ & _).
  destruct (gate_open_dec env st) as [Hg | Hg].
  - pose proof (proj2 (gate_openb_spec env st) Hg) as Hb. rewrite Hb.
    destruct (gate_passed_fields br env st) as (_ & Hwl2 & _ & Hto2 & Hcn2 & Hpc2).
    assert (Hc2 : Connected (gate_passed_state env (after_owner br env st))
                  = Connected st)
      by (unfold connection in Hcn2; congruence).
    assert (Hw2 : ConnectedWid (gate_passed_state env (after_owner br env st))
                  = ConnectedWid st)
      by (unfold connection in Hcn2; congruence).
    rewrite (handle_request_accepted br env st Ho Hg).
    rewrite (dispatch_callback br env _ Hcb), Hc2, Hpc2, Hw2. cbn [andb].
    destruct ((strcmp (callback_data br) REFRESH_DATA =? 0) && Connected st).
    + unfold replies, events, final_state in *. cbn [fst snd].
      rewrite List.filter_app, Hnr, forallb_app. cbn [app andb].
      split; [| split; [| split; [exact Hcn2 | split; assumption]]].
      * match goal with
        | |- context [plat_capture_window_at ?a ?b ?c ?d =? 0] =>
            destruct (plat_capture_window_at a b c d =? 0)
        end; reflexivity.
      * apply andb_true_iff. split.
        -- apply console_or_reply. exact Hcon.
        -- match goal with
           | |- context [plat_capture_window_at ?a ?b ?c ?d =? 0] =>
               destruct (plat_capture_window_at a b c d =? 0)
           end; reflexivity.
    + unfold replies, events, final_state in *. cbn [fst snd].
      rewrite List.filter_app, Hnr, forallb_app. cbn [app andb].
      split; [reflexivity |].
      split; [| split; [exact Hcn2 | split; assumption]].
      apply andb_true_iff. split; [| reflexivity].
      apply console_or_reply. exact Hcon.
  - assert (Hb : gate_openb env st = false).
    { destruct (gate_openb env st) eqn:E; [| reflexivity].
      exfalso. apply Hg, gate_openb_spec, E. }
    rewrite Hb. cbn [andb].
    destruct (handle_request_closed br env st Ho Hg) as (Heq & Hw & Hc).
    rewrite Heq.
    pose proof (gate_closed_outcome br env _ Hw Hc) as Hout.
    cbv zeta in Hout. rewrite Hcb in Hout.
    destruct Hout as (_ & Hcn' & Hto' & Hwl' & _ & _ & _ & Hev).
    unfold replies, events, final_state in *. cbn [fst snd] in *.
    rewrite Hev, List.filter_app, Hnr, forallb_app. cbn [app].
    split; [reflexivity |].
    split; [| split; [congruence | split; congruence]].
    apply andb_true_iff. split; [| reflexivity].
    apply console_or_reply. exact Hcon.
Qed.

Lemma callback_only_refreshes_witness :
  let r := handle_request (callback_request 1 "refresh") sample_env
             sample_connected in
  replies r =
    [BotAnswerCallbackQuery "cb1";
     BotEditMessageMedia 77 9 SCREENSHOT_PATH REFRESH_BTN REFRESH_DATA] /\
  forallb (fun e => is_reply e || is_console e) (events r) = true /\
  connection (final_state r) = connection sample_connected /\
  OtpTimeout (final_state r) = OtpTimeout sample_connected /\
  WindowList (final_state r) = WindowList sample_connected.
Proof.
  apply (callback_only_refreshes sample_env sample_connected
           (callback_request 1 "refresh")).
  - reflexivity.
  - right. reflexivity.
Defined.

Lemma accepted_run br env s u s3 o3 :
  owner_request s br -> gate_open env s ->
  handle_request_dispatch br env (gate_passed_state env (after_owner br env s))
  = (u, s3, o3) ->
  handle_request br env s
  = (u, s3, events (handle_request_owner br env s) ++ o3).
Proof.
  intros Ho Hg Hd. rewrite (handle_request_accepted br env s Ho Hg), Hd.
  reflexivity.
Qed.

Lemma gate_passed_listed br env s :
  listed_windows env (gate_passed_state env (after_owner br env s))
  = listed_windows env s.
Proof.
  destruct (gate_passed_fields br env s) as (Hd & _ & _ & _ & _ & Hp).
  unfold listed_windows. rewrite Hd, Hp. reflexivity.
Qed.

Lemma gate_passed_connection br env s :
  let s2 := gate_passed_state env (after_owner br env s) in
  Connected s2 = Connected s /\ ConnectedWid s2 = ConnectedWid s /\
  ConnectedPid s2 = ConnectedPid s /\ plat_calls s2 = plat_calls s /\
  DangerMode s2 = DangerMode s.
Proof.
  destruct (gate_passed_fields br env s) as (Hd & _ & _ & _ & Hc & Hp).
  unfold connection in Hc. cbv zeta. repeat split; congruence.
Qed.

(** X7: [.list], in any letter case, drops the connection and answers
    with the list the backend reports at that moment, which becomes the
    window list of the bot; no window is touched. *)
Theorem list_command_disconnects (env : Env) (st : State) (br : BotRequest) :
  owner_request st br -> gate_open env st -> is_callback br = false ->
  strcasecmp (request br) ".list" = 0 ->
  let r := handle_request br env st in
  let l := listed_windows env st in
  replies r = [BotSendMessage (target br) (list_message l) 0] /\
  connection (final_state r) = (false, 0, 0, "", "") /\
  WindowList (final_state r) = l /\
  WindowCount (final_state r) = Z.of_nat (length l) /\
  forallb (fun e => negb (reaches_window e)) (events r) = true.
Proof.
  intros Ho Hg Hcb Hl r l. subst r l.
  pose proof (owner_events_console br env st) as Hcon.
  destruct (gate_passed_connection br env st) as (_ & _ & _ & Hn2 & Hd2).
  rewrite (accepted_run br env st _ _ _ Ho Hg (dispatch_list br env _ Hcb Hl)).
  unfold replies, events, final_state in *. cbn [fst snd].
  rewrite List.filter_app, (filter_console_replies _ Hcon), forallb_app,
    (console_not_window _ Hcon).
  unfold refreshed, listed_windows. simpl. rewrite Hn2, Hd2.
  repeat split.
Qed.

Lemma list_command_disconnects_witness :
  let r := handle_request (text_request 1 ".LIST") sample_env
             sample_connected in
  let l := listed_windows sample_env sample_connected in
  replies r = [BotSendMessage 77 (list_message l) 0] /\
  connection (final_state r) = (false, 0, 0, "", "") /\
  WindowList (final_state r) = l /\
  WindowCount (final_state r) = Z.of_nat (length l) /\
  forallb (fun e => negb (reaches_window e)) (events r) = true.
Proof.
  apply (list_command_disconnects sample_env sample_connected
           (text_request 1 ".LIST")).
  - right. reflexivity.
  - right. split; [reflexivity |]. unfold expired. simpl. lia.
  - reflexivity.
  - reflexivity.
Defined.

(** X8: text that is no command, sent while no window is connected, is
    not typed anywhere: the reply is the window list, the bot stays
    unconnected and no window is touched. *)
Theorem unconnected_text_lists_windows (env : Env) (st : State)
    (br : BotRequest) :
  owner_request st br -> gate_open env st -> is_callback br = false ->
  is_command (request br) = false -> Connected st = false ->
  let r := handle_request br env st in
  replies r =
    [BotSendMessage (target br) (list_message (listed_windows env st)) 0] /\
  Connected (final_state r) = false /\
  forallb (fun e => negb (reaches_window e)) (events r) = true.
Proof.
  intros Ho Hg Hcb Hcmd Hc r. subst r.
  pose proof (owner_events_console br env st) as Hcon.
  destruct (gate_passed_connection br env st) as (Hc2 & _).
  rewrite (accepted_run br env st _ _ _ Ho Hg
             (dispatch_text_unconnected br env _ Hcb Hcmd
                ltac:(rewrite Hc2; exact Hc))).
  rewrite (gate_passed_listed br env st).
  unfold replies, events, final_state in *. cbn [fst snd].
  rewrite List.filter_app, (filter_console_replies _ Hcon), forallb_app,
    (console_not_window _ Hcon).
  split; [reflexivity |]. split; [| reflexivity].
  unfold refreshed. simpl. rewrite Hc2. exact Hc.
Qed.

Lemma unconnected_text_lists_windows_witness :
  let r := handle_request (text_request 1 "ls -l") sample_env
             sample_authenticated in
  replies r =
    [BotSendMessage 77
       (list_message (listed_windows sample_env sample_authenticated)) 0] /\
  Connected (final_state r) = false /\
  forallb (fun e => negb (reaches_window e)) (events r) = true.
Proof.
  apply (unconnected_text_lists_windows sample_env sample_authenticated
           (text_request 1 "ls -l")).
  - right. reflexivity.
  - right. split; [reflexivity |]. unfold expired. simpl. lia.
  - reflexivity.
  - reflexivity.
  - reflexivity.
Defined.

(** X9: text for a window that is gone is not typed.  When the backend
    finds neither the connected window nor another window of its
    process, the connection is dropped, the reply is [Window closed.]
    followed by the list the backend reports next, and no key is sent. *)
Theorem closed_window_disconnects (env : Env) (st : State) (br : BotRequest) :
  owner_request st br -> gate_open env st -> is_callback br = false ->
  is_command (request br) = false -> Connected st = true ->
  plat_window_exists_at env (plat_calls st) (ConnectedWid st)
    (ConnectedPid st) = None ->
  let r := handle_request br env st in
  let l := plat_list_windows_at env (S (plat_calls st)) (DangerMode st) in
  replies r =
    [BotSendMessage (target br)
       ("Window closed." +:+ LF +:+ LF +:+ list_message l) 0] /\
  connection (final_state r) = (false, 0, 0, "", "") /\
  WindowList (final_state r) = l /\
  forallb (fun e => negb (reaches_window e)) (events r) = true.
Proof.
  intros Ho Hg Hcb Hcmd Hc Hgone r l. subst r l.
  pose proof (owner_events_console br env st) as Hcon.
  destruct (gate_passed_connection br env st) as (Hc2 & Hw2 & Hp2 & Hn2 & Hd2).
  rewrite (accepted_run br env st _ _ _ Ho Hg
             (dispatch_text_closed br env _ Hcb Hcmd
                ltac:(rewrite Hc2; exact Hc)
                ltac:(rewrite Hw2, Hp2, Hn2; exact Hgone))).
  unfold replies, events, final_state in *. cbn [fst snd].
  rewrite List.filter_app, (filter_console_replies _ Hcon), forallb_app,
    (console_not_window _ Hcon).
  unfold refreshed, listed_windows. simpl. rewrite Hn2, Hd2.
  repeat split.
Qed.

Lemma closed_window_disconnects_witness :
  let r := handle_request (text_request 1 "ls -l") sample_env_gone
             sample_connected in
  replies r =
    [BotSendMessage 77
       ("Window closed." +:+ LF +:+ LF +:+ "No terminal windows found.") 0] /\
  connection (final_state r) = (false, 0, 0, "", "") /\
  WindowList (final_state r) = [] /\
  forallb (fun e => negb (reaches_window e)) (events r) = true.
Proof.
  apply (closed_window_disconnects sample_env_gone sample_connected
           (text_request 1 "ls -l")).
  - right. reflexivity.
  - right. split; [reflexivity |]. unfold expired. simpl. lia.
  - reflexivity.
  - reflexivity.
  - reflexivity.
  - reflexivity.
Defined.

(** ** Text that is typed *)

Lemma keys_no_reply l :
  forallb is_key l = true -> List.filter is_reply l = [].
Proof.
  induction l as [|e l IH]; [reflexivity |]. cbn [forallb List.filter].
  intros H. apply andb_true_iff in H. destruct H as [He Hl].
  destruct e; try discriminate He. simpl. apply IH. exact Hl.
Qed.

Lemma trailing_return_no_reply pid auto :
  List.filter is_reply (trailing_return pid auto) = [].
Proof. destruct auto; reflexivity. Qed.

(** X10: text for a connected window that is still there is typed into
    it and then pictured, in this order: the window the existence check
    answered with is raised, the keys of the text are sent to the
    connected process, closed by the automatic Return where it is due,
    the bot waits two seconds, looks the window up once more and
    captures it.  The only reply is the screenshot, sent exactly when
    that capture returns 0; when it returns anything else there is no
    reply at all.  The window captured is the one the second look-up
    answers with, or the raised one when that look-up finds none.  The
    bot stays connected to the same process and to the window
    captured. *)
Theorem text_is_typed_then_pictured (env : Env) (st : State)
    (br : BotRequest) (wid' : Z) :
  owner_request st br -> gate_open env st -> is_callback br = false ->
  is_command (request br) = false -> Connected st = true ->
  plat_window_exists_at env (plat_calls st) (ConnectedWid st)
    (ConnectedPid st) = Some wid' ->
  let r := handle_request br env st in
  let scan :=
    scan_keys (ConnectedPid st) (scanned_bytes (request br)) key_vars_init in
  let pictured :=
    match plat_window_exists_at env (S (plat_calls st)) wid'
            (ConnectedPid st) with
    | Some wid'' => wid''
    | None => wid'
    end in
  let captured :=
    plat_capture_window_at env (S (S (plat_calls st))) pictured
      SCREENSHOT_PATH =? 0 in
  let shot :=
    if captured
    then [BotSendImageWithKeyboard (target br) SCREENSHOT_PATH REFRESH_BTN
            REFRESH_DATA]
    else [] in
  events r =
    events (handle_request_owner br env st)
    ++ PlatRaiseWindow (ConnectedPid st) wid'
       :: scan.1
       ++ trailing_return (ConnectedPid st)
            (auto_newline (request br) scan.2)
       ++ Sleep 2 :: shot /\
  replies r = shot /\
  Connected (final_state r) = true /\
  ConnectedPid (final_state r) = ConnectedPid st /\
  ConnectedWid (final_state r) = pictured.
Proof.
  intros Ho Hg Hcb Hcmd Hc Hthere r scan pictured captured shot.
  subst r scan shot.
  pose proof (owner_events_console br env st) as Hcon.
  destruct (gate_passed_connection br env st) as (Hc2 & Hw2 & Hp2 & Hn2 & Hd2).
  pose proof (dispatch_text_typed br env
                (gate_passed_state env (after_owner br env st)) wid' Hcb Hcmd
                ltac:(rewrite Hc2; exact Hc)
                ltac:(rewrite Hw2, Hp2, Hn2; exact Hthere)) as Hd.
  cbv zeta in Hd. rewrite Hp2 in Hd.
  pose proof (scan_keys_only_keys (ConnectedPid st)
                (scanned_bytes (request br)) key_vars_init) as Hkeys.
  destruct (scan_keys (ConnectedPid st) (scanned_bytes (request br))
              key_vars_init) as [keys v].
  cbn [fst snd] in *.
  assert (Hs2 :
    let a := after_typing env
               (set_ConnectedWid wid'
                  (tick_plat (gate_passed_state env
                                (after_owner br env st)))) in
    a.2 = captured /\ Connected a.1 = true /\
    ConnectedPid a.1 = ConnectedPid st /\ ConnectedWid a.1 = pictured).
  { subst captured pictured. rewrite <- Hc2 in Hc. rewrite <- Hp2, <- Hn2.
    clear - Hc.
    destruct (gate_passed_state env (after_owner br env st)).
    unfold after_typing. cbv zeta. simpl in *.
    destruct (plat_window_exists_at env _ wid' _); simpl; auto. }
  cbv zeta in Hs2.
  destruct (after_typing env _) as [s2 took]. cbn [fst snd] in Hs2.
  destruct Hs2 as (Htook & Hs2). subst took.
  rewrite (accepted_run br env st _ _ _ Ho Hg Hd).
  unfold replies, events, final_state in *. cbn [fst snd].
  split; [reflexivity |]. split; [| exact Hs2].
  rewrite List.filter_app, (filter_console_replies _ Hcon).
  cbn [app List.filter is_reply].
  rewrite !List.filter_app, (keys_no_reply _ Hkeys),
    trailing_return_no_reply.
  cbn [app List.filter is_reply]. destruct captured; reflexivity.
Qed.

Lemma text_is_typed_then_pictured_witness :
  let r := handle_request (text_request 1 "ls") sample_env sample_connected in
  let scan := scan_keys 5 (scanned_bytes "ls") key_vars_init in
  events r =
    events (handle_request_owner (text_request 1 "ls") sample_env
              sample_connected)
    ++ PlatRaiseWindow 5 11
       :: scan.1
       ++ trailing_return 5 (auto_newline "ls" scan.2)
       ++ [Sleep 2;
           BotSendImageWithKeyboard 77 SCREENSHOT_PATH REFRESH_BTN
             REFRESH_DATA] /\
  replies r =
    [BotSendImageWithKeyboard 77 SCREENSHOT_PATH REFRESH_BTN REFRESH_DATA] /\
  Connected (final_state r) = true /\
  ConnectedPid (final_state r) = 5 /\
  ConnectedWid (final_state r) = 11.
Proof.
  apply (text_is_typed_then_pictured sample_env sample_connected
           (text_request 1 "ls") 11).
  - right. reflexivity.
  - right. split; [reflexivity |]. unfold expired. simpl. lia.
  - reflexivity.
  - reflexivity.
  - reflexivity.
  - reflexivity.
Defined.

(** ** The keys that are sent *)

Lemma uchar_byte a : is_byte (uchar a).
Proof.
  unfold is_byte, uchar. pose proof (N_ascii_bounded a). lia.
Qed.

Lemma bytes_are_bytes s : Forall is_byte (bytes s).
Proof.
  unfold bytes. induction s as [|a s IH]; simpl; constructor;
    [apply uchar_byte | exact IH].
Qed.

Lemma lor_mask a m :
  0 <= a <= 7 -> m = MOD_CTRL \/ m = MOD_ALT \/ m = MOD_CMD ->
  0 <= Z.lor a m <= 7.
Proof.
  intros Ha Hm.
  assert (a = 0 \/ a = 1 \/ a = 2 \/ a = 3 \/ a = 4 \/ a = 5 \/ a = 6 \/ a = 7)
    as Hd by lia.
  destruct Hm as [-> | [-> | ->]];
    repeat (destruct Hd as [-> | Hd]; [vm_compute; split; discriminate |]);
    subst a; vm_compute; split; discriminate.
Qed.

Lemma byte_at_byte p i : Forall is_byte p -> is_byte (byte_at p i).
Proof.
  intros H. unfold byte_at. revert p H.
  induction (Z.to_nat i) as [|n IH]; intros [|b p] H; simpl;
    try (unfold is_byte; lia).
  - inversion H; assumption.
  - apply IH. inversion H; assumption.
Qed.

(** One iteration sends well-formed keys and leaves a mask in [mods]. *)
Lemma step_by_token_well_formed pid p v :
  Forall is_byte p -> 0 <= mods v <= 7 ->
  Forall (well_formed_key pid) (step_by_token pid p v).1.1 /\
  Forall is_byte (step_by_token pid p v).1.2 /\
  0 <= mods (step_by_token pid p v).2 <= 7.
Proof.
  intros Hp Hv. pose proof (byte_at_byte p 0 Hp) as Hb. unfold is_byte in Hb.
  unfold step_by_token.
  repeat match goal with
         | |- context [if starts_with ?g ?q then _ else _] =>
             destruct (starts_with g q)
         end;
    cbn [fst snd mods or_mods after_key];
    (split; [| split]);
    try (apply Forall_drop; exact Hp);
    try (apply lor_mask; [exact Hv | auto]);
    try lia;
    try (constructor; [| constructor]; unfold well_formed_key,
           PLAT_KEY_RETURN, PLAT_KEY_ESCAPE, PLAT_KEY_TAB, PLAT_KEY_CHAR;
         repeat split; lia);
    try constructor.
Qed.

Lemma scan_keys_well_formed pid : forall p v,
  Forall is_byte p -> 0 <= mods v <= 7 ->
  Forall (well_formed_key pid) (scan_keys pid p v).1.
Proof.
  intros p. remember (length p) as n eqn:Hn. revert p Hn.
  induction n as [n IH] using lt_wf_ind. intros p Hn v Hp Hv.
  destruct p as [|a q]; [constructor |].
  assert (Hne : a :: q <> []) by discriminate.
  rewrite (scan_keys_step pid (a :: q) v Hne).
  pose proof (step_by_token_shrinks pid (a :: q) v Hne) as Hs.
  destruct (step_by_token_well_formed pid (a :: q) v Hp Hv) as (H1 & H2 & H3).
  destruct (step_by_token pid (a :: q) v) as [[out p'] v'].
  cbn [fst snd] in *.
  pose proof (IH (length p') ltac:(subst n; exact Hs) p' eq_refl v' H2 H3)
    as Hrec.
  destruct (scan_keys pid p' v') as [outs v''].
  cbn [fst snd] in *. apply Forall_app. split; assumption.
Qed.

Lemma not_key_well_formed pid l :
  forallb (fun e => negb (is_key e)) l = true ->
  Forall (well_formed_key pid) l.
Proof.
  induction l as [|e l IH]; [constructor |]. cbn [forallb].
  intros H. apply andb_true_iff in H. destruct H as [He Hl].
  constructor; [| exact (IH Hl)]. destruct e; try exact I. discriminate He.
Qed.

Lemma not_window_not_key l :
  forallb (fun e => negb (reaches_window e)) l = true ->
  forallb (fun e => negb (is_key e)) l = true.
Proof.
  induction l as [|e l IH]; [reflexivity |]. cbn [forallb].
  intros H. apply andb_true_iff in H. destruct H as [He Hl].
  rewrite (IH Hl). destruct e; try reflexivity. discriminate He.
Qed.

(** Whatever branch the dispatch takes, the keys it sends are
    well-formed keys for the process that was connected. *)
Lemma dispatch_keys_well_formed br env s :
  Forall (well_formed_key (ConnectedPid s))
    (events (handle_request_dispatch br env s)).
Proof.
  destruct (is_callback br) eqn:Hcb.
  { rewrite (dispatch_callback br env s Hcb).
    apply not_key_well_formed.
    destruct (_ && _); [| reflexivity]. unfold events. cbn [snd].
    match goal with
    | |- context [plat_capture_window_at ?a ?b ?c ?d =? 0] =>
        destruct (plat_capture_window_at a b c d =? 0)
    end; reflexivity. }
  destruct (is_command (request br)) eqn:Hcmd.
  - unfold is_command in Hcmd.
    destruct (Z.eqb_spec (strcasecmp (request br) ".list") 0) as [Hl | Hl].
    { rewrite (dispatch_list br env s Hcb Hl).
      apply not_key_well_formed. reflexivity. }
    destruct (Z.eqb_spec (strcasecmp (request br) ".help") 0) as [Hh | Hh].
    { rewrite (dispatch_help br env s Hcb Hh).
      apply not_key_well_formed. reflexivity. }
    destruct (Z.eqb_spec (strncasecmp (request br) ".otptimeout" 11) 0)
      as [Ht | Ht].
    { rewrite (dispatch_otptimeout br env s Hcb Ht).
      apply not_key_well_formed. reflexivity. }
    cbn [orb] in Hcmd. apply andb_true_iff in Hcmd.
    destruct Hcmd as [Hdot Hdig]. apply Z.eqb_eq in Hdot.
    rewrite (dispatch_connect br env s Hcb Hdot Hdig). cbv zeta.
    apply not_key_well_formed.
    destruct (_ || _); [reflexivity |]. unfold events. cbn [snd].
    match goal with
    | |- context [plat_capture_window_at ?a ?b ?c ?d =? 0] =>
        destruct (plat_capture_window_at a b c d =? 0)
    end; reflexivity.
  - destruct (Connected s) eqn:Hc.
    + destruct (plat_window_exists_at env (plat_calls s) (ConnectedWid s)
                  (ConnectedPid s)) as [wid'|] eqn:Hx.
      * rewrite (dispatch_text_typed br env s wid' Hcb Hcmd Hc Hx). cbv zeta.
        pose proof (scan_keys_well_formed (ConnectedPid s)
                      (scanned_bytes (request br)) key_vars_init
                      ltac:(apply Forall_take, bytes_are_bytes)
                      ltac:(simpl; lia)) as Hk.
        destruct (scan_keys _ _ _) as [keys v]. cbn [fst] in Hk.
        destruct (after_typing env _) as [s2 shot].
        unfold events. cbn [snd].
        constructor; [exact I |]. apply Forall_app. split; [exact Hk |].
        apply Forall_app. split.
        -- destruct (auto_newline (request br) v); cbn [trailing_return];
             repeat constructor; unfold PLAT_KEY_RETURN; lia.
        -- constructor; [exact I |]. destruct shot; repeat constructor.
      * rewrite (dispatch_text_closed br env s Hcb Hcmd Hc Hx).
        apply not_key_well_formed. reflexivity.
    + rewrite (dispatch_text_unconnected br env s Hcb Hcmd Hc).
      apply not_key_well_formed. reflexivity.
Qed.

(** X11: every key a request sends is a well-formed key for the process
    that was connected when the request arrived: it goes to that
    process, its kind is one of the four of platform.h, its character
    is a byte and its modifiers are a mask of Ctrl, Alt and Cmd. *)
Theorem sent_keys_are_well_formed (env : Env) (st : State) (br : BotRequest)
    (p special ch m : Z) :
  In (PlatSendKey p special ch m) (events (handle_request br env st)) ->
  p = ConnectedPid st /\ 0 <= special <= 3 /\ 0 <= ch <= 255 /\ 0 <= m <= 7.
Proof.
  intros Hin.
  assert (H : Forall (well_formed_key (ConnectedPid st))
                (events (handle_request br env st))).
  { destruct (owner_request_dec st br) as [Ho | Hn].
    - pose proof (owner_events_console br env st) as Hcon.
      destruct (gate_open_dec env st) as [Hg | Hg].
      + rewrite (handle_request_accepted br env st Ho Hg).
        pose proof (dispatch_keys_well_formed br env
                      (gate_passed_state env (after_owner br env st))) as Hd.
        rewrite (gate_passed_pid br env st) in Hd.
        destruct (handle_request_dispatch br env _) as [[u s3] o3].
        unfold events in *. cbn [snd] in *. apply Forall_app. split.
        * apply not_key_well_formed, not_window_not_key, console_not_window.
          exact Hcon.
        * exact Hd.
      + destruct (handle_request_closed br env st Ho Hg) as (Heq & Hw & Hc).
        rewrite Heq. unfold events at 1. cbn [snd]. apply Forall_app. split.
        * apply not_key_well_formed, not_window_not_key, console_not_window.
          exact Hcon.
        * apply not_key_well_formed, not_window_not_key.
          apply closed_gate_events; assumption.
    - rewrite (handle_request_stranger br env st Hn).
      apply not_key_well_formed. reflexivity. }
  rewrite List.Forall_forall in H. exact (H _ Hin).
Qed.

Lemma sent_keys_are_well_formed_witness :
  5 = ConnectedPid sample_connected /\ 0 <= 0 <= 3 /\ 0 <= 108 <= 255 /\
  0 <= 0 <= 7.
Proof.
  apply (sent_keys_are_well_formed sample_env sample_connected
           (text_request 1 "ls") 5 0 108 0).
  vm_compute. right. left. reflexivity.
Defined.

(** ** Plain text and modifiers *)

Lemma step_by_token_plain pid b q v :
  plain_byte b ->
  step_by_token pid (b :: q) v = ([typed pid (mods v) b], q, after_key false v).
Proof.
  intros (H1 & H2 & H3). unfold step_by_token.
  cbn [starts_with RED_HEART ORANGE_HEART BLUE_HEART GREEN_HEART YELLOW_HEART].
  replace (b =? 226) with false by (symmetry; apply Z.eqb_neq; exact H1).
  replace (b =? 240) with false by (symmetry; apply Z.eqb_neq; exact H2).
  replace (b =? 92) with false by (symmetry; apply Z.eqb_neq; exact H3).
  reflexivity.
Qed.

Lemma scan_keys_plain pid : forall p v,
  Forall plain_byte p ->
  scan_keys pid p v = (typed_all pid (mods v) p, after_plain (length p) v).
Proof.
  induction p as [|b q IH]; intros v Hp.
  - rewrite scan_keys_nil. reflexivity.
  - inversion Hp as [|? ? Hb Hq]; subst.
    rewrite scan_keys_step by discriminate.
    rewrite (step_by_token_plain pid b q v Hb).
    rewrite (IH (after_key false v) Hq).
    cbn [typed_all app length]. f_equal.
    + f_equal. destruct q; reflexivity.
    + destruct q as [|c q]; [unfold after_plain, after_key; f_equal; lia |].
      unfold after_plain, after_key. cbn [mods keycount had_mods length].
      f_equal. lia.
Qed.

Lemma plain_not_purple text :
  Forall plain_byte (bytes text) -> ends_with_purple_heart text = false.
Proof.
  intros Hp. destruct (ends_with_purple_heart text) eqn:E; [| reflexivity].
  apply ends_with_purple_heart_spec in E. destruct E as [pre Hpre].
  rewrite Hpre in Hp. apply Forall_app in Hp. destruct Hp as [_ Hp].
  inversion Hp as [|? ? (_ & H & _) _]. contradiction H. reflexivity.
Qed.

(** X12: plain text is typed as it is.  A text none of whose bytes is
    the first byte of a glyph or a backslash is sent, after the window
    is raised, as one unmodified character key for each byte, in order,
    followed by the automatic Return; the empty text sends the Return
    alone. *)
Theorem plain_text_is_typed_verbatim (env : Env) (st : State)
    (text : string) :
  Connected st = true -> Forall plain_byte (bytes text) ->
  send_keys text env st =
  (0, st,
   PlatRaiseWindow (ConnectedPid st) (ConnectedWid st)
   :: map (typed (ConnectedPid st) 0) (bytes text)
   ++ [Usleep 50000; PlatSendKey (ConnectedPid st) PLAT_KEY_RETURN 0 0]).
Proof.
  intros Hc Hp. rewrite (send_keys_eq text env st Hc).
  pose proof (plain_not_purple text Hp) as Hnp.
  rewrite (scanned_bytes_all text Hnp).
  rewrite (scan_keys_plain _ _ _ Hp).
  unfold auto_newline. rewrite Hnp. cbn [negb andb].
  assert (Ht : typed_all (ConnectedPid st) (mods key_vars_init) (bytes text)
               = map (typed (ConnectedPid st) 0) (bytes text))
    by (destruct (bytes text); reflexivity).
  rewrite Ht.
  assert (Hv : negb ((keycount (after_plain (length (bytes text))
                                  key_vars_init) =? 1)
                     && had_mods (after_plain (length (bytes text))
                                    key_vars_init))
               && negb (last_was_nl (after_plain (length (bytes text))
                                       key_vars_init)) = true).
  { destruct (length (bytes text)); cbn; [reflexivity |].
    rewrite andb_false_r. reflexivity. }
  rewrite Hv. reflexivity.
Qed.

Lemma plain_text_is_typed_verbatim_witness :
  send_keys "ls" sample_env sample_connected =
  (0, sample_connected,
   PlatRaiseWindow 5 11
   :: map (typed 5 0) (bytes "ls")
   ++ [Usleep 50000; PlatSendKey 5 PLAT_KEY_RETURN 0 0]).
Proof.
  apply (plain_text_is_typed_verbatim sample_env sample_connected "ls").
  - reflexivity.
  - repeat constructor; discriminate.
Defined.






(** ** The matchers read within their bounds *)

Lemma byte_at_take p n i :
  0 <= i < n -> byte_at (take (Z.to_nat n) p) i = byte_at p i.
Proof.
  intros H. unfold byte_at. rewrite nth_firstn.
  replace (Z.to_nat i <? Z.to_nat n)%nat with true
    by (symmetry; apply Nat.ltb_lt; lia).
  reflexivity.
Qed.

Ltac bounded_matcher :=
  repeat match goal with
         | |- context [?r >=? ?k] =>
             destruct (Z.geb_spec r k); cbn [andb]
         end;
  rewrite ?byte_at_take by lia;
  repeat match goal with
         | |- context [if ?c then _ else _] => destruct c
         end;
  repeat split; auto; lia.

(** X14: the glyph matchers never look past the bytes they are given.
    The result of each is 0 or the length of the glyph it found, never
    more than [remaining], and it depends on the first [remaining]
    bytes only. *)
Theorem matchers_stay_in_bounds (p : list Z) (remaining : Z) (heart : ascii) :
  0 <= remaining ->
  let q := take (Z.to_nat remaining) p in
  (match_red_heart q remaining = match_red_heart p remaining /\
   (match_red_heart p remaining = 0 \/ match_red_heart p remaining = 3 \/
    match_red_heart p remaining = 6) /\
   match_red_heart p remaining <= remaining) /\
  (match_colored_heart q remaining heart
   = match_colored_heart p remaining heart /\
   ((match_colored_heart p remaining heart).1 = 0 \/
    (match_colored_heart p remaining heart).1 = 4) /\
   (match_colored_heart p remaining heart).1 <= remaining) /\
  (match_orange_heart q remaining = match_orange_heart p remaining /\
   (match_orange_heart p remaining = 0 \/
    match_orange_heart p remaining = 4) /\
   match_orange_heart p remaining <= remaining) /\
  (match_purple_heart q remaining = match_purple_heart p remaining /\
   (match_purple_heart p remaining = 0 \/
    match_purple_heart p remaining = 4) /\
   match_purple_heart p remaining <= remaining).
Proof.
  intros Hr q. subst q.
  unfold match_red_heart, match_colored_heart, match_orange_heart,
    match_purple_heart.
  split; [| split; [| split]].
  - bounded_matcher.
  - bounded_matcher.
  - bounded_matcher.
  - bounded_matcher.
Qed.

Lemma matchers_stay_in_bounds_witness :
  let p := [0xE2; 0x9D; 0xA4; 0xEF; 0xB8; 0x8F] in
  let q := take (Z.to_nat 4) p in
  (match_red_heart q 4 = match_red_heart p 4 /\
   (match_red_heart p 4 = 0 \/ match_red_heart p 4 = 3 \/
    match_red_heart p 4 = 6) /\
   match_red_heart p 4 <= 4) /\
  (match_colored_heart q 4 "000" = match_colored_heart p 4 "000" /\
   ((match_colored_heart p 4 "000").1 = 0 \/
    (match_colored_heart p 4 "000").1 = 4) /\
   (match_colored_heart p 4 "000").1 <= 4) /\
  (match_orange_heart q 4 = match_orange_heart p 4 /\
   (match_orange_heart p 4 = 0 \/ match_orange_heart p 4 = 4) /\
   match_orange_heart p 4 <= 4) /\
  (match_purple_heart q 4 = match_purple_heart p 4 /\
   (match_purple_heart p 4 = 0 \/ match_purple_heart p 4 = 4) /\
   match_purple_heart p 4 <= 4).
Proof.
  apply (matchers_stay_in_bounds [0xE2; 0x9D; 0xA4; 0xEF; 0xB8; 0x8F] 4 "000").
  lia.
Defined.

(** * The provisioning side of the one-time password *)

(** ** C strings and their bytes *)

Lemma uchar_of_byte b : is_byte b -> uchar (ascii_of_N (Z.to_N b)) = b.
Proof.
  unfold is_byte, uchar. intros H.
  rewrite N_ascii_embedding by lia. lia.
Qed.

Lemma bytes_cstring l : Forall is_byte l -> bytes (cstring l) = l.
Proof.
  unfold bytes, cstring. intros H.
  rewrite list_ascii_of_string_of_list_ascii, map_map.
  induction H as [|b l Hb _ IH]; [reflexivity |].
  cbn [map]. rewrite (uchar_of_byte b Hb), IH. reflexivity.
Qed.

Lemma length_cstring l : String.length (cstring l) = length l.
Proof.
  unfold cstring. induction l as [|b l IH]; [reflexivity |].
  cbn [map string_of_list_ascii String.length]. rewrite IH. reflexivity.
Qed.

(** ** Hexadecimal and back *)

Lemma hex_char_byte d : 0 <= d < 16 -> is_byte (hex_char d).
Proof.
  unfold hex_char, is_byte. intros H. destruct (d <? 10); lia.
Qed.

Lemma sprintf_02x_bytes b : is_byte b -> Forall is_byte (sprintf_02x b).
Proof.
  unfold is_byte at 1. intros H. unfold sprintf_02x.
  constructor; [| constructor; [| constructor]]; apply hex_char_byte.
  - split; [apply Z.div_pos; lia | apply Z.div_lt_upper_bound; lia].
  - apply Z.mod_pos_bound. lia.
Qed.

Lemma bytes_to_hex_loop_all : forall data i,
  0 <= i -> i + Z.of_nat (length data) <= 63 ->
  bytes_to_hex_loop data i = flat_map sprintf_02x data.
Proof.
  induction data as [|b data IH]; intros i Hi Hlen; [reflexivity |].
  cbn [bytes_to_hex_loop flat_map]. cbn [length] in Hlen.
  rewrite Nat2Z.inj_succ in Hlen.
  replace (i <? 63) with true by (symmetry; apply Z.ltb_lt; lia).
  rewrite IH by lia. reflexivity.
Qed.

Lemma flat_map_sprintf_bytes data :
  Forall is_byte data -> Forall is_byte (flat_map sprintf_02x data).
Proof.
  induction 1 as [|b data Hb _ IH]; [constructor |].
  cbn [flat_map]. apply Forall_app. split; [apply sprintf_02x_bytes |];
    assumption.
Qed.

Lemma length_flat_map_sprintf data :
  length (flat_map sprintf_02x data) = (2 * length data)%nat.
Proof.
  induction data as [|b data IH]; [reflexivity |].
  cbn [flat_map length app sprintf_02x]. rewrite IH. lia.
Qed.

Lemma hex_to_bytes_sprintf env : forall data max,
  sscanf_reads_hex env -> Forall is_byte data ->
  (length data <= max)%nat ->
  hex_to_bytes env (flat_map sprintf_02x data) max = data.
Proof.
  intros data max Hsc Hb. revert max.
  induction Hb as [|b data Hb _ IH]; intros max Hmax.
  - destruct max; reflexivity.
  - destruct max as [|max]; [cbn [length] in Hmax; lia |].
    cbn [flat_map sprintf_02x app hex_to_bytes].
    unfold is_byte in Hb.
    rewrite Hsc.
    + rewrite <- Z.div_mod by lia. unfold to_uchar.
      rewrite Z.mod_small by lia.
      rewrite IH by (cbn [length] in Hmax; lia). reflexivity.
    + split; [apply Z.div_pos; lia | apply Z.div_lt_upper_bound; lia].
    + apply Z.mod_pos_bound. lia.
Qed.

(** Every pair [hex_to_bytes] converts takes two characters. *)
Lemma hex_to_bytes_length env : forall max hex,
  (length (hex_to_bytes env hex max) <= max)%nat /\
  (2 * length (hex_to_bytes env hex max) <= length hex)%nat.
Proof.
  induction max as [|max IH]; intros hex;
    destruct hex as [|a [|b rest]]; cbn [hex_to_bytes length]; try lia.
  destruct (sscanf_2x env (a :: b :: rest)); [| cbn [length]; lia].
  destruct (IH rest) as [H1 H2]. cbn [length]. lia.
Qed.

(** X15: what [bytes_to_hex] writes, [hex_to_bytes] reads back.  For up
    to 63 bytes the text has two characters a byte and is read back as
    the very bytes, as long as the caller's buffer takes them all. *)
Theorem hex_round_trip (env : Env) (data : list Z) (max : nat) :
  sscanf_reads_hex env -> Forall is_byte data ->
  (length data <= 63)%nat -> (length data <= max)%nat ->
  exists hex,
    bytes_to_hex data = Some hex /\
    String.length hex = (2 * length data)%nat /\
    hex_to_bytes env (bytes hex) max = data.
Proof.
  intros Hsc Hb H63 Hmax. unfold bytes_to_hex.
  replace (length data <=? 63)%nat with true
    by (symmetry; apply Nat.leb_le; exact H63).
  eexists. split; [reflexivity |].
  rewrite bytes_to_hex_loop_all by lia.
  rewrite length_cstring, length_flat_map_sprintf.
  split; [reflexivity |].
  rewrite bytes_cstring by (apply flat_map_sprintf_bytes; exact Hb).
  apply hex_to_bytes_sprintf; assumption.
Qed.

Lemma sample_env_reads_hex : sscanf_reads_hex sample_env.
Proof.
  intros x y rest Hx Hy.
  assert (x = 0 \/ x = 1 \/ x = 2 \/ x = 3 \/ x = 4 \/ x = 5 \/ x = 6 \/ x = 7
          \/ x = 8 \/ x = 9 \/ x = 10 \/ x = 11 \/ x = 12 \/ x = 13 \/ x = 14
          \/ x = 15) as Dx by lia.
  assert (y = 0 \/ y = 1 \/ y = 2 \/ y = 3 \/ y = 4 \/ y = 5 \/ y = 6 \/ y = 7
          \/ y = 8 \/ y = 9 \/ y = 10 \/ y = 11 \/ y = 12 \/ y = 13 \/ y = 14
          \/ y = 15) as Dy by lia.
  repeat (destruct Dx as [-> | Dx]);
    repeat (destruct Dy as [-> | Dy]); subst; reflexivity.
Defined.

Lemma sample_secret_bytes : Forall is_byte sample_secret.
Proof. repeat constructor; discriminate. Defined.

Lemma hex_round_trip_witness :
  exists hex,
    bytes_to_hex sample_secret = Some hex /\
    String.length hex = (2 * length sample_secret)%nat /\
    hex_to_bytes sample_env (bytes hex) 20 = sample_secret.
Proof.
  apply (hex_round_trip sample_env sample_secret 20).
  - exact sample_env_reads_hex.
  - exact sample_secret_bytes.
  - vm_compute. lia.
  - vm_compute. lia.
Defined.

(** ** Verifying against the stored secret *)

Lemma totp_code_range env secret t : 0 <= totp_code env secret t < 1000000.
Proof. unfold totp_code. cbv zeta. apply Z.mod_pos_bound. lia. Qed.

(** X16: [totp_verify] accepts a code only against a whole secret.  If
    it returns 1, the store holds a secret of 40 characters at least,
    the number read from the code is below a million, and the clock was
    read once; in any case nothing else of the state changes and
    nothing is sent. *)
Theorem totp_verify_needs_whole_secret (env : Env) (s : State)
    (code : string) :
  let r := totp_verify code env s in
  events r = [] /\
  (final_state r = s \/ final_state r = tick_clock s) /\
  (result r = true ->
   final_state r = tick_clock s /\
   0 <= to_uint32 (atoi code) < 1000000 /\
   exists hex,
     kv s !! "totp_secret" = Some hex /\ (40 <= String.length hex)%nat).
Proof.
  cbv zeta. pose proof (totp_verify_frame code env s) as [He Hf].
  split; [exact He |]. split; [exact Hf |].
  rewrite totp_verify_eq. unfold result, final_state.
  destruct (kv s !! "totp_secret") as [hex|]; [| discriminate].
  cbv zeta.
  destruct (Z.eqb_spec
              (Z.of_nat (length (hex_to_bytes env (bytes hex) 20))) 20)
    as [E | E]; cbn [negb fst snd]; [| discriminate].
  intros Hex. split; [reflexivity |]. split.
  - apply existsb_exists in Hex. destruct Hex as (i & _ & Hi).
    apply Z.eqb_eq in Hi. rewrite <- Hi. apply totp_code_range.
  - exists hex. split; [reflexivity |].
    destruct (hex_to_bytes_length env 20 (bytes hex)) as [_ H2].
    rewrite length_bytes in H2. lia.
Qed.

Lemma totp_verify_needs_whole_secret_witness :
  let r := totp_verify "394048" sample_env sample_state in
  events r = [] /\
  (final_state r = sample_state \/ final_state r = tick_clock sample_state) /\
  (final_state r = tick_clock sample_state /\
   0 <= to_uint32 (atoi "394048") < 1000000 /\
   exists hex,
     kv sample_state !! "totp_secret" = Some hex /\
     (40 <= String.length hex)%nat).
Proof.
  destruct (totp_verify_needs_whole_secret sample_env sample_state "394048")
    as (H1 & H2 & H3).
  split; [exact H1 |]. split; [exact H2 |]. apply H3. reflexivity.
Defined.

(** ** Base32 *)

Lemma mod_pow2_succ y n :
  0 <= n ->
  y mod 2 ^ (n + 1) = y mod 2 ^ n + 2 ^ n * Z.b2z (Z.testbit y n).
Proof.
  intros Hn. rewrite Z.pow_add_r by lia. change (2 ^ 1) with 2.
  rewrite Z.rem_mul_r by lia. rewrite Z.testbit_spec' by lia. reflexivity.
Qed.

(** The five bits from [k] on, as the source selects them. *)
Lemma land_shiftr_bits buf k :
  0 <= k ->
  Z.land (Z.shiftr buf k) 0x1f =
  bits_value [Z.testbit buf (k + 4); Z.testbit buf (k + 3);
              Z.testbit buf (k + 2); Z.testbit buf (k + 1); Z.testbit buf k].
Proof.
  intros Hk. change 0x1f with (Z.ones 5). rewrite Z.land_ones by lia.
  set (y := Z.shiftr buf k).
  assert (Hb : forall i, 0 <= i -> Z.testbit buf (k + i) = Z.testbit y i).
  { intros i Hi. unfold y. rewrite Z.shiftr_spec by lia. f_equal. lia. }
  rewrite (Hb 4), (Hb 3), (Hb 2), (Hb 1) by lia.
  replace (Z.testbit buf k) with (Z.testbit y 0)
    by (rewrite <- (Hb 0) by lia; f_equal; lia).
  pose proof (mod_pow2_succ y 0 ltac:(lia)) as H0.
  pose proof (mod_pow2_succ y 1 ltac:(lia)) as H1.
  pose proof (mod_pow2_succ y 2 ltac:(lia)) as H2.
  pose proof (mod_pow2_succ y 3 ltac:(lia)) as H3.
  pose proof (mod_pow2_succ y 4 ltac:(lia)) as H4.
  change (2 ^ (0 + 1)) with 2 in H0. change (2 ^ (1 + 1)) with 4 in H1.
  change (2 ^ (2 + 1)) with 8 in H2. change (2 ^ (3 + 1)) with 16 in H3.
  change (2 ^ (4 + 1)) with 32 in H4.
  change (2 ^ 0) with 1 in *. change (2 ^ 1) with 2 in *.
  change (2 ^ 2) with 4 in *. change (2 ^ 3) with 8 in *.
  change (2 ^ 4) with 16 in *. change (2 ^ 5) with 32 in *.
  rewrite Z.mod_1_r in H0.
  unfold bits_value. cbn [fold_left]. lia.
Qed.

Lemma testbit_byte_high d i : is_byte d -> 8 <= i -> Z.testbit d i = false.
Proof.
  unfold is_byte. intros Hd Hi.
  rewrite <- (Z.mod_small d (2 ^ 8)) by (change (2 ^ 8) with 256; lia).
  apply Z.mod_pow2_bits_high. lia.
Qed.

(** A byte shifted into the 64-bit buffer: its bits come below the
    earlier ones, of which the highest eight are lost. *)
Lemma testbit_push buf d i :
  is_byte d -> 0 <= i < 64 ->
  Z.testbit (to_uint64 (Z.lor (Z.shiftl buf 8) d)) i =
  if i <? 8 then Z.testbit d i else Z.testbit buf (i - 8).
Proof.
  intros Hd Hi. unfold to_uint64.
  rewrite Z.mod_pow2_bits_low by lia.
  rewrite Z.lor_spec, Z.shiftl_spec by lia.
  destruct (Z.ltb_spec i 8).
  - rewrite Z.testbit_neg_r by lia. reflexivity.
  - rewrite (testbit_byte_high d i Hd) by lia. apply orb_false_r.
Qed.

Lemma low_bits_push buf d : forall n,
  is_byte d -> (n + 8 <= 64)%nat ->
  low_bits (to_uint64 (Z.lor (Z.shiftl buf 8) d)) (n + 8)
  = low_bits buf n ++ byte_bits d.
Proof.
  intros n Hd. induction n as [|n IH]; intros Hn.
  - cbn [Nat.add low_bits app]. unfold byte_bits.
    rewrite !(testbit_push buf d) by (exact Hd || lia).
    reflexivity.
  - cbn [Nat.add low_bits app]. rewrite IH by lia.
    rewrite (testbit_push buf d) by (exact Hd || lia).
    replace (Z.of_nat (n + 8) <? 8) with false
      by (symmetry; apply Z.ltb_ge; lia).
    do 2 f_equal. lia.
Qed.

Lemma split5_short l : (length l < 5)%nat -> split5 l = ([], l).
Proof.
  intros H. destruct l as [|b0 [|b1 [|b2 [|b3 [|b4 rest]]]]]; try reflexivity.
  cbn [length] in H. lia.
Qed.

(** Induction over a list of bits, five at a time. *)
Lemma split5_ind (P : list bool -> Prop) :
  (forall l, (length l < 5)%nat -> P l) ->
  (forall b0 b1 b2 b3 b4 rest, P rest ->
     P (b0 :: b1 :: b2 :: b3 :: b4 :: rest)) ->
  forall l, P l.
Proof.
  intros Hshort Hstep l. remember (length l) as n eqn:Hn. revert l Hn.
  induction n as [n IH] using lt_wf_ind. intros l Hn.
  destruct l as [|b0 [|b1 [|b2 [|b3 [|b4 rest]]]]];
    try (apply Hshort; cbn [length]; lia).
  apply Hstep. apply (IH (length rest)); [| reflexivity].
  subst n. cbn [length]. lia.
Qed.

Lemma split5_length l :
  length l = (5 * length (split5 l).1 + length (split5 l).2)%nat /\
  (length (split5 l).2 < 5)%nat.
Proof.
  induction l as [l Hl | b0 b1 b2 b3 b4 rest IH] using split5_ind.
  - rewrite (split5_short l Hl). cbn [fst snd length]. lia.
  - cbn [split5]. destruct (split5 rest) as [g r]. cbn [fst snd length] in *.
    lia.
Qed.

Lemma split5_app l l' :
  split5 (l ++ l') =
  let '(g, r) := split5 l in
  let '(g', r') := split5 (r ++ l') in
  (g ++ g', r').
Proof.
  induction l as [l Hl | b0 b1 b2 b3 b4 rest IH] using split5_ind.
  - rewrite (split5_short l Hl). destruct (split5 (l ++ l')); reflexivity.
  - cbn [app split5]. rewrite IH. destruct (split5 rest) as [g r].
    destruct (split5 (r ++ l')) as [g' r']. reflexivity.
Qed.

Lemma length_low_bits buf n : length (low_bits buf n) = n.
Proof.
  induction n as [|n IH]; cbn [low_bits length];
    [reflexivity | rewrite IH; reflexivity].
Qed.

(** The inner loop takes the full groups of the pending bits. *)
Lemma base32_drain_bits buf : forall (fuel n : nat),
  (n <= fuel)%nat ->
  base32_drain fuel buf (Z.of_nat n) =
  (map (char_at base32_alphabet) (split5 (low_bits buf n)).1,
   Z.of_nat (length (split5 (low_bits buf n)).2)) /\
  (split5 (low_bits buf n)).2
  = low_bits buf (length (split5 (low_bits buf n)).2).
Proof.
  induction fuel as [|fuel IH]; intros n Hn.
  - assert (n = 0%nat) by lia. subst n. split; reflexivity.
  - destruct (Nat.lt_ge_cases n 5) as [Hlt | Hge].
    + rewrite split5_short by (rewrite length_low_bits; exact Hlt).
      cbn [fst snd map base32_drain].
      replace (Z.of_nat n >=? 5) with false
        by (symmetry; rewrite Z.geb_leb; apply Z.leb_gt; lia).
      rewrite length_low_bits. split; reflexivity.
    + destruct n as [|[|[|[|[|n]]]]]; try lia.
      cbn [base32_drain].
      replace (Z.of_nat (S (S (S (S (S n))))) >=? 5) with true
        by (symmetry; rewrite Z.geb_leb; apply Z.leb_le; lia).
      cbv zeta.
      replace (Z.of_nat (S (S (S (S (S n))))) - 5) with (Z.of_nat n) by lia.
      destruct (IH n ltac:(lia)) as [Hd Hr]. rewrite Hd.
      cbn [low_bits split5].
      destruct (split5 (low_bits buf n)) as [g r]. cbn [fst snd map] in *.
      split; [| exact Hr].
      rewrite (land_shiftr_bits buf (Z.of_nat n)) by lia.
      repeat f_equal; lia.
Qed.

(** The outer loop takes the full groups of the pending bits followed by
    the bits of the bytes, and keeps the rest as its pending bits. *)
Lemma base32_loop_bits : forall data buf n,
  Forall is_byte data -> (n < 5)%nat ->
  exists buf',
    base32_loop data buf (Z.of_nat n) =
    (map (char_at base32_alphabet)
       (split5 (low_bits buf n ++ flat_map byte_bits data)).1,
     buf',
     Z.of_nat (length (split5 (low_bits buf n ++ flat_map byte_bits data)).2))
    /\
    (split5 (low_bits buf n ++ flat_map byte_bits data)).2
    = low_bits buf'
        (length (split5 (low_bits buf n ++ flat_map byte_bits data)).2).
Proof.
  induction data as [|d data IH]; intros buf n Hb Hn.
  - exists buf. cbn [flat_map base32_loop]. rewrite app_nil_r.
    rewrite split5_short by (rewrite length_low_bits; exact Hn).
    cbn [fst snd map]. rewrite length_low_bits. split; reflexivity.
  - inversion Hb as [|? ? Hd Hdata]; subst.
    cbn [flat_map base32_loop]. cbv zeta.
    set (buf1 := to_uint64 (Z.lor (Z.shiftl buf 8) d)).
    replace (Z.of_nat n + 8) with (Z.of_nat (n + 8)) by lia.
    rewrite Nat2Z.id.
    destruct (base32_drain_bits buf1 (n + 8) (n + 8) ltac:(lia)) as [Hdr Hr1].
    assert (HL : low_bits buf1 (n + 8) = low_bits buf n ++ byte_bits d)
      by (apply low_bits_push; [exact Hd | lia]).
    rewrite HL in Hdr, Hr1. rewrite Hdr. clear Hdr HL.
    rewrite app_assoc.
    rewrite (split5_app (low_bits buf n ++ byte_bits d)).
    destruct (split5_length (low_bits buf n ++ byte_bits d)) as [_ Hshort].
    destruct (split5 (low_bits buf n ++ byte_bits d)) as [g1 r1].
    cbn [fst snd] in *.
    destruct (IH buf1 (length r1) Hdata Hshort) as (buf' & Hloop & Hr2).
    rewrite <- Hr1 in Hloop, Hr2. rewrite Hloop.
    destruct (split5 (r1 ++ flat_map byte_bits data)) as [g2 r2].
    cbn [fst snd] in *. exists buf'. rewrite map_app. split; [reflexivity |].
    exact Hr2.
Qed.

(** The last character: the pending bits, filled with zero bits. *)
Lemma base32_last_bits buf n :
  (0 < n < 5)%nat ->
  Z.land (to_uint64 (Z.shiftl buf (5 - Z.of_nat n))) 0x1f
  = bits_value (low_bits buf n ++ repeat false (5 - n)).
Proof.
  intros Hn.
  rewrite <- (Z.shiftr_0_r (to_uint64 _)).
  rewrite land_shiftr_bits by lia.
  assert (Hb : forall i, 0 <= i < 5 ->
            Z.testbit (to_uint64 (Z.shiftl buf (5 - Z.of_nat n))) i
            = Z.testbit buf (i - (5 - Z.of_nat n))).
  { intros i Hi. unfold to_uint64. rewrite Z.mod_pow2_bits_low by lia.
    apply Z.shiftl_spec. lia. }
  rewrite !Hb by lia.
  destruct n as [|[|[|[|[|n]]]]]; try lia;
    cbn [low_bits repeat Nat.sub app];
    repeat match goal with
           | |- context [Z.testbit buf ?i] =>
               let v := eval vm_compute in i in
               progress change i with v
           end;
    rewrite ?(Z.testbit_neg_r buf) by lia; reflexivity.
Qed.

(** X17: [base32_encode] is the Base32 of RFC 4648 without padding: for
    bytes of any number, the characters it writes are those the groups
    of five bits of the data select, the last group filled with zeros.
    The bits that leave its 64-bit buffer are never needed again. *)
Theorem base32_is_rfc4648 (data : list Z) :
  Forall is_byte data -> base32_chars data = base32_rfc4648 data.
Proof.
  intros Hb. unfold base32_chars, base32_rfc4648, groups5.
  destruct (base32_loop_bits data 0 0 Hb ltac:(lia)) as (buf' & Hloop & Hr).
  change (Z.of_nat 0) with 0 in Hloop. rewrite Hloop.
  cbn [low_bits app] in *.
  destruct (split5_length (flat_map byte_bits data)) as [_ Hshort].
  destruct (split5 (flat_map byte_bits data)) as [g r]. cbn [fst snd] in *.
  destruct r as [|b r].
  - reflexivity.
  - replace (Z.of_nat (length (b :: r)) >? 0) with true
      by (symmetry; apply Z.gtb_lt; cbn [length]; lia).
    rewrite map_app. cbn [map]. do 3 f_equal.
    rewrite (base32_last_bits buf' (length (b :: r)))
      by (cbn [length] in *; lia).
    rewrite <- Hr. reflexivity.
Qed.

Lemma base32_is_rfc4648_witness :
  base32_chars sample_secret = base32_rfc4648 sample_secret.
Proof.
  apply (base32_is_rfc4648 sample_secret). exact sample_secret_bytes.
Defined.

(** *** Length, alphabet and injectivity *)

Lemma length_byte_bits data :
  length (flat_map byte_bits data) = (8 * length data)%nat.
Proof.
  induction data as [|d data IH]; [reflexivity |].
  cbn [flat_map byte_bits app length]. rewrite IH. lia.
Qed.

Lemma length_groups5 l : length (groups5 l) = ((length l + 4) / 5)%nat.
Proof.
  unfold groups5. destruct (split5_length l) as [Hl Hr].
  destruct (split5 l) as [g r]. cbn [fst snd] in *.
  destruct r as [|b r].
  - cbn [length] in Hl. rewrite Hl.
    replace (5 * length g + 0 + 4)%nat with (4 + length g * 5)%nat by lia.
    rewrite Nat.div_add by lia. reflexivity.
  - rewrite length_app. cbn [length] in *. rewrite Hl.
    replace (5 * length g + S (length r) + 4)%nat
      with (length r + 5 + length g * 5)%nat by lia.
    rewrite Nat.div_add by lia.
    replace ((length r + 5) / 5)%nat with 1%nat; [lia |].
    apply (Nat.div_unique _ 5 1 (length r)); lia.
Qed.

Lemma bits_value_5 b0 b1 b2 b3 b4 :
  0 <= bits_value [b0; b1; b2; b3; b4] < 32.
Proof.
  destruct b0, b1, b2, b3, b4; vm_compute; split;
    solve [discriminate | reflexivity].
Qed.

Lemma split5_range l : Forall (fun v => 0 <= v < 32) (split5 l).1.
Proof.
  induction l as [l Hl | b0 b1 b2 b3 b4 rest IH] using split5_ind.
  - rewrite (split5_short l Hl). constructor.
  - cbn [split5]. destruct (split5 rest) as [g r]. cbn [fst] in *.
    constructor; [apply bits_value_5 | exact IH].
Qed.

Lemma groups5_range l : Forall (fun v => 0 <= v < 32) (groups5 l).
Proof.
  unfold groups5. pose proof (split5_range l) as Hg.
  destruct (split5_length l) as [_ Hr].
  destruct (split5 l) as [g r]. cbn [fst snd] in *.
  destruct r as [|b0 r]; [exact Hg |].
  apply Forall_app. split; [exact Hg |]. constructor; [| constructor].
  destruct r as [|b1 [|b2 [|b3 [|b4 r]]]]; cbn [length] in Hr; try lia;
    cbn [length Nat.sub repeat app]; apply bits_value_5.
Qed.

(** The place of a character in the alphabet. *)
Lemma base32_alphabet_place v :
  0 <= v < 32 ->
  let c := char_at base32_alphabet v in
  In c (bytes base32_alphabet) /\
  v = (if c <? 65 then c - 24 else c - 65).
Proof.
  intros Hv.
  assert (v = 0 \/ v = 1 \/ v = 2 \/ v = 3 \/ v = 4 \/ v = 5 \/ v = 6 \/ v = 7
          \/ v = 8 \/ v = 9 \/ v = 10 \/ v = 11 \/ v = 12 \/ v = 13 \/ v = 14
          \/ v = 15 \/ v = 16 \/ v = 17 \/ v = 18 \/ v = 19 \/ v = 20
          \/ v = 21 \/ v = 22 \/ v = 23 \/ v = 24 \/ v = 25 \/ v = 26
          \/ v = 27 \/ v = 28 \/ v = 29 \/ v = 30 \/ v = 31) as D by lia.
  repeat (destruct D as [-> | D];
          [split; [vm_compute; tauto | reflexivity] |]).
  subst v. split; [vm_compute; tauto | reflexivity].
Qed.

Lemma map_alphabet_inj g g' :
  Forall (fun v => 0 <= v < 32) g -> Forall (fun v => 0 <= v < 32) g' ->
  map (char_at base32_alphabet) g = map (char_at base32_alphabet) g' ->
  g = g'.
Proof.
  intros Hg. revert g'. induction Hg as [|v g Hv _ IH]; intros g' Hg' Heq.
  - destruct g'; [reflexivity | discriminate Heq].
  - destruct Hg' as [|v' g' Hv' Hg']; [discriminate Heq |].
    cbn [map] in Heq. injection Heq as Hc Hrest.
    destruct (base32_alphabet_place v Hv) as [_ E].
    destruct (base32_alphabet_place v' Hv') as [_ E'].
    cbv zeta in E, E'. rewrite Hc in E. f_equal; [congruence |].
    apply IH; assumption.
Qed.

Lemma bits_value_5_inj a0 a1 a2 a3 a4 b0 b1 b2 b3 b4 :
  bits_value [a0; a1; a2; a3; a4] = bits_value [b0; b1; b2; b3; b4] ->
  [a0; a1; a2; a3; a4] = [b0; b1; b2; b3; b4].
Proof.
  destruct a0, a1, a2, a3, a4, b0, b1, b2, b3, b4; intros H;
    solve [reflexivity | discriminate H].
Qed.

Lemma split5_cons g r b0 b1 b2 b3 b4 rest :
  split5 rest = (g, r) ->
  split5 (b0 :: b1 :: b2 :: b3 :: b4 :: rest)
  = (bits_value [b0; b1; b2; b3; b4] :: g, r).
Proof. intros H. cbn [split5]. rewrite H. reflexivity. Qed.

Lemma groups5_cons b0 b1 b2 b3 b4 rest :
  groups5 (b0 :: b1 :: b2 :: b3 :: b4 :: rest)
  = bits_value [b0; b1; b2; b3; b4] :: groups5 rest.
Proof.
  unfold groups5. cbn [split5]. destruct (split5 rest) as [g r].
  destruct r; reflexivity.
Qed.

Lemma groups5_short l :
  (length l < 5)%nat ->
  groups5 l =
  match l with
  | [] => []
  | _ => [bits_value (l ++ repeat false (5 - length l))]
  end.
Proof.
  intros H. unfold groups5. rewrite (split5_short l H). reflexivity.
Qed.

Lemma groups5_inj : forall l l',
  length l = length l' -> groups5 l = groups5 l' -> l = l'.
Proof.
  induction l as [l Hl | b0 b1 b2 b3 b4 rest IH] using split5_ind;
    intros l' Hlen Heq.
  - rewrite (groups5_short l Hl) in Heq.
    rewrite (groups5_short l') in Heq by lia.
    destruct l as [|a0 [|a1 [|a2 [|a3 [|a4 l]]]]];
      destruct l' as [|c0 [|c1 [|c2 [|c3 [|c4 l']]]]];
      cbn [length] in *; try lia; try reflexivity;
      cbn [length Nat.sub repeat app] in Heq;
      injection Heq as Heq; apply bits_value_5_inj in Heq; congruence.
  - destruct l' as [|c0 [|c1 [|c2 [|c3 [|c4 rest']]]]];
      cbn [length] in Hlen; try lia.
    rewrite !groups5_cons in Heq. injection Heq as Hv Hrest.
    apply bits_value_5_inj in Hv. injection Hv as -> -> -> -> ->.
    do 5 f_equal. apply IH; [lia | exact Hrest].
Qed.

Lemma byte_of_bits d :
  is_byte d -> d = bits_value (byte_bits d).
Proof.
  unfold is_byte. intros Hd.
  rewrite <- (Z.mod_small d (2 ^ 8)) at 1 by (change (2 ^ 8) with 256; lia).
  pose proof (mod_pow2_succ d 0 ltac:(lia)) as H0.
  pose proof (mod_pow2_succ d 1 ltac:(lia)) as H1.
  pose proof (mod_pow2_succ d 2 ltac:(lia)) as H2.
  pose proof (mod_pow2_succ d 3 ltac:(lia)) as H3.
  pose proof (mod_pow2_succ d 4 ltac:(lia)) as H4.
  pose proof (mod_pow2_succ d 5 ltac:(lia)) as H5.
  pose proof (mod_pow2_succ d 6 ltac:(lia)) as H6.
  pose proof (mod_pow2_succ d 7 ltac:(lia)) as H7.
  change (2 ^ (0 + 1)) with 2 in H0. change (2 ^ (1 + 1)) with 4 in H1.
  change (2 ^ (2 + 1)) with 8 in H2. change (2 ^ (3 + 1)) with 16 in H3.
  change (2 ^ (4 + 1)) with 32 in H4. change (2 ^ (5 + 1)) with 64 in H5.
  change (2 ^ (6 + 1)) with 128 in H6. change (2 ^ (7 + 1)) with 256 in H7.
  change (2 ^ 0) with 1 in *. change (2 ^ 1) with 2 in *.
  change (2 ^ 2) with 4 in *. change (2 ^ 3) with 8 in *.
  change (2 ^ 4) with 16 in *. change (2 ^ 5) with 32 in *.
  change (2 ^ 6) with 64 in *. change (2 ^ 7) with 128 in *.
  change (2 ^ 8) with 256 in *.
  rewrite Z.mod_1_r in H0.
  unfold bits_value, byte_bits. cbn [fold_left]. lia.
Qed.

Lemma byte_bits_inj : forall a b,
  Forall is_byte a -> Forall is_byte b ->
  flat_map byte_bits a = flat_map byte_bits b -> a = b.
Proof.
  intros a b Ha. revert b. induction Ha as [|x a Hx _ IH]; intros b Hb Heq.
  - destruct b; [reflexivity | discriminate Heq].
  - destruct Hb as [|y b Hy Hb]; [discriminate Heq |].
    cbn [flat_map] in Heq.
    assert (Hxy : byte_bits x = byte_bits y /\
                  flat_map byte_bits a = flat_map byte_bits b).
    { apply app_inj_1 in Heq; [exact Heq | reflexivity]. }
    destruct Hxy as [Hxy Hrest].
    rewrite (byte_of_bits x Hx), (byte_of_bits y Hy), Hxy.
    f_equal. apply IH; assumption.
Qed.

Lemma base32_chars_bytes data :
  Forall is_byte data -> Forall is_byte (base32_chars data).
Proof.
  intros Hb. rewrite (base32_is_rfc4648 data Hb). unfold base32_rfc4648.
  pose proof (groups5_range (flat_map byte_bits data)) as Hr.
  induction Hr as [|v g Hv _ IH]; [constructor |].
  cbn [map]. constructor; [| exact IH].
  destruct (base32_alphabet_place v Hv) as [Hin _]. cbv zeta in Hin.
  apply byte_at_byte, bytes_are_bytes.
Qed.

(** X18: the text [base32_encode] returns for [n] bytes has
    [(8n + 4) / 5] characters, the number of groups of five bits, all of
    them letters and digits of its alphabet; it fits the 128 bytes of
    the static buffer for up to 79 bytes of data, and for 80 bytes and
    more the function writes past the end of the buffer. *)
Theorem base32_length_and_alphabet (data : list Z) :
  Forall is_byte data ->
  length (base32_chars data) = ((8 * length data + 4) / 5)%nat /\
  Forall (fun c => In c (bytes base32_alphabet)) (base32_chars data) /\
  ((length data <= 79)%nat ->
   exists b32, base32_encode data = Some b32 /\
               bytes b32 = base32_chars data) /\
  ((80 <= length data)%nat -> base32_encode data = None).
Proof.
  intros Hb.
  assert (Hlen : length (base32_chars data)
                 = ((8 * length data + 4) / 5)%nat).
  { rewrite (base32_is_rfc4648 data Hb). unfold base32_rfc4648.
    rewrite length_map, length_groups5, length_byte_bits. reflexivity. }
  split; [exact Hlen |]. split; [| split].
  - rewrite (base32_is_rfc4648 data Hb). unfold base32_rfc4648.
    pose proof (groups5_range (flat_map byte_bits data)) as Hr.
    induction Hr as [|v g Hv _ IH]; [constructor |].
    cbn [map]. constructor; [| exact IH].
    apply (base32_alphabet_place v Hv).
  - intros H79. unfold base32_encode.
    replace (length (base32_chars data) <? 128)%nat with true.
    + eexists. split; [reflexivity |].
      apply bytes_cstring, base32_chars_bytes, Hb.
    + symmetry. apply Nat.ltb_lt. rewrite Hlen.
      apply Nat.Div0.div_lt_upper_bound. lia.
  - intros H80. unfold base32_encode.
    replace (length (base32_chars data) <? 128)%nat with false;
      [reflexivity |].
    symmetry. apply Nat.ltb_ge. rewrite Hlen.
    apply Nat.div_le_lower_bound; lia.
Qed.

Lemma base32_length_and_alphabet_witness :
  length (base32_chars sample_secret) = 32%nat /\
  Forall (fun c => In c (bytes base32_alphabet)) (base32_chars sample_secret)
  /\
  ((length sample_secret <= 79)%nat ->
   exists b32, base32_encode sample_secret = Some b32 /\
               bytes b32 = base32_chars sample_secret) /\
  ((80 <= length sample_secret)%nat -> base32_encode sample_secret = None).
Proof.
  apply (base32_length_and_alphabet sample_secret). exact sample_secret_bytes.
Defined.

(** X19: [base32_encode] loses nothing: two sequences of bytes, of any
    lengths, that are written with the same characters are the same. *)
Theorem base32_encode_injective (a b : list Z) (b32 : string) :
  Forall is_byte a -> Forall is_byte b ->
  base32_encode a = Some b32 -> base32_encode b = Some b32 -> a = b.
Proof.
  intros Ha Hb Ea Eb. unfold base32_encode in Ea, Eb.
  destruct (length (base32_chars a) <? 128)%nat; [| discriminate Ea].
  destruct (length (base32_chars b) <? 128)%nat; [| discriminate Eb].
  injection Ea as Ea. injection Eb as Eb.
  assert (Hc : base32_chars a = base32_chars b).
  { rewrite <- (bytes_cstring (base32_chars a))
      by (apply base32_chars_bytes, Ha).
    rewrite <- (bytes_cstring (base32_chars b))
      by (apply base32_chars_bytes, Hb).
    congruence. }
  rewrite (base32_is_rfc4648 a Ha), (base32_is_rfc4648 b Hb) in Hc.
  unfold base32_rfc4648 in Hc.
  apply map_alphabet_inj in Hc; try apply groups5_range.
  assert (Hlen : length a = length b).
  { pose proof (f_equal (@length Z) Hc) as Hl.
    rewrite !length_groups5, !length_byte_bits in Hl.
    pose proof (Nat.div_mod_eq (8 * length a + 4) 5) as Da.
    pose proof (Nat.div_mod_eq (8 * length b + 4) 5) as Db.
    pose proof (Nat.mod_upper_bound (8 * length a + 4) 5 ltac:(lia)) as Ma.
    pose proof (Nat.mod_upper_bound (8 * length b + 4) 5 ltac:(lia)) as Mb.
    lia. }
  apply groups5_inj in Hc; [| rewrite !length_byte_bits; lia].
  apply byte_bits_inj; assumption.
Qed.

Lemma base32_encode_injective_witness :
  exists b32, base32_encode sample_secret = Some b32 /\
  sample_secret = sample_secret.
Proof.
  eexists. split; [reflexivity |].
  apply (base32_encode_injective sample_secret sample_secret
           (cstring (base32_chars sample_secret))).
  - exact sample_secret_bytes.
  - exact sample_secret_bytes.
  - reflexivity.
  - reflexivity.
Defined.

(** ** Setting up the secret *)

Lemma atoi_dec z : - 2 ^ 31 <= z < 2 ^ 31 -> atoi (dec z) = z.
Proof.
  intros H. unfold atoi. rewrite strtoll_dec.
  - unfold to_int. rewrite Z.mod_small by lia. lia.
  - unfold LLONG_MIN, LLONG_MAX. lia.
Qed.

Lemma bytes_append a b : bytes (a +:+ b) = bytes a ++ bytes b.
Proof.
  unfold bytes. induction a as [|c a IH]; [reflexivity |].
  change (uchar c :: map uchar (list_ascii_of_string (a +:+ b))
          = uchar c :: map uchar (list_ascii_of_string a)
              ++ map uchar (list_ascii_of_string b)).
  rewrite IH. reflexivity.
Qed.

Lemma occurs_in_split needle : forall hay,
  occurs_in needle hay = true ->
  exists pre post, hay = pre ++ needle ++ post.
Proof.
  induction hay as [|x hay IH]; cbn [occurs_in]; intros H;
    apply orb_true_iff in H; destruct H as [H | H]; try discriminate H.
  - apply starts_with_prefix in H. destruct H as [q ->]. exists [], q.
    reflexivity.
  - apply starts_with_prefix in H. destruct H as [q ->]. exists [], q.
    reflexivity.
  - destruct (IH H) as (pre & post & ->). exists (x :: pre), post.
    reflexivity.
Qed.

Lemma occurs_in_app needle post : forall pre,
  occurs_in needle (pre ++ needle ++ post) = true.
Proof.
  assert (H0 : forall hay, starts_with needle hay = true ->
                           occurs_in needle hay = true).
  { intros [|x hay] H; cbn [occurs_in]; rewrite H; reflexivity. }
  induction pre as [|x pre IH].
  - apply H0, starts_with_prefix. exists post. reflexivity.
  - cbn [app occurs_in]. rewrite IH. apply orb_true_r.
Qed.

Lemma occurs_in_length needle hay :
  (length hay < length needle)%nat -> occurs_in needle hay = false.
Proof.
  intros Hl. destruct (occurs_in needle hay) eqn:E; [| reflexivity].
  apply occurs_in_split in E. destruct E as (pre & post & ->).
  rewrite !length_app in Hl. lia.
Qed.

(** A text of 32 bytes that occurs in one of 46 has byte 15 of it. *)
Lemma occurs_in_middle needle hay :
  length needle = 32%nat -> length hay = 46%nat ->
  occurs_in needle hay = true -> In (nth 15 hay 0) needle.
Proof.
  intros Hn Hh H. apply occurs_in_split in H.
  destruct H as (pre & post & ->). rewrite !length_app in Hh.
  rewrite app_nth2 by lia. rewrite app_nth1 by lia.
  apply nth_In. lia.
Qed.

Lemma filter_nothing {A} (f : A -> bool) l :
  Forall (fun x => f x = false) l -> List.filter f l = [].
Proof.
  induction 1 as [|x l Hx _ IH]; [reflexivity |].
  cbn [List.filter]. rewrite Hx. exact IH.
Qed.

Lemma qr_cell_short q x y : (String.length (qr_cell q x y) <= 3)%nat.
Proof.
  unfold qr_cell. cbv zeta.
  repeat match goal with
         | |- context [if ?b then _ else _] => destruct b
         end; vm_compute; lia.
Qed.

Lemma qr_row_short q y hi : forall fuel x,
  Forall (fun t => (String.length t <= 3)%nat) (qr_row fuel q x y hi).
Proof.
  induction fuel as [|fuel IH]; intros x; cbn [qr_row]; [constructor |].
  destruct (x <? hi); constructor; [apply qr_cell_short | apply IH].
Qed.

Lemma qr_rows_short q lo hi : forall fuel y,
  Forall (fun t => (String.length t <= 3)%nat) (qr_rows fuel q lo y hi).
Proof.
  induction fuel as [|fuel IH]; intros y; cbn [qr_rows]; [constructor |].
  destruct (y <? hi); [| constructor].
  apply List.Forall_app. split; [apply qr_row_short |].
  constructor; [vm_compute; lia | apply IH].
Qed.

(** No call of [printf] in [print_qr_ascii] prints more than 28 bytes. *)
Lemma print_qr_ascii_short encodeText text :
  Forall (fun t => (String.length t <= 28)%nat)
    (print_qr_ascii encodeText text).
Proof.
  unfold print_qr_ascii. destruct (encodeText text) as [q|].
  - cbv zeta. eapply List.Forall_impl; [| apply qr_rows_short].
    cbv beta. intros t Ht. lia.
  - constructor; [vm_compute; lia | constructor].
Qed.

(** X20: the secret [totp_setup] generates is the one [totp_verify]
    checks codes against.  On a first start with the gate in force, the
    20 bytes read from [/dev/urandom] are stored in hexadecimal and read
    back from the store as the very bytes whenever a code is verified;
    nothing else in the store changes.  The function prints, in this
    order, the two lines of the heading, the QR code of the [otpauth]
    address, the line with the secret in Base32, 32 characters long,
    and the closing line, all on the standard output; of all it prints,
    that one line is the only text the Base32 secret can be read in (the
    QR code holds it as blocks). *)
Theorem fresh_secret_is_the_one_verified (env : Env) (senv : SetupEnv)
    (s : State) (secret : list Z) :
  WeakSecurity s = false -> sqlite3_open senv = true ->
  kv s !! "totp_secret" = None -> urandom senv = Some secret ->
  length secret = 20%nat -> Forall is_byte secret -> sscanf_reads_hex env ->
  exists s' out b32,
    totp_setup senv s = Returned 1 s' out /\
    base32_encode secret = Some b32 /\ String.length b32 = 32%nat /\
    out =
      [Stdout (LF +:+ "=== TOTP Setup ===" +:+ LF);
       Stdout ("Scan this QR code with Google Authenticator:" +:+ LF +:+ LF)]
      ++ map Stdout
           (print_qr_ascii (qrcodegen_encodeText senv)
              (snprintf 256 ("otpauth://totp/tgterm?secret=" +:+ b32
                             +:+ "&issuer=tgterm")))
      ++ [Stdout (LF +:+ "Or enter this secret manually: " +:+ b32 +:+ LF);
          Stdout ("==================" +:+ LF +:+ LF)] /\
    List.filter (mentions b32) out =
      [Stdout (LF +:+ "Or enter this secret manually: " +:+ b32 +:+ LF)] /\
    (forall k, k <> "totp_secret" -> kv s' !! k = kv s !! k) /\
    OtpTimeout s' = OtpTimeout s /\
    forall code,
      result (totp_verify code env s') =
      existsb
        (fun i =>
           totp_code env secret
             (to_uint64 (to_uint64 (time_at env (clock_reads s')) / 30 + i))
           =? to_uint32 (atoi code))
        [-1; 0; 1].
Proof.
  intros Hw Hdb Hnone Hrnd Hlen Hb Hsc.
  destruct (hex_round_trip env secret 20 Hsc Hb ltac:(lia) ltac:(lia))
    as (hex & Hhex & _ & Hback).
  destruct (base32_length_and_alphabet secret Hb) as (Hl32 & Hal & H79 & _).
  destruct (H79 ltac:(lia)) as (b32 & Hb32 & Hbytes).
  assert (H32 : length (bytes b32) = 32%nat).
  { rewrite Hbytes, Hl32, Hlen. reflexivity. }
  unfold totp_setup. rewrite Hw, Hdb, Hnone, Hrnd, Hhex, Hb32. cbn [negb].
  eexists _, _, b32. split; [reflexivity |]. split; [reflexivity |].
  split.
  { rewrite <- length_bytes. exact H32. }
  split; [reflexivity |].
  split.
  { rewrite !List.filter_app. cbn [List.filter mentions].
    rewrite (occurs_in_length (bytes b32)
               (bytes (LF +:+ "=== TOTP Setup ===" +:+ LF)))
      by (rewrite H32; vm_compute; lia).
    rewrite (occurs_in_length (bytes b32)
               (bytes ("==================" +:+ LF +:+ LF)))
      by (rewrite H32; vm_compute; lia).
    replace (occurs_in (bytes b32)
               (bytes ("Scan this QR code with Google Authenticator:"
                       +:+ LF +:+ LF))) with false.
    2:{ symmetry. apply not_true_is_false. intros Hin.
        apply (occurs_in_middle _ _ H32) in Hin; [| reflexivity].
        rewrite Hbytes in Hin.
        rewrite List.Forall_forall in Hal. apply Hal in Hin.
        vm_compute in Hin. intuition discriminate. }
    replace (occurs_in (bytes b32)
               (bytes (LF +:+ "Or enter this secret manually: " +:+ b32
                       +:+ LF))) with true.
    2:{ symmetry. rewrite !bytes_append, app_assoc.
        apply occurs_in_app. }
    rewrite filter_nothing; [reflexivity |].
    apply List.Forall_map.
    eapply List.Forall_impl; [| apply print_qr_ascii_short].
    cbv beta. intros t Ht. cbn [mentions]. apply occurs_in_length.
    rewrite H32, length_bytes. lia. }
  split.
  { intros k Hk. cbn [kv set_kv]. apply lookup_insert_ne. congruence. }
  split; [reflexivity |].
  intros code. rewrite totp_verify_eq. cbn [kv set_kv].
  rewrite lookup_insert_eq. cbv zeta. rewrite Hback, Hlen.
  reflexivity.
Qed.

Lemma fresh_secret_is_the_one_verified_witness :
  exists s' out b32,
    totp_setup sample_setup_env sample_first_start = Returned 1 s' out /\
    base32_encode sample_secret = Some b32 /\ String.length b32 = 32%nat /\
    out =
      [Stdout (LF +:+ "=== TOTP Setup ===" +:+ LF);
       Stdout ("Scan this QR code with Google Authenticator:" +:+ LF +:+ LF)]
      ++ map Stdout
           (print_qr_ascii (qrcodegen_encodeText sample_setup_env)
              (snprintf 256 ("otpauth://totp/tgterm?secret=" +:+ b32
                             +:+ "&issuer=tgterm")))
      ++ [Stdout (LF +:+ "Or enter this secret manually: " +:+ b32 +:+ LF);
          Stdout ("==================" +:+ LF +:+ LF)] /\
    List.filter (mentions b32) out =
      [Stdout (LF +:+ "Or enter this secret manually: " +:+ b32 +:+ LF)] /\
    (forall k, k <> "totp_secret" ->
               kv s' !! k = kv sample_first_start !! k) /\
    OtpTimeout s' = OtpTimeout sample_first_start /\
    forall code,
      result (totp_verify code sample_env s') =
      existsb
        (fun i =>
           totp_code sample_env sample_secret
             (to_uint64
                (to_uint64 (time_at sample_env (clock_reads s')) / 30 + i))
           =? to_uint32 (atoi code))
        [-1; 0; 1].
Proof.
  apply (fresh_secret_is_the_one_verified sample_env sample_setup_env
           sample_first_start sample_secret).
  - reflexivity.
  - reflexivity.
  - reflexivity.
  - reflexivity.
  - reflexivity.
  - exact sample_secret_bytes.
  - exact sample_env_reads_hex.
Defined.

Lemma load_timeout_step s : timeout_step s (load_timeout s) /\
  kv (load_timeout s) = kv s.
Proof.
  unfold load_timeout. destruct (kv s !! "otp_timeout") as [t|].
  - cbv zeta. destruct ((atoi t >=? 30) && (atoi t <=? 28800)) eqn:E.
    + split; [| reflexivity]. right. unfold timeout_in_range.
      cbn [OtpTimeout set_OtpTimeout].
      apply andb_true_iff in E. destruct E as [E1 E2].
      rewrite Z.geb_leb in E1. apply Z.leb_le in E1. apply Z.leb_le in E2.
      lia.
    + split; [left |]; reflexivity.
  - split; [left |]; reflexivity.
Qed.

(** X21: a secret that is in the store is neither replaced nor shown
    again.  Whatever the flags and the outside, [totp_setup] then
    returns without touching the store and without a line on the
    standard output, and the timeout is left alone or set to a value
    from 30 to 28800 seconds. *)
Theorem existing_secret_is_kept (senv : SetupEnv) (s : State)
    (existing : string) :
  kv s !! "totp_secret" = Some existing ->
  exists value s' out,
    totp_setup senv s = Returned value s' out /\
    kv s' = kv s /\
    (forall line, ~ In (Stdout line) out) /\
    (OtpTimeout s' = OtpTimeout s \/ 30 <= OtpTimeout s' <= 28800).
Proof.
  intros He. unfold totp_setup.
  destruct (WeakSecurity s).
  { eexists _, _, _. split; [reflexivity |]. repeat split; auto. }
  destruct (sqlite3_open senv); cbn [negb].
  - rewrite He. destruct (load_timeout_step s) as [Ht Hk].
    eexists _, _, _. split; [reflexivity |]. repeat split; auto.
  - eexists _, _, _. split; [reflexivity |].
    split; [reflexivity |]. split; [| left; reflexivity].
    intros line [H | []]. discriminate H.
Qed.

Lemma existing_secret_is_kept_witness :
  exists value s' out,
    totp_setup sample_setup_env sample_state = Returned value s' out /\
    kv s' = kv sample_state /\
    (forall line, ~ In (Stdout line) out) /\
    (OtpTimeout s' = OtpTimeout sample_state \/ 30 <= OtpTimeout s' <= 28800).
Proof.
  apply (existing_secret_is_kept sample_setup_env sample_state
           "000102030405060708090a0b0c0d0e0f10111213").
  reflexivity.
Defined.

(** X22: the timeout set with [.otptimeout] survives a restart.  After
    the command is carried out, a process that starts on the same store
    with the gate in force (its globals at any values) and finds the
    secret and the database is given, by [totp_setup], the very timeout
    the command set. *)
Theorem timeout_survives_restart (env : Env) (senv : SetupEnv)
    (st boot : State) (br : BotRequest) :
  owner_request st br -> gate_open env st -> is_callback br = false ->
  strncasecmp (request br) ".otptimeout" 11 = 0 ->
  let st1 := final_state (handle_request br env st) in
  kv boot = kv st1 -> WeakSecurity boot = false ->
  sqlite3_open senv = true -> kv st !! "totp_secret" <> None ->
  exists s',
    totp_setup senv boot = Returned 1 s' [] /\
    OtpTimeout s' = OtpTimeout st1 /\ kv s' = kv st1.
Proof.
  intros Ho Hg Hcb Hcmd st1 Hkv Hw Hdb Hsec. subst st1.
  rewrite (accepted_run br env st _ _ _ Ho Hg
             (dispatch_otptimeout br env _ Hcb Hcmd)) in *.
  cbv zeta in *. unfold final_state in *. cbn [fst snd] in *.
  set (secs := otptimeout_secs (skip_blanks (str_from 11 (request br)))) in *.
  assert (Hr : 30 <= secs <= 28800)
    by (unfold secs; rewrite otptimeout_secs_clamp; lia).
  rewrite (snprintf_dec_secs secs Hr) in Hkv.
  cbn [kv set_kv set_OtpTimeout OtpTimeout] in *.
  assert (Hs2 : kv (gate_passed_state env (after_owner br env st))
                  !! "totp_secret" = kv st !! "totp_secret").
  { destruct (after_owner_fields br env st)
      as (_ & _ & _ & _ & _ & _ & _ & Hk).
    unfold gate_passed_state.
    destruct (WeakSecurity (after_owner br env st)); cbn [kv];
      apply Hk; discriminate. }
  unfold totp_setup. rewrite Hw, Hdb. cbn [negb]. rewrite Hkv.
  rewrite lookup_insert_ne by discriminate. rewrite Hs2.
  destruct (kv st !! "totp_secret") as [h|]; [| contradiction].
  unfold load_timeout. rewrite Hkv, lookup_insert_eq. cbv zeta.
  rewrite (atoi_dec secs) by lia.
  replace ((secs >=? 30) && (secs <=? 28800)) with true.
  - eexists. split; [reflexivity |]. split; [reflexivity |].
    cbn [kv set_OtpTimeout]. rewrite Hkv.
    rewrite (snprintf_dec_secs secs Hr). reflexivity.
  - symmetry. apply andb_true_iff. rewrite Z.geb_leb.
    split; apply Z.leb_le; lia.
Qed.

Lemma timeout_survives_restart_witness :
  let st1 :=
    final_state (handle_request (text_request 1 ".otptimeout 60") sample_env
                   sample_authenticated) in
  exists s',
    totp_setup sample_setup_env (set_kv (kv st1) sample_state)
    = Returned 1 s' [] /\
    OtpTimeout s' = OtpTimeout st1 /\ kv s' = kv st1.
Proof.
  apply (timeout_survives_restart sample_env sample_setup_env
           sample_authenticated _ (text_request 1 ".otptimeout 60")).
  - right. reflexivity.
  - right. split; [reflexivity |]. unfold expired. simpl. lia.
  - reflexivity.
  - reflexivity.
  - reflexivity.
  - reflexivity.
  - reflexivity.
  - discriminate.
Defined.

(** * The command line *)

Lemma strcmp_bytes_cons a x l :
  strcmp_bytes a (x :: l) = 0 -> x <> 0 ->
  exists a', a = x :: a' /\ strcmp_bytes a' l = 0.
Proof.
  intros H Hx. destruct a as [|y a']; cbn [strcmp_bytes] in H; [lia |].
  destruct (Z.eqb_spec y x) as [-> | Hne]; [| lia].
  exists a'. auto.
Qed.

(** No argument is two flags at once. *)
Lemma flags_differ a :
  (strcmp a DANGER_FLAG =? 0) = true -> (strcmp a WEAK_FLAG =? 0) = false.
Proof.
  intros H. apply Z.eqb_eq in H. apply Z.eqb_neq. intros W.
  unfold strcmp in *.
  change (bytes DANGER_FLAG) with (45 :: 45 :: 100 :: bytes "angerously-attach-to-any-window") in H.
  change (bytes WEAK_FLAG) with (45 :: 45 :: 117 :: bytes "se-weak-security") in W.
  apply strcmp_bytes_cons in H; [| discriminate].
  destruct H as (a1 & E1 & H). rewrite E1 in W. clear E1.
  apply strcmp_bytes_cons in H; [| discriminate].
  destruct H as (a2 & -> & H).
  apply strcmp_bytes_cons in H; [| discriminate].
  destruct H as (a3 & -> & H).
  cbn [strcmp_bytes] in W.
  change (45 =? 45) with true in W. change (100 =? 117) with false in W.
  cbv iota in W. discriminate W.
Qed.

Lemma main_args_flags : forall args s dbfile,
  let '(s', _, _) := main_args args s dbfile in
  DangerMode s' = DangerMode s || existsb (is_flag DANGER_FLAG) args /\
  WeakSecurity s' = WeakSecurity s || existsb (is_flag WEAK_FLAG) args /\
  set_DangerMode (DangerMode s) (set_WeakSecurity (WeakSecurity s) s')
  = s.
Proof.
  induction args as [|a rest IH]; intros s dbfile.
  - cbn [main_args existsb]. rewrite !orb_false_r.
    destruct s; repeat split; reflexivity.
  - cbn [main_args existsb]. unfold is_flag at 1 3.
    destruct (strcmp a DANGER_FLAG =? 0) eqn:Ed.
    + specialize (IH (set_DangerMode true s) dbfile).
      destruct (main_args rest (set_DangerMode true s) dbfile)
        as [[s2 d2] o2].
      destruct IH as (H1 & H2 & H3). cbn [DangerMode WeakSecurity
        set_DangerMode] in *.
      rewrite H1, H2, orb_true_r, (flags_differ a Ed). repeat split.
      transitivity (set_DangerMode (DangerMode s) (set_DangerMode true s));
        [exact (f_equal (set_DangerMode (DangerMode s)) H3) |].
      destruct s; reflexivity.
    + destruct (strcmp a WEAK_FLAG =? 0) eqn:Ew.
      * specialize (IH (set_WeakSecurity true s) dbfile).
        destruct (main_args rest (set_WeakSecurity true s) dbfile)
          as [[s2 d2] o2].
        destruct IH as (H1 & H2 & H3). cbn [DangerMode WeakSecurity
          set_WeakSecurity] in *.
        rewrite H1, H2, orb_true_r. repeat split.
        transitivity
          (set_WeakSecurity (WeakSecurity s) (set_WeakSecurity true s));
          [exact (f_equal (set_WeakSecurity (WeakSecurity s)) H3) |].
        destruct s; reflexivity.
      * assert (Hsame : exists d1,
                  (match rest with
                   | value :: _ =>
                       if strcmp a DBFILE_FLAG =? 0 then (s, value, [])
                       else (s, dbfile, [])
                   | [] => (s, dbfile, [])
                   end : State * string * list string) = (s, d1, [])).
        { destruct rest; [eexists; reflexivity |].
          destruct (strcmp a DBFILE_FLAG =? 0); eexists; reflexivity. }
        destruct Hsame as [d1 ->].
        specialize (IH s d1). destruct (main_args rest s d1) as [[s2 d2] o2].
        exact IH.
Qed.

(** X23: the options of the command line.  Weak security is on after
    the loop of [main] exactly when it was on before or some argument
    after the program name is [--use-weak-security], and likewise danger
    mode with its flag; no other global changes.  An argument
    [--dbfile] that is followed by another argument sets [dbfile] to
    that argument, and the loop goes on with the value itself as the
    next argument, so that a flag given as the value is obeyed too; as
    the last argument, [--dbfile] has no effect. *)
Theorem command_line_options (argv : list string) (s : State) :
  (let '(s', _, _) := main_options argv s in
   WeakSecurity s' = WeakSecurity s || existsb (is_flag WEAK_FLAG) (tl argv)
   /\
   DangerMode s' = DangerMode s || existsb (is_flag DANGER_FLAG) (tl argv) /\
   set_DangerMode (DangerMode s) (set_WeakSecurity (WeakSecurity s) s') = s)
  /\
  (forall value rest dbfile,
     main_args (DBFILE_FLAG :: value :: rest) s dbfile
     = main_args (value :: rest) s value) /\
  (forall dbfile, main_args [DBFILE_FLAG] s dbfile = (s, dbfile, [])).
Proof.
  split; [| split].
  - unfold main_options.
    pose proof (main_args_flags (tl argv) s "./mybot.sqlite") as H.
    destruct (main_args (tl argv) s "./mybot.sqlite") as [[s' d] o].
    tauto.
  - intros value rest dbfile.
    change (main_args (DBFILE_FLAG :: value :: rest) s dbfile)
      with (let '(s2, d2, o2) := main_args (value :: rest) s value in
            (s2, d2, [] ++ o2)).
    destruct (main_args (value :: rest) s value) as [[s2 d2] o2].
    reflexivity.
  - reflexivity.
Qed.

(** * The window backends *)

(** ** Is the window still there? *)

Lemma linux_exists_loop_found dpy wid pid : forall clients fallback,
  In wid clients ->
  (Linux.exists_loop dpy clients wid pid fallback).1 = true.
Proof.
  induction clients as [|c rest IH]; intros fallback Hin; [destruct Hin |].
  cbn [Linux.exists_loop]. destruct (Z.eqb_spec c wid) as [E | E];
    [reflexivity |].
  destruct Hin as [Hin | Hin]; [contradiction |]. apply IH. exact Hin.
Qed.

Lemma linux_exists_loop_missing dpy wid pid : forall clients fallback,
  ~ In wid clients ->
  Linux.exists_loop dpy clients wid pid fallback =
  (false,
   if fallback =? 0
   then match find (stands_in dpy pid) clients with
        | Some c => c
        | None => 0
        end
   else fallback).
Proof.
  induction clients as [|c rest IH]; intros fallback Hin.
  - cbn [Linux.exists_loop find]. destruct (fallback =? 0) eqn:E;
      [apply Z.eqb_eq in E; subst |]; reflexivity.
  - cbn [Linux.exists_loop find].
    destruct (Z.eqb_spec c wid) as [E | E];
      [exfalso; apply Hin; left; exact E |].
    rewrite IH by (intros H; apply Hin; right; exact H).
    unfold stands_in.
    destruct (Z.eqb_spec fallback 0) as [F | F]; cbn [andb].
    + subst fallback.
      destruct (Linux.get_window_pid dpy c =? pid); cbn [andb negb].
      * destruct (Z.eqb_spec c 0) as [C | C]; cbn [negb]; [subst c |];
          reflexivity.
      * rewrite andb_false_r. reflexivity.
    + destruct (Z.eqb_spec fallback 0); [contradiction | reflexivity].
Qed.

(** What [plat_window_exists] of the Linux backend computes. *)
Lemma linux_window_exists_eq (dpy : Linux.Display) (wid pid : Z)
    (clients : list Z) :
  Linux.get_client_list dpy = Some clients ->
  Linux.plat_window_exists dpy wid pid =
    (if existsb (fun c => c =? wid) clients then (1, wid)
     else match find (stands_in dpy pid) clients with
          | Some c => (1, c)
          | None => (0, wid)
          end) /\
  ((Linux.plat_window_exists dpy wid pid).1 = 1 ->
   In (Linux.plat_window_exists dpy wid pid).2 clients).
Proof.
  intros Hc. unfold Linux.plat_window_exists. rewrite Hc.
  destruct (existsb (fun c => c =? wid) clients) eqn:E.
  - apply existsb_exists in E. destruct E as (c & Hin & Hc').
    apply Z.eqb_eq in Hc'. subst c.
    pose proof (linux_exists_loop_found dpy wid pid clients 0 Hin) as Hf.
    destruct (Linux.exists_loop dpy clients wid pid 0) as [found fallback].
    cbn [fst] in Hf. subst found. cbn [negb andb fst snd].
    split; [reflexivity | intros _; exact Hin].
  - assert (Hnin' : ~ In wid clients).
    { intros Hin.
      assert (existsb (fun c => c =? wid) clients = true)
        by (apply existsb_exists; exists wid; split;
            [exact Hin | apply Z.eqb_refl]).
      congruence. }
    rewrite (linux_exists_loop_missing dpy wid pid clients 0 Hnin').
    change (0 =? 0) with true. cbv iota. cbn [negb andb].
    destruct (find (stands_in dpy pid) clients) as [c|] eqn:F.
    + apply find_some in F. destruct F as [Hin Hs].
      unfold stands_in in Hs. apply andb_true_iff in Hs.
      destruct Hs as [Hs _]. rewrite Hs. cbn [fst snd].
      split; [reflexivity | intros _; exact Hin].
    + change (0 =? 0) with true. cbn [negb fst snd].
      split; [reflexivity | discriminate].
Qed.

Lemma macos_exists_loop_found wid pid : forall l fallback,
  existsb (cg_is wid) l = true ->
  (MacOS.exists_loop l wid pid fallback).1 = true.
Proof.
  induction l as [|info rest IH]; intros fallback Hin; [discriminate Hin |].
  cbn [MacOS.exists_loop existsb] in *. unfold cg_is in Hin at 1.
  destruct (MacOS.kCGWindowNumber info) as [cg_wid|];
    [| apply IH; exact Hin].
  destruct (MacOS.kCGWindowOwnerPID info) as [cg_pid|];
    [| apply IH; exact Hin].
  destruct (cg_wid =? wid); [reflexivity |]. apply IH. exact Hin.
Qed.

Lemma macos_exists_loop_missing wid pid : forall l fallback,
  existsb (cg_is wid) l = false ->
  MacOS.exists_loop l wid pid fallback =
  (false,
   if fallback =? 0
   then match find (cg_stands_in pid) l with
        | Some info => default 0 (MacOS.kCGWindowNumber info)
        | None => 0
        end
   else fallback).
Proof.
  induction l as [|info rest IH]; intros fallback Hin.
  - cbn [MacOS.exists_loop find]. destruct (fallback =? 0) eqn:E;
      [apply Z.eqb_eq in E; subst |]; reflexivity.
  - cbn [MacOS.exists_loop find existsb] in *.
    apply orb_false_iff in Hin. destruct Hin as [Hhd Hin].
    unfold cg_is in Hhd. unfold cg_stands_in at 1.
    destruct (MacOS.kCGWindowNumber info) as [cg_wid|] eqn:Ew;
      [| apply IH; exact Hin].
    destruct (MacOS.kCGWindowOwnerPID info) as [cg_pid|] eqn:Ep;
      [| apply IH; exact Hin].
    rewrite Hhd, (IH _ Hin).
    set (layer := match MacOS.kCGWindowLayer info with
                  | Some l => l
                  | None => 0
                  end).
    destruct (Z.eqb_spec fallback 0) as [F | F].
    + subst fallback. rewrite andb_true_r.
      destruct (cg_pid =? pid); cbn [andb].
      * destruct (layer =? 0).
        -- destruct (Z.eqb_spec cg_wid 0) as [C | C]; cbn [negb andb].
           ++ subst cg_wid. reflexivity.
           ++ rewrite Ew. reflexivity.
        -- rewrite andb_false_r. reflexivity.
      * rewrite andb_false_r. reflexivity.
    + rewrite andb_false_r.
      destruct (Z.eqb_spec fallback 0); [contradiction | reflexivity].
Qed.

(** What [plat_window_exists] of the macOS backend computes. *)
Lemma macos_window_exists_eq (list : list MacOS.CGWindow) (wid pid : Z) :
  MacOS.plat_window_exists (Some list) wid pid =
    (if existsb (cg_is wid) list then (1, wid)
     else match find (cg_stands_in pid) list with
          | Some info => (1, default 0 (MacOS.kCGWindowNumber info))
          | None => (0, wid)
          end) /\
  MacOS.plat_window_exists None wid pid = (0, wid).
Proof.
  split; [| reflexivity]. unfold MacOS.plat_window_exists.
  destruct (existsb (cg_is wid) list) eqn:E.
  - pose proof (macos_exists_loop_found wid pid list 0 E) as Hf.
    destruct (MacOS.exists_loop list wid pid 0) as [found fallback].
    cbn [fst] in Hf. subst found. reflexivity.
  - rewrite (macos_exists_loop_missing wid pid list 0 E).
    change (0 =? 0) with true. cbv iota. cbn [negb andb].
    destruct (find (cg_stands_in pid) list) as [info|] eqn:F;
      [| reflexivity].
    apply find_some in F. destruct F as [_ Hs].
    unfold cg_stands_in in Hs.
    destruct (MacOS.kCGWindowNumber info) as [cg_wid|]; [| discriminate].
    destruct (MacOS.kCGWindowOwnerPID info); [| discriminate].
    apply andb_true_iff in Hs. destruct Hs as [Hs _].
    apply andb_true_iff in Hs. destruct Hs as [Hs _].
    cbn [default id]. rewrite Hs. reflexivity.
Qed.


(** X24: the existence check of the two backends.  A window that is in
    the list of the desktop is found as it is, also when another window
    of the process stands before it in the list.  Otherwise the first
    window of the process takes its place (on macOS the first that has
    a number, a process and layer 0, entries without a number or a
    process being passed over), and when there is none the check fails
    and leaves the identifier alone.  On Linux an identifier the check
    answers with is always in the client list. *)
Theorem window_exists_spec (dpy : Linux.Display) (clients : list Z)
    (list : list MacOS.CGWindow) (wid pid : Z) :
  Linux.get_client_list dpy = Some clients ->
  Linux.plat_window_exists dpy wid pid =
    (if existsb (fun c => c =? wid) clients then (1, wid)
     else match find (stands_in dpy pid) clients with
          | Some c => (1, c)
          | None => (0, wid)
          end) /\
  ((Linux.plat_window_exists dpy wid pid).1 = 1 ->
   In (Linux.plat_window_exists dpy wid pid).2 clients) /\
  MacOS.plat_window_exists (Some list) wid pid =
    (if existsb (cg_is wid) list then (1, wid)
     else match find (cg_stands_in pid) list with
          | Some info => (1, default 0 (MacOS.kCGWindowNumber info))
          | None => (0, wid)
          end) /\
  MacOS.plat_window_exists None wid pid = (0, wid).
Proof.
  intros Hc.
  destruct (linux_window_exists_eq dpy wid pid clients Hc) as [A B].
  destruct (macos_window_exists_eq list wid pid) as [C D].
  auto.
Qed.

Lemma window_exists_spec_witness :
  Linux.plat_window_exists Linux.sample_display 99 132 = (1, 32) /\
  ((Linux.plat_window_exists Linux.sample_display 99 132).1 = 1 ->
   In (Linux.plat_window_exists Linux.sample_display 99 132).2
     [31; 32; 33; 34]) /\
  MacOS.plat_window_exists (Some MacOS.sample_windows) 99 132 = (1, 8) /\
  MacOS.plat_window_exists None 99 132 = (0, 99).
Proof.
  apply (window_exists_spec Linux.sample_display [31; 32; 33; 34]
           MacOS.sample_windows 99 132).
  reflexivity.
Defined.

(** ** The window list *)

Lemma length_substring : forall (n : nat) (s : string),
  (String.length (String.substring 0 n s) <= n)%nat.
Proof.
  induction n as [|n IH]; intros [|c s]; cbn [String.substring String.length];
    try lia.
  specialize (IH s). lia.
Qed.

Lemma linux_list_entry_listed dpy danger c w :
  Linux.list_entry dpy danger c = Some w ->
  window_id w = c /\ listed_as dpy danger w.
Proof.
  unfold Linux.list_entry, listed_as.
  destruct (Linux.get_wm_class dpy c) as [cls|] eqn:Ec; [| discriminate].
  destruct (negb danger && negb (Linux.plat_is_terminal cls)) eqn:Et;
    [discriminate |].
  destruct (Linux.XGetWindowAttributes dpy c) as [[width height]|] eqn:Ea;
    [| discriminate].
  destruct ((width <=? 50) || (height <=? 50)) eqn:Es; [discriminate |].
  intros H. injection H as <-. cbn [window_id pid owner title].
  split; [reflexivity |]. exists cls, width, height.
  apply orb_false_iff in Es. destruct Es as [Ew Eh].
  apply Z.leb_gt in Ew. apply Z.leb_gt in Eh.
  repeat split; try assumption; try lia.
  - intros ->. cbn [negb andb] in Et.
    destruct (Linux.plat_is_terminal cls); [reflexivity | discriminate Et].
  - apply length_substring.
  - destruct (Linux.get_window_title dpy c); [apply length_substring |].
    cbn. lia.
Qed.

Lemma linux_list_loop_spec dpy danger : forall clients,
  Forall (listed_as dpy danger) (Linux.list_loop dpy danger clients) /\
  sublist (map window_id (Linux.list_loop dpy danger clients)) clients.
Proof.
  induction clients as [|c rest [IH1 IH2]].
  - split; [constructor | constructor].
  - cbn [Linux.list_loop].
    destruct (Linux.list_entry dpy danger c) as [w|] eqn:E.
    + destruct (linux_list_entry_listed dpy danger c w E) as [Hid Hl].
      split; [constructor; assumption |].
      cbn [map]. rewrite Hid. apply sublist_skip. exact IH2.
    + split; [exact IH1 | apply sublist_cons; exact IH2].
Qed.

(** X25: the window list of the Linux backend.  Every entry is a client
    of the X server that has a class, is larger than 50 by 50 pixels
    and, unless danger mode is on, has a class that names a terminal;
    its owner is the class cut to 127 bytes, its title has 255 bytes at
    most.  The entries come in the order of the client list, each
    client once at most, so that their number never exceeds the size of
    the array that was allocated. *)
Theorem linux_window_list_spec (dpy : Linux.Display) (danger_mode : bool) :
  let l := Linux.plat_list_windows dpy danger_mode in
  Forall (listed_as dpy danger_mode) l /\
  (l <> [] ->
   exists clients,
     Linux.get_client_list dpy = Some clients /\
     sublist (map window_id l) clients /\
     (length l <= length clients)%nat).
Proof.
  cbv zeta. unfold Linux.plat_list_windows.
  destruct (Linux.get_client_list dpy) as [clients|];
    [| split; [constructor | congruence]].
  destruct (Z.of_nat (length clients) =? 0);
    [split; [constructor | congruence] |].
  destruct (negb (Linux.malloc_ok dpy));
    [split; [constructor | congruence] |].
  destruct (linux_list_loop_spec dpy danger_mode clients) as [H1 H2].
  split; [exact H1 |]. intros _. exists clients.
  split; [reflexivity |]. split; [exact H2 |].
  apply sublist_length in H2. rewrite length_map in H2. exact H2.
Qed.

Lemma linux_window_list_spec_witness :
  let l := Linux.plat_list_windows Linux.sample_display false in
  l = [ {| window_id := 32; pid := 132; owner := "XTerm"; title := "bash" |} ]
  /\ Forall (listed_as Linux.sample_display false) l /\
  exists clients,
    Linux.get_client_list Linux.sample_display = Some clients /\
    sublist (map window_id l) clients /\
    (length l <= length clients)%nat.
Proof.
  split; [reflexivity |].
  destruct (linux_window_list_spec Linux.sample_display false) as [H1 H2].
  split; [exact H1 |]. apply H2. discriminate.
Defined.

(** ** The rectangle that is captured *)

(** X26: the Linux backend captures the part of the window that is on
    the screen.  The rectangle it asks the X server for is the
    intersection of the window and the screen; when the two do not
    meet, the capture fails with -1 and the server is not asked for an
    image. *)
Theorem capture_is_window_on_screen (dpy : Linux.Display) (wid : Z)
    (path : string) (width height : Z) :
  Linux.XGetWindowAttributes dpy wid = Some (width, height) ->
  let '(rx, ry) := Linux.XTranslateCoordinates dpy wid in
  let sw := Linux.DisplayWidth dpy in
  let sh := Linux.DisplayHeight dpy in
  let x := Z.max 0 rx in
  let y := Z.max 0 ry in
  let w := Z.min sw (rx + width) - x in
  let h := Z.min sh (ry + height) - y in
  Linux.plat_capture_window dpy wid path =
    if (w <=? 0) || (h <=? 0) then -1
    else if Linux.XGetImage dpy x y w h
         then Linux.save_ximage_png dpy x y w h path
         else -1.
Proof.
  intros Ha. unfold Linux.plat_capture_window. rewrite Ha.
  destruct (Linux.XTranslateCoordinates dpy wid) as [rx ry]. cbv zeta.
  unfold Linux.clip. cbv zeta.
  set (sw := Linux.DisplayWidth dpy). set (sh := Linux.DisplayHeight dpy).
  assert (Hx : (if rx <? 0 then 0 else rx) = Z.max 0 rx)
    by (destruct (Z.ltb_spec rx 0); lia).
  assert (Hy : (if ry <? 0 then 0 else ry) = Z.max 0 ry)
    by (destruct (Z.ltb_spec ry 0); lia).
  rewrite Hx, Hy.
  assert (Hw : (if Z.max 0 rx + (width - (Z.max 0 rx - rx)) >? sw
                then sw - Z.max 0 rx else width - (Z.max 0 rx - rx))
               = Z.min sw (rx + width) - Z.max 0 rx)
    by (destruct (Z.gtb_spec (Z.max 0 rx + (width - (Z.max 0 rx - rx))) sw);
        lia).
  assert (Hh : (if Z.max 0 ry + (height - (Z.max 0 ry - ry)) >? sh
                then sh - Z.max 0 ry else height - (Z.max 0 ry - ry))
               = Z.min sh (ry + height) - Z.max 0 ry)
    by (destruct (Z.gtb_spec (Z.max 0 ry + (height - (Z.max 0 ry - ry))) sh);
        lia).
  rewrite Hw, Hh.
  destruct ((_ <=? 0) || (_ <=? 0)); [reflexivity |].
  destruct (Linux.XGetImage dpy _ _ _ _); reflexivity.
Qed.

Lemma capture_is_window_on_screen_witness :
  Linux.plat_capture_window Linux.sample_display 32 "shot.png" =
  if Linux.XGetImage Linux.sample_display 0 500 780 268
  then Linux.save_ximage_png Linux.sample_display 0 500 780 268 "shot.png"
  else -1.
Proof.
  apply (capture_is_window_on_screen Linux.sample_display 32 "shot.png"
           800 600).
  reflexivity.
Defined.

(** ** Keys pressed and released *)

(** X27: [plat_send_key] leaves no key held.  On Linux, when no key
    has the symbol it sends nothing; otherwise it presses the keys of
    the modifiers asked for, and Shift when the character needs it,
    presses and releases the key, and releases the others in the
    reverse order, so that after the call the keys that are down are
    those that were down before.  On macOS it posts to the process
    nothing, or one key-down and one key-up event that agree in key
    code, flags and character. *)
Theorem send_key_releases_all
    (PLAT_KEY_UP PLAT_KEY_DOWN PLAT_KEY_LEFT PLAT_KEY_RIGHT PLAT_KEY_PAGEUP
       PLAT_KEY_PAGEDN : Z)
    (dpy : Linux.Display) (created : bool) (pid special ch mods : Z)
    (down : list Z) :
  let key_of :=
    Linux.key_of PLAT_KEY_UP PLAT_KEY_DOWN PLAT_KEY_LEFT PLAT_KEY_RIGHT
      PLAT_KEY_PAGEUP PLAT_KEY_PAGEDN dpy special ch in
  let calls :=
    Linux.plat_send_key PLAT_KEY_UP PLAT_KEY_DOWN PLAT_KEY_LEFT PLAT_KEY_RIGHT
      PLAT_KEY_PAGEUP PLAT_KEY_PAGEDN dpy pid special ch mods in
  let held := Linux.held_keys dpy mods key_of.2 in
  calls =
    (if key_of.1 =? 0 then []
     else map (fun k => Linux.XTestFakeKeyEvent k true) held
          ++ [Linux.XTestFakeKeyEvent key_of.1 true;
              Linux.XTestFakeKeyEvent key_of.1 false]
          ++ map (fun k => Linux.XTestFakeKeyEvent k false) (rev held)
          ++ [Linux.XFlush; Linux.usleep 5000]) /\
  keys_down calls down = down /\
  exists keycode flags unicode,
    MacOS.plat_send_key PLAT_KEY_UP PLAT_KEY_DOWN PLAT_KEY_LEFT PLAT_KEY_RIGHT
      PLAT_KEY_PAGEUP PLAT_KEY_PAGEDN created pid special ch mods =
    if created then
      [MacOS.CGEventPostToPid pid
         {| MacOS.keycode := keycode; MacOS.keydown := true;
            MacOS.flags := flags; MacOS.unicode := unicode |};
       MacOS.usleep 1000;
       MacOS.CGEventPostToPid pid
         {| MacOS.keycode := keycode; MacOS.keydown := false;
            MacOS.flags := flags; MacOS.unicode := unicode |};
       MacOS.usleep 5000]
    else [].
Proof.
  cbv zeta. split; [| split].
  - unfold Linux.plat_send_key, Linux.held_keys.
    destruct (Linux.key_of _ _ _ _ _ _ dpy special ch)
      as [keycode need_shift].
    cbn [fst snd].
    destruct (keycode =? 0); [reflexivity |].
    destruct (negb (Z.land mods MOD_CTRL =? 0)),
      (negb (Z.land mods MOD_ALT =? 0)), (negb (Z.land mods MOD_CMD =? 0)),
      need_shift; reflexivity.
  - unfold Linux.plat_send_key.
    destruct (Linux.key_of _ _ _ _ _ _ dpy special ch)
      as [keycode need_shift].
    destruct (keycode =? 0); [reflexivity |].
    destruct (negb (Z.land mods MOD_CTRL =? 0)),
      (negb (Z.land mods MOD_ALT =? 0)), (negb (Z.land mods MOD_CMD =? 0)),
      need_shift;
      cbn [app keys_down]; rewrite ?Z.eqb_refl; reflexivity.
  - unfold MacOS.plat_send_key.
    destruct (MacOS.key_of _ _ _ _ _ _ special ch mods)
      as [[keycode uc] mapped_keycode].
    cbv zeta. eexists _, _, _. destruct created; reflexivity.
Qed.

(** ** Names of terminals *)

Lemma prefix_nocase_spec : forall needle hay,
  prefix_nocase needle hay = true <->
  exists mid post, hay = mid ++ post /\ map tolower mid = map tolower needle.
Proof.
  induction needle as [|x needle IH]; intros hay.
  - split; [intros _; exists [], hay; auto | reflexivity].
  - destruct hay as [|y hay]; cbn [prefix_nocase].
    + split; [discriminate |].
      intros (mid & post & H1 & H2). destruct mid; discriminate.
    + rewrite andb_true_iff, Z.eqb_eq, IH. split.
      * intros (Hxy & mid & post & -> & Hm). exists (y :: mid), post.
        split; [reflexivity |]. cbn [map]. congruence.
      * intros (mid & post & H1 & H2). destruct mid as [|m mid];
          [discriminate |].
        cbn [map app] in *. injection H1 as -> ->. injection H2 as Hm Hr.
        split; [exact Hm |]. exists mid, post. auto.
Qed.

Lemma strcasestr_bytes_spec needle : forall hay,
  strcasestr_bytes hay needle = true <->
  exists pre mid post,
    hay = pre ++ mid ++ post /\ map tolower mid = map tolower needle.
Proof.
  induction hay as [|y hay IH].
  - cbn [strcasestr_bytes]. rewrite orb_false_r, prefix_nocase_spec. split.
    + intros (mid & post & H1 & H2). exists [], mid, post. auto.
    + intros (pre & mid & post & H1 & H2).
      destruct pre; [| discriminate]. exists mid, post. auto.
  - cbn [strcasestr_bytes]. rewrite orb_true_iff, prefix_nocase_spec, IH.
    split.
    + intros [(mid & post & H1 & H2) | (pre & mid & post & H1 & H2)].
      * exists [], mid, post. auto.
      * exists (y :: pre), mid, post. rewrite H1. auto.
    + intros (pre & mid & post & H1 & H2). destruct pre as [|p pre].
      * left. exists mid, post. auto.
      * right. injection H1 as -> ->. exists pre, mid, post. auto.
Qed.

Lemma is_terminal_in_spec apps name :
  is_terminal_in apps name = true <->
  exists app, In app apps /\ occurs_nocase app name.
Proof.
  unfold is_terminal_in, occurs_nocase, strcasestr.
  rewrite existsb_exists. split.
  - intros (app & Hin & H). exists app. split; [exact Hin |].
    apply strcasestr_bytes_spec. exact H.
  - intros (app & Hin & H). exists app. split; [exact Hin |].
    apply strcasestr_bytes_spec. exact H.
Qed.

(** X28: what counts as a terminal.  On either backend a name is taken
    for a terminal exactly when some entry of the table occurs in it,
    anywhere and in any letter case; on Linux the entry [st] makes a
    terminal of every class with these two letters in a row. *)
Theorem terminal_names (name : string) :
  (Linux.plat_is_terminal name = true <->
   exists app, In app Linux.TerminalApps /\ occurs_nocase app name) /\
  (MacOS.plat_is_terminal name = true <->
   exists app, In app MacOS.TerminalApps /\ occurs_nocase app name) /\
  (occurs_nocase "st" name -> Linux.plat_is_terminal name = true).
Proof.
  split; [apply is_terminal_in_spec |]. split; [apply is_terminal_in_spec |].
  intros H. apply is_terminal_in_spec. exists "st". split; [| exact H].
  unfold Linux.TerminalApps. cbn. tauto.
Qed.


(** ** The keyboard of the macOS backend *)

Lemma in_all_chars c : -128 <= c <= 127 -> In c all_chars.
Proof.
  intros H. unfold all_chars.
  replace c with (Z.of_nat (Z.to_nat (c + 128)) - 128) by lia.
  apply (in_map (fun n => Z.of_nat n - 128)). apply in_seq. lia.
Qed.

Lemma keycode_table_checked :
  forallb (fun c1 => key_known c1 && forallb (keys_distinct c1) all_chars)
    all_chars = true.
Proof. vm_compute. reflexivity. Qed.

(** X29: the key codes of the macOS backend.  [keycode_for_char] has a
    key, below 0x33, for the letters, the digits and twelve punctuation
    marks, and 0xFFFF for every other character; the two cases of a
    letter share their key, and no other two characters do. *)
Theorem keycode_for_char_table (c1 c2 : Z) :
  -128 <= c1 <= 127 -> -128 <= c2 <= 127 ->
  key_known c1 = true /\
  (MacOS.keycode_for_char c1 = MacOS.keycode_for_char c2 ->
   MacOS.keycode_for_char c1 <> 0xFFFF -> tolower c1 = tolower c2) /\
  (tolower c1 = tolower c2 ->
   MacOS.keycode_for_char c1 = MacOS.keycode_for_char c2).
Proof.
  intros H1 H2. pose proof keycode_table_checked as Hall.
  rewrite forallb_forall in Hall.
  pose proof (Hall c1 (in_all_chars c1 H1)) as Hc1.
  apply andb_true_iff in Hc1. destruct Hc1 as [Hk Hd].
  rewrite forallb_forall in Hd. specialize (Hd c2 (in_all_chars c2 H2)).
  split; [exact Hk |]. split.
  - intros Heq Hne. unfold keys_distinct in Hd. rewrite Heq in Hd.
    rewrite Z.eqb_refl in Hd. rewrite <- Heq in Hd.
    replace (MacOS.keycode_for_char c1 =? 65535) with false in Hd
      by (symmetry; apply Z.eqb_neq; exact Hne).
    cbn [negb andb implb] in Hd. apply Z.eqb_eq. exact Hd.
  - intros Hl. unfold tolower in *.
    unfold MacOS.keycode_for_char.
    destruct ((65 <=? c1) && (c1 <=? 90)) eqn:E1;
      destruct ((65 <=? c2) && (c2 <=? 90)) eqn:E2;
      repeat match goal with
             | H : (_ && _) = true |- _ =>
                 apply andb_true_iff in H; destruct H
             | H : (_ <=? _) = true |- _ => apply Z.leb_le in H
             end.
    + assert (c1 = c2) by lia. subst. reflexivity.
    + assert (c2 = c1 + 32) by lia. subst c2.
      replace ((c1 + 32 >=? 97) && (c1 + 32 <=? 122)) with true
        by (symmetry; apply andb_true_iff; rewrite Z.geb_leb;
            split; apply Z.leb_le; lia).
      replace ((c1 >=? 97) && (c1 <=? 122)) with false
        by (symmetry; apply andb_false_iff; left; rewrite Z.geb_leb;
            apply Z.leb_gt; lia).
      replace ((c1 >=? 65) && (c1 <=? 90)) with true
        by (symmetry; apply andb_true_iff; rewrite Z.geb_leb;
            split; apply Z.leb_le; lia).
      f_equal. lia.
    + assert (c1 = c2 + 32) by lia. subst c1.
      replace ((c2 + 32 >=? 97) && (c2 + 32 <=? 122)) with true
        by (symmetry; apply andb_true_iff; rewrite Z.geb_leb;
            split; apply Z.leb_le; lia).
      replace ((c2 >=? 97) && (c2 <=? 122)) with false
        by (symmetry; apply andb_false_iff; left; rewrite Z.geb_leb;
            apply Z.leb_gt; lia).
      replace ((c2 >=? 65) && (c2 <=? 90)) with true
        by (symmetry; apply andb_true_iff; rewrite Z.geb_leb;
            split; apply Z.leb_le; lia).
      f_equal. lia.
    + subst. reflexivity.
Qed.

Lemma keycode_for_char_table_witness :
  key_known 97 = true /\
  (MacOS.keycode_for_char 97 = MacOS.keycode_for_char 65 ->
   MacOS.keycode_for_char 97 <> 0xFFFF -> tolower 97 = tolower 65) /\
  (tolower 97 = tolower 65 ->
   MacOS.keycode_for_char 97 = MacOS.keycode_for_char 65).
Proof.
  apply (keycode_for_char_table 97 65); lia.
Defined.

(** ** The QR code on the console *)

Lemma qr_row_eq q y hi : forall fuel x,
  x + Z.of_nat fuel = hi ->
  qr_row fuel q x y hi
  = map (fun c => qr_cell q (x + Z.of_nat c) y) (seq 0 fuel).
Proof.
  induction fuel as [|fuel IH]; intros x Hx; [reflexivity |].
  cbn [qr_row seq map].
  replace (x <? hi) with true by (symmetry; apply Z.ltb_lt; lia).
  rewrite Z.add_0_r. f_equal.
  rewrite (IH (x + 1)) by lia. rewrite <- seq_shift, map_map.
  apply map_ext. intros c. f_equal. lia.
Qed.

Lemma flat_map_map {A B C} (f : B -> list C) (g : A -> B) (l : list A) :
  flat_map f (map g l) = flat_map (fun a => f (g a)) l.
Proof.
  induction l as [|a l IH]; [reflexivity |].
  cbn [map flat_map]. rewrite IH. reflexivity.
Qed.

Lemma qr_rows_eq q lo hi : forall n fuel y,
  (n <= fuel)%nat -> y + 2 * Z.of_nat n >= hi ->
  (n = 0%nat \/ y + 2 * (Z.of_nat n - 1) < hi) ->
  qr_rows fuel q lo y hi
  = flat_map
      (fun r => qr_row (Z.to_nat (hi - lo)) q lo (y + 2 * Z.of_nat r) hi
                ++ [LF])
      (seq 0 n).
Proof.
  induction n as [|n IH]; intros fuel y Hf Hge Hlt.
  - destruct fuel; [reflexivity |]. cbn [qr_rows seq flat_map].
    replace (y <? hi) with false by (symmetry; apply Z.ltb_ge; lia).
    reflexivity.
  - destruct fuel as [|fuel]; [lia |]. cbn [qr_rows seq flat_map].
    destruct Hlt as [Hlt | Hlt]; [discriminate |].
    replace (y <? hi) with true by (symmetry; apply Z.ltb_lt; lia).
    rewrite Z.add_0_r. rewrite <- app_assoc. cbn [app]. do 2 f_equal.
    rewrite (IH fuel (y + 2)) by lia.
    rewrite <- seq_shift, flat_map_map.
    apply flat_map_ext. intros r. do 2 f_equal. lia.
Qed.

Lemma qr_cell_halves q x y :
  0 <= x < qr_size q ->
  shows_top (qr_cell q x y)
  = (y >=? 0) && (y <? qr_size q) && qr_module q x y /\
  shows_bottom (qr_cell q x y)
  = (y + 1 >=? 0) && (y + 1 <? qr_size q) && qr_module q x (y + 1).
Proof.
  intros Hx. unfold qr_cell. cbv zeta.
  replace (x >=? 0) with true by (symmetry; rewrite Z.geb_leb; lia).
  replace (x <? qr_size q) with true by (symmetry; apply Z.ltb_lt; lia).
  cbn [andb].
  destruct ((y >=? 0) && (y <? qr_size q) && qr_module q x y);
    destruct ((y + 1 >=? 0) && (y + 1 <? qr_size q) && qr_module q x (y + 1));
    split; reflexivity.
Qed.

(** X30: the QR code is drawn whole.  [print_qr_ascii] prints a row of
    half-block glyphs for every two lines of modules, beginning with
    the line above the symbol, with one column on either side of the
    symbol that is always blank; every module of the symbol is shown as
    the upper half of its cell when its line is odd and as the lower
    half when it is even, and that half is set exactly when the module
    is. *)
Theorem qr_code_is_drawn_whole (encodeText : string -> option QrCode)
    (text : string) (q : QrCode) :
  encodeText text = Some q -> 0 <= qr_size q ->
  print_qr_ascii encodeText text = qr_picture q /\
  (forall x y, 0 <= x < qr_size q -> 0 <= y < qr_size q ->
     qr_module q x y =
     if Z.odd y then shows_top (qr_cell q x y)
     else shows_bottom (qr_cell q x (y - 1))) /\
  (forall y, qr_cell q (-1) y = " " /\ qr_cell q (qr_size q) y = " ").
Proof.
  intros He Hs. split; [| split].
  - unfold print_qr_ascii, qr_picture. rewrite He. cbv zeta.
    replace (qr_size q + 1 - -1) with (qr_size q + 2) by lia.
    rewrite (qr_rows_eq q (-1) (qr_size q + 1)
               (Z.to_nat ((qr_size q + 3) / 2))).
    + apply flat_map_ext. intros r. f_equal.
      replace (qr_size q + 1 - -1) with (qr_size q + 2) by lia.
      rewrite qr_row_eq by lia.
      apply map_ext. intros c. f_equal; lia.
    + assert ((qr_size q + 3) / 2 <= qr_size q + 2)
        by (apply Z.div_le_upper_bound; lia).
      lia.
    + pose proof (Z.div_mod (qr_size q + 3) 2 ltac:(lia)) as Hd.
      pose proof (Z.mod_pos_bound (qr_size q + 3) 2 ltac:(lia)) as Hm.
      assert (0 <= (qr_size q + 3) / 2) by (apply Z.div_pos; lia).
      lia.
    + right.
      pose proof (Z.div_mod (qr_size q + 3) 2 ltac:(lia)) as Hd.
      pose proof (Z.mod_pos_bound (qr_size q + 3) 2 ltac:(lia)) as Hm.
      assert (0 <= (qr_size q + 3) / 2) by (apply Z.div_pos; lia).
      lia.
  - intros x y Hx Hy.
    destruct (qr_cell_halves q x y Hx) as [Ht _].
    destruct (qr_cell_halves q x (y - 1) Hx) as [_ Hb].
    rewrite Ht, Hb. replace (y - 1 + 1) with y by lia.
    replace (y >=? 0) with true by (symmetry; rewrite Z.geb_leb; lia).
    replace (y <? qr_size q) with true by (symmetry; apply Z.ltb_lt; lia).
    destruct (Z.odd y); reflexivity.
  - intros y. unfold qr_cell. cbv zeta.
    replace (qr_size q <? qr_size q) with false
      by (symmetry; apply Z.ltb_irrefl).
    change (-1 >=? 0) with false. rewrite !andb_false_r. cbn [andb negb].
    split; reflexivity.
Qed.

Lemma qr_code_is_drawn_whole_witness :
  print_qr_ascii (fun _ => Some sample_qr) "otpauth://totp/tgterm"
  = qr_picture sample_qr /\
  (forall x y, 0 <= x < qr_size sample_qr -> 0 <= y < qr_size sample_qr ->
     qr_module sample_qr x y =
     if Z.odd y then shows_top (qr_cell sample_qr x y)
     else shows_bottom (qr_cell sample_qr x (y - 1))) /\
  (forall y, qr_cell sample_qr (-1) y = " " /\
             qr_cell sample_qr (qr_size sample_qr) y = " ").
Proof.
  apply (qr_code_is_drawn_whole (fun _ => Some sample_qr)
           "otpauth://totp/tgterm" sample_qr).
  - reflexivity.
  - cbn. lia.
Defined.
